(** * GameDetails: wager intake, bet-list assembly and volume aggregation

    A shallow embedding of [src/pages/GameDetails.tsx]: the React component
    state, the three loaders ([fetchGame], [fetchUserBalance],
    [fetchMatchBets]), the submit handler [placeBet] and the form that calls
    it.

    - JavaScript numbers are IEEE 754 binary64 values: Rocq's primitive
      [float], whose [+], [<?], [<=?] and [is_nan] are the operations the
      script performs.
    - An [async] function is a program tree ([Prog]) whose nodes are the
      state setters it calls, the store requests it awaits and the lines it
      logs; [try]/[catch]/[finally] are combinators over such trees.
    - The store (the Supabase client of [../lib/supabase]) is outside the
      file: it is the environment that answers each request. *)

From Stdlib Require Import ZArith List String Ascii Bool Floats Lia DecimalString Zpower.
From Stdlib Require Import Permutation Sorted.
Import ListNotations.

Set Warnings "-inexact-float".

Local Open Scope string_scope.
Local Open Scope Z_scope.
Local Open Scope list_scope.

(** ** JavaScript values *)

Module JS.

(** A value that may be [undefined] or [null] (an optional field, a nullable
    column). *)
Inductive Nullable (A : Type) : Type :=
| undefined
| null
| val (a : A).
Arguments undefined {A}.
Arguments null {A}.
Arguments val {A} a.

Definition number := float.

(** [x === y] on strings that may be [null] or [undefined]. *)
Definition strict_eq (x y : Nullable string) : bool :=
  match x, y with
  | undefined, undefined => true
  | null, null => true
  | val a, val b => String.eqb a b
  | _, _ => false
  end.

(** ToBoolean on a number: [NaN], [+0] and [-0] are falsy. *)
Definition truthy_number (x : number) : bool :=
  negb (PrimFloat.is_nan x || PrimFloat.is_zero x).

(** ToBoolean on a string: only the empty string is falsy. *)
Definition truthy_string (s : string) : bool :=
  match s with EmptyString => false | _ => true end.

(** [x || 0] for a number that may be missing. *)
Definition or_zero (x : Nullable number) : number :=
  match x with
  | val a => if truthy_number a then a else 0%float
  | _ => 0%float
  end.

(** [Number(x)] on a number is the identity. *)
Definition Number (x : number) : number := x.

(** [l || []] on a query result. *)
Definition or_empty {A} (l : option (list A)) : list A :=
  match l with Some l => l | None => [] end.

(** The number whose value is the integer [n], rounded to nearest-even when
    [n] has more than 53 significant bits. *)
Definition of_Z (n : Z) : number :=
  SF2Prim (binary_normalize prec emax n 0 false).

(** The binary64 datum of a whole number [0 <= n < 2^53]: a mantissa of 53
    bits and the exponent that goes with it. *)
Definition canon (n : Z) : spec_float :=
  match n with
  | Z.pos _ => S754_finite false (Z.to_pos (n * 2 ^ (52 - Z.log2 n))) (Z.log2 n - 52)
  | _ => S754_zero false
  end.

(** *** [Array.prototype.sort]

    The comparator returns a number; [NaN] counts as [+0].  The sort is
    stable (ECMAScript 2019): an element moves in front of another only when
    the comparator puts it strictly before, which an insertion sort does.  A
    comparator result is kept as its sign: [None] for [NaN].  With a
    comparator that returns [NaN] for some pairs the order is left to the
    engine; this definition gives one such order, and the properties about
    order are stated for lists whose comparisons are all numbers. *)
Section Sort.
Context {A : Type}.
Variable cmp : A -> A -> option Z.

Definition before_or_equal (a b : A) : bool :=
  match cmp a b with
  | Some v => v <=? 0
  | None => true
  end.

Fixpoint insert (x : A) (l : list A) : list A :=
  match l with
  | [] => [x]
  | y :: l' => if before_or_equal x y then x :: l else y :: insert x l'
  end.

Fixpoint sort (l : list A) : list A :=
  match l with
  | [] => []
  | x :: l' => insert x (sort l')
  end.
End Sort.

(** *** Builtins that read a string

    [parseFloat], [parseInt] (called with one argument) and
    [new Date(s).getTime()].  A time value is an integral number of
    milliseconds of magnitude at most 8.64e15, or [NaN] ([None]); the
    difference of two distinct time values keeps its sign when rounded to
    binary64, so a comparator that subtracts them is modelled on [Z]. *)
Class Builtins : Type := {
  parseFloat : string -> number;
  parseInt : string -> number;
  Date_getTime : string -> option Z
}.

(** **** An executable instance on ASCII input *)

Definition is_white (c : ascii) : bool :=
  let n := nat_of_ascii c in
  ((9 <=? n) && (n <=? 13) || (n =? 32))%nat.

Fixpoint skip_white (s : string) : string :=
  match s with
  | String c s' => if is_white c then skip_white s' else s
  | EmptyString => s
  end.

Definition digit_of (radix : Z) (c : ascii) : option Z :=
  let n := Z.of_nat (nat_of_ascii c) in
  let d :=
    if (48 <=? n) && (n <=? 57) then Some (n - 48)
    else if (97 <=? n) && (n <=? 122) then Some (n - 87)
    else if (65 <=? n) && (n <=? 90) then Some (n - 55)
    else None in
  match d with
  | Some v => if v <? radix then Some v else None
  | None => None
  end.

(** The longest prefix of digits: its value, its length, and the rest. *)
Fixpoint digits (radix : Z) (s : string) (acc : Z) (len : Z) : Z * Z * string :=
  match s with
  | String c s' =>
      match digit_of radix c with
      | Some d => digits radix s' (acc * radix + d) (len + 1)
      | None => (acc, len, s)
      end
  | EmptyString => (acc, len, s)
  end.

Definition take_sign (s : string) : bool * string :=
  match s with
  | String "-" s' => (true, s')
  | String "+" s' => (false, s')
  | _ => (false, s)
  end.

Definition signed (neg : bool) (x : number) : number :=
  if neg then (- x)%float else x.

(** [m * 10^e] for [0 <= m], correctly rounded.  A negative exponent divides
    with 64 extra bits and keeps a sticky bit for the remainder.  The two
    guards answer out-of-range exponents without computing the power:
    [10^e >= 2^(3e)] and [10^(-k) <= 2^(-3k)]. *)
Definition of_decimal (m e : Z) : number :=
  if m =? 0 then 0%float
  else if 0 <=? e then
    if 1025 <=? Z.log2 m + 3 * e then infinity
    else of_Z (m * 10 ^ e)
  else if Z.log2 m + 1 + 3 * e <? -1080 then 0%float
  else
    let d := 10 ^ (- e) in
    let s := Z.max 0 (64 + Z.log2 d - Z.log2 m) in
    let (q, r) := Z.div_eucl (Z.shiftl m s) d in
    let q' := 2 * q + (if r =? 0 then 0 else 1) in
    SF2Prim (binary_normalize prec emax q' (- (s + 1)) false).

(** The exponent part [e[+-]ddd], if it is complete. *)
Definition exponent_part (s : string) : Z :=
  match s with
  | String c s' =>
      if (Ascii.eqb c "e" || Ascii.eqb c "E")%bool then
        let (neg, s'') := take_sign s' in
        let '(v, len, _) := digits 10 s'' 0 0 in
        if len =? 0 then 0 else if neg then - v else v
      else 0
  | EmptyString => 0
  end.

Definition prefix_Infinity (s : string) : bool :=
  String.eqb (String.substring 0 8 s) "Infinity".

Definition parseFloat_ascii (s : string) : number :=
  let (neg, s1) := take_sign (skip_white s) in
  if prefix_Infinity s1 then signed neg infinity
  else
    let '(ip, ilen, s2) := digits 10 s1 0 0 in
    let '(m, flen, s3) :=
      match s2 with
      | String "." s2' =>
          let '(m, flen, s3) := digits 10 s2' ip 0 in
          if (ilen =? 0) && (flen =? 0) then (ip, 0, s2) else (m, flen, s3)
      | _ => (ip, 0, s2)
      end in
    if (ilen =? 0) && (flen =? 0) then nan
    else signed neg (of_decimal m (exponent_part s3 - flen)).

Definition parseInt_ascii (s : string) : number :=
  let (neg, s1) := take_sign (skip_white s) in
  let (radix, s2) :=
    match s1 with
    | String "0" (String "x" s') => (16, s')
    | String "0" (String "X" s') => (16, s')
    | _ => (10, s1)
    end in
  let '(v, len, _) := digits radix s2 0 0 in
  if len =? 0 then nan else signed neg (of_Z v).

(** The date-time string format [YYYY-MM-DDTHH:mm:ss(.s+)?(Z|+HH:mm|-HH:mm)],
    the form in which the store returns a timestamp.  This instance reads
    that form and no other: it gives no time value to the further strings
    an engine parses (a date without a time, a time without seconds or
    without a zone, which is read in the local zone, [24:00:00], a day past
    the end of its month, the forms of the engines' fallback parsers).  It
    serves the examples, whose timestamps are all of the form above; the
    general properties hold for every [Date_getTime]. *)
Fixpoint fixed_digits (n : nat) (s : string) (acc : Z) : option (Z * string) :=
  match n with
  | O => Some (acc, s)
  | S n' =>
      match s with
      | String c s' =>
          match digit_of 10 c with
          | Some d => fixed_digits n' s' (acc * 10 + d)
          | None => None
          end
      | EmptyString => None
      end
  end.

Definition expect (c : ascii) (s : string) : option string :=
  match s with
  | String c' s' => if Ascii.eqb c c' then Some s' else None
  | EmptyString => None
  end.

Definition leap_year (y : Z) : bool :=
  ((y mod 4 =? 0) && negb (y mod 100 =? 0)) || (y mod 400 =? 0).

Definition days_in_month (y m : Z) : Z :=
  if m =? 2 then (if leap_year y then 29 else 28)
  else if (m =? 4) || (m =? 6) || (m =? 9) || (m =? 11) then 30
  else 31.

(** Days from 1970-01-01 to the given civil date. *)
Definition days_from_civil (y m d : Z) : Z :=
  let y' := if m <=? 2 then y - 1 else y in
  let era := y' / 400 in
  let yoe := y' - era * 400 in
  let doy := (153 * (if 2 <? m then m - 3 else m + 9) + 2) / 5 + d - 1 in
  let doe := yoe * 365 + yoe / 4 - yoe / 100 + doy in
  era * 146097 + doe - 719468.

(** Milliseconds of a fraction of a second: its first three digits. *)
Definition fraction_ms (s : string) : Z * string :=
  match s with
  | String "." s' =>
      let '(v, len, rest) := digits 10 s' 0 0 in
      if len =? 0 then (0, s)
      else if len <=? 3 then (v * 10 ^ (3 - len), rest)
      else (v / 10 ^ (len - 3), rest)
  | _ => (0, s)
  end.

Definition zone_minutes (s : string) : option Z :=
  match s with
  | String "Z" EmptyString => Some 0
  | String c s' =>
      if (Ascii.eqb c "+" || Ascii.eqb c "-")%bool then
        match fixed_digits 2 s' 0 with
        | Some (h, s1) =>
            match expect ":" s1 with
            | Some s2 =>
                match fixed_digits 2 s2 0 with
                | Some (m, EmptyString) =>
                    if (h <? 24) && (m <? 60)
                    then Some (if Ascii.eqb c "-" then - (h * 60 + m) else h * 60 + m)
                    else None
                | _ => None
                end
            | None => None
            end
        | None => None
        end
      else None
  | EmptyString => None
  end.

Definition bind_opt {A B} (o : option A) (f : A -> option B) : option B :=
  match o with Some a => f a | None => None end.

(** The time value of a timestamp of the form above: milliseconds since
    1970-01-01T00:00:00Z, digits of the fraction past the third dropped. *)
Definition Date_getTime_iso (s : string) : option Z :=
  bind_opt (fixed_digits 4 s 0) (fun '(y, s) =>
  bind_opt (expect "-" s) (fun s =>
  bind_opt (fixed_digits 2 s 0) (fun '(mo, s) =>
  bind_opt (expect "-" s) (fun s =>
  bind_opt (fixed_digits 2 s 0) (fun '(d, s) =>
  bind_opt (expect "T" s) (fun s =>
  bind_opt (fixed_digits 2 s 0) (fun '(h, s) =>
  bind_opt (expect ":" s) (fun s =>
  bind_opt (fixed_digits 2 s 0) (fun '(mi, s) =>
  bind_opt (expect ":" s) (fun s =>
  bind_opt (fixed_digits 2 s 0) (fun '(sec, s) =>
  let (ms, s) := fraction_ms s in
  bind_opt (zone_minutes s) (fun z =>
  if (1 <=? mo) && (mo <=? 12) && (1 <=? d) && (d <=? days_in_month y mo)
     && (h <? 24) && (mi <? 60) && (sec <? 60)
  then Some ((((days_from_civil y mo d * 24 + h) * 60 + mi - z) * 60 + sec) * 1000 + ms)
  else None)))))))))))).

Definition ascii_builtins : Builtins := {|
  parseFloat := parseFloat_ascii;
  parseInt := parseInt_ascii;
  Date_getTime := Date_getTime_iso
|}.

End JS.

(** ** The data of the page *)

Module GameDetails.
Import JS.

(** Modelled from the spec: the [games] row type of [../lib/database.types],
    which is not under [src/].  The fields are the ones the page reads; the
    side labels and the tracked team are nullable (the page writes
    [game.team!]). *)
Record Game : Type := {
  game_id : string;
  game_type : string;
  game_status : string;
  game_teama : Nullable string;
  game_teamb : Nullable string;
  game_team : Nullable string;
  game_date : string
}.

(** The authenticated user of [useAuth]. *)
Record User : Type := { user_id : string }.

Inductive BetType : Type := win | score.

(** A row of [win_game_bets] as [fetchMatchBets] selects it. *)
Record WinBetRow : Type := {
  wb_id : string;
  wb_user_id : string;
  wb_bet_amount : Nullable number;
  wb_status : string;
  wb_created_at : string;
  wb_team : Nullable string;
  wb_predicted_percentage : Nullable number;
  wb_user_name : string
}.

(** A row of [score_prediction_bets] as [fetchMatchBets] selects it. *)
Record ScoreBetRow : Type := {
  sb_id : string;
  sb_user_id : string;
  sb_bet_amount : Nullable number;
  sb_status : string;
  sb_created_at : string;
  sb_team : Nullable string;
  sb_predicted_score : Nullable number;
  sb_user_name : string
}.

(** [interface MatchBet]. *)
Record MatchBet : Type := {
  id : string;
  bet_user_id : string;
  bet_amount : Nullable number;
  status : string;
  created_at : string;
  team : Nullable string;
  predicted_percentage : Nullable number;
  predicted_score : Nullable number;
  type : BetType;
  user_name : string
}.

(** [{ ...b, type: 'win' }] *)
Definition tag_win (b : WinBetRow) : MatchBet := {|
  id := wb_id b;
  bet_user_id := wb_user_id b;
  bet_amount := wb_bet_amount b;
  status := wb_status b;
  created_at := wb_created_at b;
  team := wb_team b;
  predicted_percentage := wb_predicted_percentage b;
  predicted_score := undefined;
  type := win;
  user_name := wb_user_name b
|}.

(** [{ ...b, type: 'score' }] *)
Definition tag_score (b : ScoreBetRow) : MatchBet := {|
  id := sb_id b;
  bet_user_id := sb_user_id b;
  bet_amount := sb_bet_amount b;
  status := sb_status b;
  created_at := sb_created_at b;
  team := sb_team b;
  predicted_percentage := undefined;
  predicted_score := sb_predicted_score b;
  type := score;
  user_name := sb_user_name b
|}.

(** The fixed table of score brackets (line 45). *)
Definition scoreRanges : list string :=
  ["0 - 50"; "51 - 80"; "81 - 100"; "101 - 120"; "121 - 140";
   "141 - 160"; "161 - 180"; "181 - 200"; "201 - 220"; "221 - 240"; "241+"].

(** *** Component state

    The twelve [useState] cells, with the route parameter [id] and the
    [user] of the auth context, which the handlers read but never set. *)
Record Session : Type := {
  route_id : option string;
  user : option User;
  game : option Game;
  matchBets : list MatchBet;
  loading : bool;
  betsLoading : bool;
  betAmount : string;
  prediction : string;
  error : string;
  submitting : bool;
  userBalance : number;
  totalVolume : number;
  teamAVolume : number;
  teamBVolume : number
}.

(** The state at mount: the initial values of the [useState] calls. *)
Definition initial (rid : option string) (u : option User) : Session := {|
  route_id := rid;
  user := u;
  game := None;
  matchBets := [];
  loading := true;
  betsLoading := true;
  betAmount := "";
  prediction := "";
  error := "";
  submitting := false;
  userBalance := 0%float;
  totalVolume := 0%float;
  teamAVolume := 0%float;
  teamBVolume := 0%float
|}.

Inductive Setter : Type :=
| setGame (g : option Game)
| setMatchBets (l : list MatchBet)
| setLoading (b : bool)
| setBetsLoading (b : bool)
| setBetAmount (s : string)
| setPrediction (s : string)
| setError (s : string)
| setSubmitting (b : bool)
| setUserBalance (x : number)
| setTotalVolume (x : number)
| setTeamAVolume (x : number)
| setTeamBVolume (x : number).

Definition apply_setter (a : Setter) (s : Session) : Session :=
  match a with
  | setGame x =>
      {| route_id := route_id s; user := user s; game := x; matchBets := matchBets s;
         loading := loading s; betsLoading := betsLoading s; betAmount := betAmount s;
         prediction := prediction s; error := error s; submitting := submitting s;
         userBalance := userBalance s; totalVolume := totalVolume s;
         teamAVolume := teamAVolume s; teamBVolume := teamBVolume s |}
  | setMatchBets x =>
      {| route_id := route_id s; user := user s; game := game s; matchBets := x;
         loading := loading s; betsLoading := betsLoading s; betAmount := betAmount s;
         prediction := prediction s; error := error s; submitting := submitting s;
         userBalance := userBalance s; totalVolume := totalVolume s;
         teamAVolume := teamAVolume s; teamBVolume := teamBVolume s |}
  | setLoading x =>
      {| route_id := route_id s; user := user s; game := game s;
         matchBets := matchBets s; loading := x; betsLoading := betsLoading s;
         betAmount := betAmount s; prediction := prediction s; error := error s;
         submitting := submitting s; userBalance := userBalance s;
         totalVolume := totalVolume s; teamAVolume := teamAVolume s;
         teamBVolume := teamBVolume s |}
  | setBetsLoading x =>
      {| route_id := route_id s; user := user s; game := game s;
         matchBets := matchBets s; loading := loading s; betsLoading := x;
         betAmount := betAmount s; prediction := prediction s; error := error s;
         submitting := submitting s; userBalance := userBalance s;
         totalVolume := totalVolume s; teamAVolume := teamAVolume s;
         teamBVolume := teamBVolume s |}
  | setBetAmount x =>
      {| route_id := route_id s; user := user s; game := game s;
         matchBets := matchBets s; loading := loading s; betsLoading := betsLoading s;
         betAmount := x; prediction := prediction s; error := error s;
         submitting := submitting s; userBalance := userBalance s;
         totalVolume := totalVolume s; teamAVolume := teamAVolume s;
         teamBVolume := teamBVolume s |}
  | setPrediction x =>
      {| route_id := route_id s; user := user s; game := game s;
         matchBets := matchBets s; loading := loading s; betsLoading := betsLoading s;
         betAmount := betAmount s; prediction := x; error := error s;
         submitting := submitting s; userBalance := userBalance s;
         totalVolume := totalVolume s; teamAVolume := teamAVolume s;
         teamBVolume := teamBVolume s |}
  | setError x =>
      {| route_id := route_id s; user := user s; game := game s;
         matchBets := matchBets s; loading := loading s; betsLoading := betsLoading s;
         betAmount := betAmount s; prediction := prediction s; error := x;
         submitting := submitting s; userBalance := userBalance s;
         totalVolume := totalVolume s; teamAVolume := teamAVolume s;
         teamBVolume := teamBVolume s |}
  | setSubmitting x =>
      {| route_id := route_id s; user := user s; game := game s;
         matchBets := matchBets s; loading := loading s; betsLoading := betsLoading s;
         betAmount := betAmount s; prediction := prediction s; error := error s;
         submitting := x; userBalance := userBalance s; totalVolume := totalVolume s;
         teamAVolume := teamAVolume s; teamBVolume := teamBVolume s |}
  | setUserBalance x =>
      {| route_id := route_id s; user := user s; game := game s;
         matchBets := matchBets s; loading := loading s; betsLoading := betsLoading s;
         betAmount := betAmount s; prediction := prediction s; error := error s;
         submitting := submitting s; userBalance := x; totalVolume := totalVolume s;
         teamAVolume := teamAVolume s; teamBVolume := teamBVolume s |}
  | setTotalVolume x =>
      {| route_id := route_id s; user := user s; game := game s;
         matchBets := matchBets s; loading := loading s; betsLoading := betsLoading s;
         betAmount := betAmount s; prediction := prediction s; error := error s;
         submitting := submitting s; userBalance := userBalance s; totalVolume := x;
         teamAVolume := teamAVolume s; teamBVolume := teamBVolume s |}
  | setTeamAVolume x =>
      {| route_id := route_id s; user := user s; game := game s;
         matchBets := matchBets s; loading := loading s; betsLoading := betsLoading s;
         betAmount := betAmount s; prediction := prediction s; error := error s;
         submitting := submitting s; userBalance := userBalance s;
         totalVolume := totalVolume s; teamAVolume := x; teamBVolume := teamBVolume s |}
  | setTeamBVolume x =>
      {| route_id := route_id s; user := user s; game := game s;
         matchBets := matchBets s; loading := loading s; betsLoading := betsLoading s;
         betAmount := betAmount s; prediction := prediction s; error := error s;
         submitting := submitting s; userBalance := userBalance s;
         totalVolume := totalVolume s; teamAVolume := teamAVolume s; teamBVolume := x |}
  end.

(** ** The store gateway *)

(** The object [placeBet] inserts into [win_game_bets] (lines 140 to 146). *)
Record WinInsert : Type := {
  wi_user_id : string;
  wi_game_id : string;
  wi_team : string;
  wi_predicted_percentage : number;
  wi_bet_amount : number
}.

(** The object [placeBet] inserts into [score_prediction_bets] (lines 153 to
    159). *)
Record ScoreInsert : Type := {
  si_user_id : string;
  si_game_id : string;
  si_team : Nullable string;
  si_predicted_score : number;
  si_bet_amount : number
}.

(** Modelled from the spec: the store client of [../lib/supabase], which is
    not under [src/].  These are the six requests the page builds with it
    (the spec's [getGame], [getUserBalance], [listWinWagers],
    [listScoreWagers], [insertWinWager], [insertScoreWager]). *)
Inductive Req : Type :=
| SelectGame (id : option string)
| SelectBalance (user_id : string)
| SelectWinBets (game_id : string)
| SelectScoreBets (game_id : string)
| InsertWin (row : WinInsert)
| InsertScore (row : ScoreInsert).

(** Modelled from the spec: what a request resolves to, [{ data, error }]
    (the spec's [Ok | Error]); [fetchGame] reads both fields. *)
Record Reply (D : Type) : Type := {
  data : option D;
  reply_error : option string
}.
Arguments data {D} r.
Arguments reply_error {D} r.

Definition ok {D} (d : D) : Reply D := {| data := Some d; reply_error := None |}.
Definition failed {D} (e : string) : Reply D := {| data := None; reply_error := Some e |}.

(** The selected [users] row: [{ balance }]. *)
Record BalanceRow : Type := { balance : Nullable number }.

Definition Resp (q : Req) : Type :=
  match q with
  | SelectGame _ => Reply Game
  | SelectBalance _ => Reply BalanceRow
  | SelectWinBets _ => Reply (list WinBetRow)
  | SelectScoreBets _ => Reply (list ScoreBetRow)
  | InsertWin _ => Reply unit
  | InsertScore _ => Reply unit
  end.

(** The promise of a request is fulfilled with a reply or rejected. *)
Inductive Outcome (T : Type) : Type :=
| Fulfilled (r : T)
| Rejected (reason : string).
Arguments Fulfilled {T} r.
Arguments Rejected {T} reason.

(** The two wager collections, as the rows the page has written. *)
Record Store : Type := {
  win_game_bets : list WinInsert;
  score_prediction_bets : list ScoreInsert
}.

Definition replied_ok {D} (o : Outcome (Reply D)) : bool :=
  match o with
  | Fulfilled r => match reply_error r with None => true | Some _ => false end
  | Rejected _ => false
  end.

(** Modelled from the spec: what a request leaves in the store once it is
    answered.  An insert that the store reports as done adds its row;
    nothing else writes. *)
Definition commit (q : Req) : Outcome (Resp q) -> Store -> Store :=
  match q return Outcome (Resp q) -> Store -> Store with
  | InsertWin row => fun o db =>
      if replied_ok o
      then {| win_game_bets := win_game_bets db ++ [row];
              score_prediction_bets := score_prediction_bets db |}
      else db
  | InsertScore row => fun o db =>
      if replied_ok o
      then {| win_game_bets := win_game_bets db;
              score_prediction_bets := score_prediction_bets db ++ [row] |}
      else db
  | _ => fun _ db => db
  end.

(** ** Asynchronous programs *)

Inductive Prog (A : Type) : Type :=
| Ret (a : A)
| Throw (e : string)
| Set_ (a : Setter) (k : Prog A)
| Log (msg : string) (k : Prog A)
| Await (q : Req) (k : Outcome (Resp q) -> Prog A).
Arguments Ret {A} a.
Arguments Throw {A} e.
Arguments Set_ {A} a k.
Arguments Log {A} msg k.
Arguments Await {A} q k.

Fixpoint bind {A B} (p : Prog A) (f : A -> Prog B) : Prog B :=
  match p with
  | Ret a => f a
  | Throw e => Throw e
  | Set_ a k => Set_ a (bind k f)
  | Log m k => Log m (bind k f)
  | Await q k => Await q (fun o => bind (k o) f)
  end.

Declare Scope prog_scope.
Delimit Scope prog_scope with prog.
Notation "x <- p ;; q" := (bind p (fun x => q))
  (at level 61, p at next level, right associativity) : prog_scope.
Notation "p ;; q" := (bind p (fun _ => q))
  (at level 61, right associativity) : prog_scope.
Local Open Scope prog_scope.

(** A call of a state setter. *)
Definition set (a : Setter) : Prog unit := Set_ a (Ret tt).

(** [console.error(msg, ...)] *)
Definition console_error (msg : string) : Prog unit := Log msg (Ret tt).

(** [await] of a store request: a rejected promise throws. *)
Definition await (q : Req) : Prog (Resp q) :=
  Await q (fun o => match o with Fulfilled r => Ret r | Rejected e => Throw e end).

(** [try { p } catch (e) { h e }] *)
Fixpoint try_catch {A} (p : Prog A) (h : string -> Prog A) : Prog A :=
  match p with
  | Ret a => Ret a
  | Throw e => h e
  | Set_ a k => Set_ a (try_catch k h)
  | Log m k => Log m (try_catch k h)
  | Await q k => Await q (fun o => try_catch (k o) h)
  end.

(** [try { p } finally { f }]: [f] runs on every exit of [p], a [return]
    included, and the exit of [p] stands. *)
Fixpoint finally {A} (p : Prog A) (f : Prog unit) : Prog A :=
  match p with
  | Ret a => f ;; Ret a
  | Throw e => f ;; Throw e
  | Set_ a k => Set_ a (finally k f)
  | Log m k => Log m (finally k f)
  | Await q k => Await q (fun o => finally (k o) f)
  end.

(** ** The handlers of the component

    A handler reads the state of the render that created it (its closure,
    the argument [c]) and writes through the setters. *)
Section Handlers.
Context {B : Builtins}.

(** *** Wager list assembly (lines 91 to 94) *)

Definition created_time (b : MatchBet) : option Z :=
  Date_getTime (created_at b).

(** [(a, b) => new Date(b.created_at).getTime() - new Date(a.created_at).getTime()] *)
Definition by_created_desc (a b : MatchBet) : option Z :=
  match created_time b, created_time a with
  | Some tb, Some ta => Some (tb - ta)
  | _, _ => None
  end.

Definition assemble (winBets : option (list WinBetRow))
    (scoreBets : option (list ScoreBetRow)) : list MatchBet :=
  JS.sort by_created_desc
    (map tag_win (or_empty winBets) ++ map tag_score (or_empty scoreBets)).

(** *** Volume cards (lines 99 to 101) *)

(** [Number(b.bet_amount || 0)] *)
Definition amount_of (b : MatchBet) : number :=
  Number (or_zero (bet_amount b)).

(** [l.reduce((sum, b) => sum + Number(b.bet_amount || 0), 0)] *)
Definition reduce_amounts (l : list MatchBet) : number :=
  fold_left (fun sum b => (sum + amount_of b)%float) l 0%float.

(** [game?.teama] and [game?.teamb] *)
Definition side_a (g : option Game) : Nullable string :=
  match g with Some g => game_teama g | None => undefined end.
Definition side_b (g : option Game) : Nullable string :=
  match g with Some g => game_teamb g | None => undefined end.

Definition on_side (label : Nullable string) (b : MatchBet) : bool :=
  strict_eq (team b) label.

Record Volumes : Type := { total : number; side_a_volume : number; side_b_volume : number }.

Definition aggregate (allBets : list MatchBet) (a b : Nullable string) : Volumes := {|
  total := reduce_amounts allBets;
  side_a_volume := reduce_amounts (filter (on_side a) allBets);
  side_b_volume := reduce_amounts (filter (on_side b) allBets)
|}.

(** *** [fetchGame] (lines 56 to 66) *)
Definition fetchGame (c : Session) : Prog unit :=
  finally
    (try_catch
       (r <- await (SelectGame (route_id c)) ;;
        match reply_error r with
        | Some e => Throw e
        | None => set (setGame (data r))
        end)
       (fun _ => console_error "Error fetching game:"))
    (set (setLoading false)).

(** *** [fetchUserBalance] (lines 68 to 72) *)
Definition fetchUserBalance (c : Session) : Prog unit :=
  match user c with
  | None => Ret tt
  | Some u =>
      r <- await (SelectBalance (user_id u)) ;;
      match reply_error r, data r with
      | None, Some row =>
          match balance row with
          | undefined => Ret tt
          | null => set (setUserBalance 0%float)
          | val x => set (setUserBalance (Number x))
          end
      | _, _ => Ret tt
      end
  end.

(** *** [fetchMatchBets] (lines 74 to 110) *)
Definition fetchMatchBets (c : Session) : Prog unit :=
  match route_id c with
  | None => Ret tt
  | Some id =>
      if negb (truthy_string id) then Ret tt
      else
        finally
          (try_catch
             (set (setBetsLoading true) ;;
              winBets <- await (SelectWinBets id) ;;
              scoreBets <- await (SelectScoreBets id) ;;
              let allBets := assemble (data winBets) (data scoreBets) in
              set (setMatchBets allBets) ;;
              let v := aggregate allBets (side_a (game c)) (side_b (game c)) in
              set (setTotalVolume (total v)) ;;
              set (setTeamAVolume (side_a_volume v)) ;;
              set (setTeamBVolume (side_b_volume v)))
             (fun _ => console_error "Error fetching bets:"))
          (set (setBetsLoading false))
  end.

(** *** [placeBet] (lines 112 to 172) *)

(** Lines 162 to 165, reached from both branches once the insert has
    resolved. *)
Definition refresh_and_clear (c : Session) : Prog unit :=
  fetchMatchBets c ;;
  fetchUserBalance c ;;
  set (setBetAmount "") ;;
  set (setPrediction "").

Definition placeBet (c : Session) : Prog unit :=
  match user c, game c with
  | Some u, Some g =>
      finally
        (try_catch
           (set (setError "") ;;
            set (setSubmitting true) ;;
            if negb (String.eqb (game_status g) "live") then
              set (setError "This game is not live.")
            else
              let amount := parseFloat (betAmount c) in
              if PrimFloat.is_nan amount || (amount <=? 0)%float then
                set (setError "Enter a valid amount")
              else if (userBalance c <? amount)%float then
                set (setError "Insufficient balance")
              else if String.eqb (game_type g) "win" then
                if negb (truthy_string (prediction c)) then
                  set (setError "Select a team")
                else
                  await (InsertWin {|
                    wi_user_id := user_id u;
                    wi_game_id := game_id g;
                    wi_team := prediction c;
                    wi_predicted_percentage := 50%float;
                    wi_bet_amount := amount |}) ;;
                  refresh_and_clear c
              else
                let predictedScore := parseInt (prediction c) in
                if PrimFloat.is_nan predictedScore then
                  set (setError "Select a valid score range")
                else
                  await (InsertScore {|
                    si_user_id := user_id u;
                    si_game_id := game_id g;
                    si_team := game_team g;
                    si_predicted_score := predictedScore;
                    si_bet_amount := amount |}) ;;
                  refresh_and_clear c)
           (fun _ =>
              console_error "Error placing bet:" ;;
              set (setError "Failed to place bet.")))
        (set (setSubmitting false))
  | _, _ => Ret tt
  end.

End Handlers.

(** ** Running a program *)

(** The component state, the store, the console and the requests sent so
    far. *)
Record World : Type := {
  session : Session;
  store : Store;
  console : list string;
  requests : list Req
}.

(** A setter is called. *)
Definition update (a : Setter) (w : World) : World :=
  {| session := apply_setter a (session w); store := store w;
     console := console w; requests := requests w |}.

(** A line goes to the console. *)
Definition log (m : string) (w : World) : World :=
  {| session := session w; store := store w;
     console := console w ++ [m]; requests := requests w |}.

(** The request leaves the page. *)
Definition send (q : Req) (w : World) : World :=
  {| session := session w; store := store w;
     console := console w; requests := requests w ++ [q] |}.

(** The store answers. *)
Definition deliver (q : Req) (o : Outcome (Resp q)) (w : World) : World :=
  {| session := session w; store := commit q o (store w);
     console := console w; requests := requests w |}.

(** How a run of the synchronous part of a program ends. *)
Inductive Status : Type :=
| Finished
| Uncaught (e : string)
| Waiting (q : Req) (k : Outcome (Resp q) -> Prog unit).

(** Run up to the next [await]. *)
Fixpoint advance (p : Prog unit) (w : World) : World * Status :=
  match p with
  | Ret _ => (w, Finished)
  | Throw e => (w, Uncaught e)
  | Set_ a k => advance k (update a w)
  | Log m k => advance k (log m w)
  | Await q k => (send q w, Waiting q k)
  end.

(** A store that answers each request at once: how it answers is the
    gateway's choice.  ([placeBet] sends no request twice, so an answer
    per request covers every behaviour of the store during one call.) *)
Definition Gateway : Type := forall q : Req, Outcome (Resp q).

(** How a program ends: with a value, or with an exception nobody caught. *)
Inductive Result (A : Type) : Type :=
| Returned (a : A)
| Thrown (e : string).
Arguments Returned {A} a.
Arguments Thrown {A} e.

(** Run to completion against a gateway, with nothing else interleaved. *)
Fixpoint run {A} (gw : Gateway) (p : Prog A) (w : World) : World * Result A :=
  match p with
  | Ret a => (w, Returned a)
  | Throw e => (w, Thrown e)
  | Set_ a k => run gw k (update a w)
  | Log m k => run gw k (log m w)
  | Await q k => run gw (k (gw q)) (deliver q (gw q) (send q w))
  end.

(** The handler as the form calls it: its closure is the current state. *)
Definition submit {B : Builtins} (gw : Gateway) (w : World) : World :=
  fst (run gw (placeBet (session w)) w).

(** ** The page: handlers in flight and the events that reach them

    A handler that awaits is suspended with its pending request; other
    events run before the store answers.  [step] gives what each event does:
    what the component renders decides which controls exist (lines 174 to
    187: nothing but a spinner while [loading], nothing but a notice while
    there is no game) and whether the submit button is enabled (line 296). *)

(** The four asynchronous functions of the component. *)
Inductive Handler : Type :=
| H_fetchGame
| H_fetchUserBalance
| H_fetchMatchBets
| H_placeBet.

Definition is_placeBet (h : Handler) : bool :=
  match h with H_placeBet => true | _ => false end.

(** A suspended call: the request it awaits and what it does with the
    answer. *)
Record Task : Type := {
  handler : Handler;
  pending : Req;
  resume : Outcome (Resp pending) -> Prog unit
}.

(** The world and the calls in flight. *)
Record Page : Type := {
  world : World;
  tasks : list Task
}.

(** What can happen to the page: the effect of lines 50 to 54 fires for a
    render with this route parameter and user; the amount input, the team
    select or a bracket button changes the draft (lines 284, 266, 243); the
    form is submitted through its submit button (lines 260 and 294 to 300);
    the store answers the call in flight at position [i]. *)
Inductive Event : Type :=
| Effect (rid : option string) (u : option User)
| ChangeAmount (v : string)
| SelectTeam (v : string)
| ClickRange (idx : nat)
| SubmitForm
| Answer (i : nat) (gw : Gateway).

(** Call a handler: it runs to its first [await]. *)
Definition start (h : Handler) (p : Prog unit) (pg : Page) : Page :=
  match advance p (world pg) with
  | (w, Waiting q k) =>
      {| world := w; tasks := tasks pg ++ [{| handler := h; pending := q; resume := k |}] |}
  | (w, _) => {| world := w; tasks := tasks pg |}
  end.

(** An event handler that only calls a setter. *)
Definition set_state (a : Setter) (pg : Page) : Page :=
  {| world := update a (world pg); tasks := tasks pg |}.

(** A render with a new route parameter or user. *)
Definition in_context (rid : option string) (u : option User) (s : Session) : Session :=
  {| route_id := rid; user := u; game := game s; matchBets := matchBets s;
     loading := loading s; betsLoading := betsLoading s; betAmount := betAmount s;
     prediction := prediction s; error := error s; submitting := submitting s;
     userBalance := userBalance s; totalVolume := totalVolume s;
     teamAVolume := teamAVolume s; teamBVolume := teamBVolume s |}.

Definition with_context (rid : option string) (u : option User) (pg : Page) : Page :=
  let w := world pg in
  {| world := {| session := in_context rid u (session w); store := store w;
                 console := console w; requests := requests w |};
     tasks := tasks pg |}.

(** The game whose form is on the page, if the form is rendered. *)
Definition form_shown (s : Session) : option Game :=
  if loading s then None else game s.

(** [disabled={submitting}] *)
Definition submit_disabled (s : Session) : bool := submitting s.

(** [(idx + 1).toString()] *)
Definition range_value (idx : nat) : string :=
  DecimalString.NilEmpty.string_of_uint (Nat.to_uint (idx + 1)).

(** [if (id)] *)
Definition truthy_id (rid : option string) : bool :=
  match rid with Some i => truthy_string i | None => false end.

(** The list without its element at position [i]. *)
Fixpoint remove_nth {A} (i : nat) (l : list A) : list A :=
  match i, l with
  | _, [] => []
  | O, _ :: l' => l'
  | S i', x :: l' => x :: remove_nth i' l'
  end.

Section Events.
Context {B : Builtins}.

(** The effect of lines 50 to 54: the three loaders are called one after the
    other without being awaited, each with the closure of this render. *)
Definition run_effect (pg : Page) : Page :=
  let c := session (world pg) in
  let pg1 := if truthy_id (route_id c) then start H_fetchGame (fetchGame c) pg else pg in
  let pg2 := match user c with
             | Some _ => start H_fetchUserBalance (fetchUserBalance c) pg1
             | None => pg1
             end in
  if truthy_id (route_id c) then start H_fetchMatchBets (fetchMatchBets c) pg2 else pg2.

(** One event.  A control that is not rendered receives none, and a
    disabled submit button submits nothing.  The browser's own validation
    of the amount input ([min="1"]) is left out: every draft may reach the
    handler. *)
Definition step (ev : Event) (pg : Page) : Page :=
  let s := session (world pg) in
  match ev with
  | Effect rid u => run_effect (with_context rid u pg)
  | ChangeAmount v =>
      match form_shown s with
      | Some _ => set_state (setBetAmount v) pg
      | None => pg
      end
  | SelectTeam v =>
      match form_shown s with
      | Some g => if String.eqb (game_type g) "win" then set_state (setPrediction v) pg else pg
      | None => pg
      end
  | ClickRange idx =>
      match form_shown s with
      | Some g =>
          if String.eqb (game_type g) "win" then pg
          else if (idx <? List.length scoreRanges)%nat
               then set_state (setPrediction (range_value idx)) pg
               else pg
      | None => pg
      end
  | SubmitForm =>
      match form_shown s with
      | Some _ => if submit_disabled s then pg else start H_placeBet (placeBet s) pg
      | None => pg
      end
  | Answer i gw =>
      match nth_error (tasks pg) i with
      | Some t =>
          let o := gw (pending t) in
          start (handler t) (resume t o)
            {| world := deliver (pending t) o (world pg);
               tasks := remove_nth i (tasks pg) |}
      | None => pg
      end
  end.

(** A sequence of events, first to last. *)
Definition exec (evs : list Event) (pg : Page) : Page :=
  fold_left (fun pg ev => step ev pg) evs pg.

End Events.

(** The page at mount. *)
Definition fresh (rid : option string) (u : option User) (db : Store) : Page :=
  {| world := {| session := initial rid u; store := db; console := []; requests := [] |};
     tasks := [] |}.

(** The number of [placeBet] calls that are suspended. *)
Definition in_flight (pg : Page) : nat :=
  List.length (filter (fun t => is_placeBet (handler t)) (tasks pg)).

(** ** Arrays by reference

    [filter] builds a new array, [reduce] only reads, [sort] rewrites its
    receiver.  A heap of arrays tells these apart. *)
Section Arrays.
Context {A : Type}.

(** The arrays allocated so far; a reference is a position. *)
Definition Heap : Type := list (list A).

Definition read (h : Heap) (r : nat) : list A := nth r h [].

Definition alloc (l : list A) (h : Heap) : nat * Heap := (List.length h, h ++ [l]).

Fixpoint write (r : nat) (l : list A) (h : Heap) : Heap :=
  match r, h with
  | _, [] => []
  | O, _ :: h' => l :: h'
  | S r', x :: h' => x :: write r' l h'
  end.

Definition array_filter (p : A -> bool) (r : nat) (h : Heap) : nat * Heap :=
  alloc (filter p (read h r)) h.

Definition array_reduce {R} (f : R -> A -> R) (init : R) (r : nat) (h : Heap) : R :=
  fold_left f (read h r) init.

Definition array_sort (cmp : A -> A -> option Z) (r : nat) (h : Heap) : nat * Heap :=
  (r, write r (JS.sort cmp (read h r)) h).

End Arrays.

(** Lines 99 to 101 on the heap: [allBets] is a reference. *)
Definition volume_cards (allBets : nat) (a b : Nullable string)
    (h : @Heap MatchBet) : Volumes * Heap :=
  let add := fun sum x => (sum + amount_of x)%float in
  let total := array_reduce add 0%float allBets h in
  let (ra, h1) := array_filter (on_side a) allBets h in
  let teamA := array_reduce add 0%float ra h1 in
  let (rb, h2) := array_filter (on_side b) allBets h1 in
  let teamB := array_reduce add 0%float rb h2 in
  ({| total := total; side_a_volume := teamA; side_b_volume := teamB |}, h2).

(** Lines 91 to 101 on the heap: the array literal is a new array, [sort]
    rewrites it in place and returns it, and [allBets], the [matchBets]
    state and the volume cards all refer to that one array. *)
Definition assemble_and_aggregate {B : Builtins} (tagged : list MatchBet)
    (a b : Nullable string) (h : @Heap MatchBet) : nat * Volumes * Heap :=
  let (literal, h1) := alloc tagged h in
  let (allBets, h2) := array_sort by_created_desc literal h1 in
  let (v, h3) := volume_cards allBets a b h2 in
  (allBets, v, h3).

(** ** What a program may touch *)

(** Every setter the program can call satisfies [P]. *)
Fixpoint all_setters {A} (P : Setter -> Prop) (p : Prog A) : Prop :=
  match p with
  | Ret _ | Throw _ => True
  | Set_ a k => P a /\ all_setters P k
  | Log _ k => all_setters P k
  | Await _ k => forall o, all_setters P (k o)
  end.

(** Every request the program can send satisfies [P]. *)
Fixpoint all_requests {A} (P : Req -> Prop) (p : Prog A) : Prop :=
  match p with
  | Ret _ | Throw _ => True
  | Set_ _ k => all_requests P k
  | Log _ k => all_requests P k
  | Await q k => P q /\ forall o, all_requests P (k o)
  end.

(** The program never awaits. *)
Fixpoint synchronous {A} (p : Prog A) : Prop :=
  match p with
  | Ret _ | Throw _ => True
  | Set_ _ k => synchronous k
  | Log _ k => synchronous k
  | Await _ _ => False
  end.

(** Footprints: the requests that write, and the setters of the flag, the
    message and the draft. *)
Definition is_insert (q : Req) : bool :=
  match q with InsertWin _ | InsertScore _ => true | _ => false end.

Definition sets_submitting (a : Setter) : bool :=
  match a with setSubmitting _ => true | _ => false end.

Definition sets_error (a : Setter) : bool :=
  match a with setError _ => true | _ => false end.

Definition sets_draft (a : Setter) : bool :=
  match a with setBetAmount _ | setPrediction _ => true | _ => false end.

(** ** Notions the properties are stated with *)

Section Draft.
Context {B : Builtins}.

(** The amount that [placeBet] reads from the draft. *)
Definition draft_amount (s : Session) : number := parseFloat (betAmount s).

(** The test of line 126. *)
Definition invalid_amount (x : number) : bool :=
  PrimFloat.is_nan x || (x <=? 0)%float.

(** The draft has passed the first three checks. *)
Definition funded (s : Session) (g : Game) : Prop :=
  game_status g = "live" /\
  invalid_amount (draft_amount s) = false /\
  (userBalance s <? draft_amount s)%float = false.

(** The row a win-type draft becomes (lines 140 to 146). *)
Definition win_row (u : User) (g : Game) (s : Session) : WinInsert :=
  {| wi_user_id := user_id u;
     wi_game_id := game_id g;
     wi_team := prediction s;
     wi_predicted_percentage := 50%float;
     wi_bet_amount := draft_amount s |}.

(** The row a score-type draft becomes (lines 153 to 159). *)
Definition score_row (u : User) (g : Game) (s : Session) : ScoreInsert :=
  {| si_user_id := user_id u;
     si_game_id := game_id g;
     si_team := game_team g;
     si_predicted_score := parseInt (prediction s);
     si_bet_amount := draft_amount s |}.

(** The world in which the insert is answered: the message cleared, the
    flag raised, the request sent. *)
Definition asked (q : Req) (o : Outcome (Resp q)) (w : World) : World :=
  deliver q o (send q (update (setSubmitting true) (update (setError "") w))).

(** What the handler leaves when it throws after [w1]. *)
Definition gave_up (w1 : World) : World :=
  update (setSubmitting false)
    (update (setError "Failed to place bet.") (log "Error placing bet:" w1)).

(** The insert and what follows it, inside the handler's [try]. *)
Definition placed (gw : Gateway) (q : Req) (c : Session) (w : World) : World :=
  match gw q with
  | Rejected _ => gave_up (asked q (gw q) w)
  | Fulfilled _ =>
      match run gw (refresh_and_clear c) (asked q (gw q) w) with
      | (w1, Returned _) => update (setSubmitting false) w1
      | (w1, Thrown _) => gave_up w1
      end
  end.

(** [a] was created strictly after [b]. *)
Definition newer (a b : MatchBet) : Prop :=
  match created_time a, created_time b with
  | Some ta, Some tb => tb < ta
  | _, _ => False
  end.

(** Every bet of the list has a time value. *)
Definition dated (l : list MatchBet) : Prop :=
  Forall (fun b => created_time b <> None) l.

(** [a] was created no earlier than [b], to the millisecond. *)
Definition not_older (a b : MatchBet) : Prop :=
  match created_time a, created_time b with
  | Some ta, Some tb => tb <= ta
  | _, _ => False
  end.

(** The bets of a list whose time value is [t], in the order of the list. *)
Definition created_at_time (t : Z) (l : list MatchBet) : list MatchBet :=
  filter (fun b => match created_time b with Some tb => tb =? t | None => false end) l.

End Draft.

(** The bets tagged ['win'], and those tagged ['score']. *)
Definition is_win (b : MatchBet) : bool :=
  match type b with win => true | score => false end.
Definition is_score (b : MatchBet) : bool :=
  match type b with win => false | score => true end.

(** The row of [win_game_bets] a bet of the list shows: its eight columns
    read back from the bet. *)
Definition untag_win (b : MatchBet) : WinBetRow :=
  {| wb_id := id b; wb_user_id := bet_user_id b; wb_bet_amount := bet_amount b;
     wb_status := status b; wb_created_at := created_at b; wb_team := team b;
     wb_predicted_percentage := predicted_percentage b; wb_user_name := user_name b |}.

(** The row of [score_prediction_bets] a bet of the list shows. *)
Definition untag_score (b : MatchBet) : ScoreBetRow :=
  {| sb_id := id b; sb_user_id := bet_user_id b; sb_bet_amount := bet_amount b;
     sb_status := status b; sb_created_at := created_at b; sb_team := team b;
     sb_predicted_score := predicted_score b; sb_user_name := user_name b |}.

(** A setter that is none of [setError], [setBetAmount], [setPrediction],
    [setSubmitting]. *)
Definition quiet (a : Setter) : Prop :=
  sets_error a = false /\ sets_draft a = false /\ sets_submitting a = false.

(** A request that writes nothing. *)
Definition no_insert (q : Req) : Prop := is_insert q = false.

(** With the flag at [b] when the program starts, and nobody else setting
    it, [submitting] is true whenever the program waits for the store. *)
Fixpoint flag_up {A} (b : bool) (p : Prog A) : Prop :=
  match p with
  | Ret _ | Throw _ => True
  | Set_ (setSubmitting b') k => flag_up b' k
  | Set_ _ k => flag_up b k
  | Log _ k => flag_up b k
  | Await _ k => b = true /\ forall o, flag_up true (k o)
  end.

(** A setter other than [setSubmitting]. *)
Definition no_flag (a : Setter) : Prop := sets_submitting a = false.

(** The [placeBet] calls among the suspended ones. *)
Definition count_placeBet (ts : list Task) : nat :=
  List.length (filter (fun t => is_placeBet (handler t)) ts).

(** What the page knows of a suspended handler. *)
Definition task_ok (s : Session) (t : Task) : Prop :=
  if is_placeBet (handler t)
  then submitting s = true /\ forall o, flag_up true (resume t o)
  else forall o, all_setters no_flag (resume t o).

(** The invariant of the page: every suspended call is known as above, and
    at most one of them is a [placeBet]. *)
Definition page_ok (pg : Page) : Prop :=
  Forall (task_ok (session (world pg))) (tasks pg) /\ (in_flight pg <= 1)%nat.

(** A bet on neither side. *)
Definition neither (a b : Nullable string) (x : MatchBet) : bool :=
  negb (on_side a x) && negb (on_side b x).

(** Every amount of the list is a whole number of rupees, [units x], not
    negative. *)
Definition whole_amounts (units : MatchBet -> Z) (l : list MatchBet) : Prop :=
  Forall (fun x => 0 <= units x /\ amount_of x = of_Z (units x)) l.

(** The exact sum of the amounts of a list. *)
Definition sum_units (units : MatchBet -> Z) (l : list MatchBet) : Z :=
  fold_right (fun x s => units x + s) 0 l.

(** ** Scenarios *)

(** A signed-in user. *)
Definition punter : User := {| user_id := "u1" |}.

(** Game G1 of the spec's scenarios: a win-type game, Lions against Tigers. *)
Definition lions_tigers (st : string) : Game :=
  {| game_id := "G1"; game_type := "win"; game_status := st;
     game_teama := val "Lions"; game_teamb := val "Tigers"; game_team := null;
     game_date := "2024-05-01T14:00:00Z" |}.

(** A live score-type game. *)
Definition lions_innings : Game :=
  {| game_id := "G2"; game_type := "score"; game_status := "live";
     game_teama := null; game_teamb := null; game_team := val "Lions";
     game_date := "2024-05-01T14:00:00Z" |}.

(** No wagers yet. *)
Definition empty_store : Store :=
  {| win_game_bets := []; score_prediction_bets := [] |}.

(** The page with its form shown and a draft typed in. *)
Definition at_form (u : option User) (g : option Game) (bal : number)
    (amount pred : string) : World :=
  {| session :=
       {| route_id := Some "G1"; user := u; game := g; matchBets := [];
          loading := false; betsLoading := false; betAmount := amount;
          prediction := pred; error := ""; submitting := false;
          userBalance := bal; totalVolume := 0%float; teamAVolume := 0%float;
          teamBVolume := 0%float |};
     store := empty_store; console := []; requests := [] |}.

(** A store that does what it is asked. *)
Definition accepting : Gateway :=
  fun q =>
    match q return Outcome (Resp q) with
    | SelectGame _ => Fulfilled (ok (lions_tigers "live"))
    | SelectBalance _ => Fulfilled (ok {| balance := val 70%float |})
    | SelectWinBets _ => Fulfilled (ok [])
    | SelectScoreBets _ => Fulfilled (ok [])
    | InsertWin _ => Fulfilled (ok tt)
    | InsertScore _ => Fulfilled (ok tt)
    end.

(** A store that refuses every insert and says so in its reply. *)
Definition denying : Gateway :=
  fun q =>
    match q return Outcome (Resp q) with
    | InsertWin _ => Fulfilled (failed "new row violates row-level security policy")
    | InsertScore _ => Fulfilled (failed "new row violates row-level security policy")
    | q' => accepting q'
    end.

(** A store that cannot be reached when an insert is sent. *)
Definition unreachable : Gateway :=
  fun q =>
    match q return Outcome (Resp q) with
    | InsertWin _ => Rejected "Failed to fetch"
    | InsertScore _ => Rejected "Failed to fetch"
    | q' => accepting q'
    end.

(** A win-type bet on [t] of [amount], for the scenarios. *)
Definition bet_on (t : Nullable string) (amount : Nullable number) : MatchBet :=
  tag_win {| wb_id := "b"; wb_user_id := "u1"; wb_bet_amount := amount;
             wb_status := "pending"; wb_created_at := "2024-05-01T12:00:00Z";
             wb_team := t; wb_predicted_percentage := val 50%float;
             wb_user_name := "Asha" |}.

(** A win row created at [t]. *)
Definition win_row_at (i t : string) : WinBetRow :=
  {| wb_id := i; wb_user_id := "u1"; wb_bet_amount := val 30%float;
     wb_status := "pending"; wb_created_at := t; wb_team := val "Lions";
     wb_predicted_percentage := val 50%float; wb_user_name := "Asha" |}.

(** A score row created at [t]. *)
Definition score_row_at (i t : string) : ScoreBetRow :=
  {| sb_id := i; sb_user_id := "u2"; sb_bet_amount := val 20%float;
     sb_status := "pending"; sb_created_at := t; sb_team := val "Lions";
     sb_predicted_score := val 4%float; sb_user_name := "Ravi" |}.

(** ** What the page renders *)

(** Lines 174 to 189: a spinner while [loading], a notice while there is no
    game, the page otherwise. *)
Inductive View : Type :=
| Spinner
| GameNotFound
| GamePage (g : Game).

Definition render (s : Session) : View :=
  if loading s then Spinner
  else match game s with
       | None => GameNotFound
       | Some g => GamePage g
       end.



(** [x || d] for a number that may be missing. *)
Definition or_number (x : Nullable number) (d : number) : number :=
  match x with
  | val a => if truthy_number a then a else d
  | _ => d
  end.

(** [arr[x]] for a number [x]: the element at position [k] when [x] is the
    whole number [k] and [k] is below the length, [undefined] otherwise. *)
Definition array_get {A} (arr : list A) (x : number) : Nullable A :=
  match find (fun k => (x =? of_Z (Z.of_nat k))%float) (seq 0 (List.length arr)) with
  | Some k => match nth_error arr k with Some a => val a | None => undefined end
  | None => undefined
  end.

(** [scoreRanges[(bet.predicted_score || 1) - 1]] (line 337). *)
Definition bracket_label (b : MatchBet) : Nullable string :=
  array_get scoreRanges (or_number (predicted_score b) 1 - 1)%float.

(** A value inside a template literal. *)
Definition template (x : Nullable string) : string :=
  match x with
  | undefined => "undefined"
  | null => "null"
  | val s => s
  end.

(** The line that describes a bet (lines 335 to 337). *)
Definition prediction_text (b : MatchBet) : string :=
  match type b with
  | win => "Predicted Winner: " ++ template (team b)
  | score => "Predicted Score: " ++ template (bracket_label b)
  end.

(** ** Notions for the further properties *)

(** With the flag at [b] when the program starts, and nobody else setting
    it, [submitting] is false whenever the program ends. *)
Fixpoint flag_down {A} (b : bool) (p : Prog A) : Prop :=
  match p with
  | Ret _ | Throw _ => b = false
  | Set_ (setSubmitting b') k => flag_down b' k
  | Set_ _ k => flag_down b k
  | Log _ k => flag_down b k
  | Await _ k => forall o, flag_down b (k o)
  end.

(** What the page knows of a suspended [placeBet], for the way it ends. *)
Definition task_settles (s : Session) (t : Task) : Prop :=
  if is_placeBet (handler t)
  then forall o, flag_down (submitting s) (resume t o)
  else True.

(** A second invariant of the page: the flag is down unless a [placeBet] is
    suspended, and every suspended [placeBet] lowers it when it ends. *)
Definition page_settles (pg : Page) : Prop :=
  Forall (task_settles (session (world pg))) (tasks pg) /\
  (in_flight pg = O -> submitting (session (world pg)) = false).

(** The same world with another message on display. *)
Definition with_error (e : string) (w : World) : World := update (setError e) w.

(** The draft passes the selection check of its game's type (lines 136 and
    149). *)
Definition selected {B : Builtins} (s : Session) (g : Game) : Prop :=
  if String.eqb (game_type g) "win"
  then truthy_string (prediction s) = true
  else PrimFloat.is_nan (parseInt (prediction s)) = false.

(** The insert a draft that passed every check becomes. *)
Definition draft_row {B : Builtins} (u : User) (g : Game) (s : Session) : Req :=
  if String.eqb (game_type g) "win"
  then InsertWin (win_row u g s)
  else InsertScore (score_row u g s).

(** An answer whose bet rows all carry a team, a string or [null]. *)
Definition teams_given (q : Req) : Outcome (Resp q) -> Prop :=
  match q return Outcome (Resp q) -> Prop with
  | SelectWinBets _ => fun o =>
      match o with
      | Fulfilled r => Forall (fun x => wb_team x <> undefined) (or_empty (data r))
      | Rejected _ => True
      end
  | SelectScoreBets _ => fun o =>
      match o with
      | Fulfilled r => Forall (fun x => sb_team x <> undefined) (or_empty (data r))
      | Rejected _ => True
      end
  | _ => fun _ => True
  end.

(** Every setter the program can call satisfies [P], as long as the
    answers it gets carry teams. *)
Fixpoint setters_when {A} (P : Setter -> Prop) (p : Prog A) : Prop :=
  match p with
  | Ret _ | Throw _ => True
  | Set_ a k => P a /\ setters_when P k
  | Log _ k => setters_when P k
  | Await q k => forall o, teams_given q o -> setters_when P (k o)
  end.

(** A setter that leaves the side volumes alone or sets them to zero. *)
Definition side_zero (a : Setter) : Prop :=
  match a with
  | setTeamAVolume x | setTeamBVolume x => x = 0%float
  | _ => True
  end.

(** Both side volumes are zero. *)
Definition sides_zero (s : Session) : Prop :=
  teamAVolume s = 0%float /\ teamBVolume s = 0%float.

(** The page shows zero side volumes and no suspended call will change
    that. *)
Definition page_sides_zero (pg : Page) : Prop :=
  sides_zero (session (world pg)) /\
  Forall (fun t => forall o, teams_given (pending t) o ->
                             setters_when side_zero (resume t o)) (tasks pg).

(** An event that calls no handler anew, with answers that carry teams. *)
Definition calm (ev : Event) : Prop :=
  match ev with
  | Effect _ _ | SubmitForm => False
  | Answer _ gw => forall q, teams_given q (gw q)
  | _ => True
  end.

(** With the list at [l] and the total at [x] when the program starts, the
    total is the sum over the list whenever the program waits or ends,
    provided it is so again when the program is resumed. *)
Fixpoint keeps_total {B : Builtins} {A} (l : list MatchBet) (x : number) (p : Prog A) : Prop :=
  match p with
  | Ret _ | Throw _ => x = reduce_amounts l
  | Set_ (setMatchBets l') k => keeps_total l' x k
  | Set_ (setTotalVolume x') k => keeps_total l x' k
  | Set_ _ k => keeps_total l x k
  | Log _ k => keeps_total l x k
  | Await _ k =>
      x = reduce_amounts l /\
      forall o l' x', x' = reduce_amounts l' -> keeps_total l' x' (k o)
  end.

(** The total card agrees with the list, now and after every suspended
    call. *)
Definition page_total {B : Builtins} (pg : Page) : Prop :=
  totalVolume (session (world pg)) = reduce_amounts (matchBets (session (world pg))) /\
  Forall (fun t => forall o l x, x = reduce_amounts l -> keeps_total l x (resume t o))
         (tasks pg).

(** The world after a [fetchMatchBets] both of whose requests were
    fulfilled. *)
Definition bets_loaded {B : Builtins} (c : Session) (i : string)
    (rw : Reply (list WinBetRow)) (rs : Reply (list ScoreBetRow)) (w : World) : World :=
  let allBets := assemble (data rw) (data rs) in
  let v := aggregate allBets (side_a (game c)) (side_b (game c)) in
  let w1 := send (SelectWinBets i) (update (setBetsLoading true) w) in
  let w2 := send (SelectScoreBets i) (deliver (SelectWinBets i) (Fulfilled rw) w1) in
  let w3 := deliver (SelectScoreBets i) (Fulfilled rs) w2 in
  update (setBetsLoading false)
    (update (setTeamBVolume (side_b_volume v))
       (update (setTeamAVolume (side_a_volume v))
          (update (setTotalVolume (total v))
             (update (setMatchBets allBets) w3)))).

(** The world after a [fetchUserBalance] that was answered with the
    balance [x]. *)
Definition balance_loaded (u : User) (rb : Reply BalanceRow) (x : number) (w : World) : World :=
  update (setUserBalance x)
    (deliver (SelectBalance (user_id u)) (Fulfilled rb)
       (send (SelectBalance (user_id u)) w)).

(** ** Further scenarios *)

(** A store with one win bet and one score bet on the game, both on
    Lions. *)
Definition busy : Gateway :=
  fun q =>
    match q return Outcome (Resp q) with
    | SelectWinBets _ => Fulfilled (ok [win_row_at "w1" "2024-05-01T12:00:00Z"])
    | SelectScoreBets _ => Fulfilled (ok [score_row_at "s1" "2024-05-01T12:05:00Z"])
    | q' => accepting q'
    end.


(** A store that cannot be reached when the balance is asked for. *)
Definition balance_down : Gateway :=
  fun q =>
    match q return Outcome (Resp q) with
    | SelectBalance _ => Rejected "Failed to fetch"
    | q' => accepting q'
    end.

(** A visit: the page mounts and loads, a bet of 30 on Lions is typed in
    and submitted, and the store answers every request. *)
Definition a_visit (gw : Gateway) : list Event :=
  [Effect (Some "G1") (Some punter);
   Answer 0 gw; Answer 0 gw; Answer 0 gw; Answer 0 gw;
   ChangeAmount "30"; SelectTeam "Lions"; SubmitForm;
   Answer 0 gw; Answer 0 gw; Answer 0 gw; Answer 0 gw].

(** Walks a handler's program, one case for each branch and each answer. *)
Ltac walk_total :=
  repeat first
    [ progress intros
    | split
    | assumption
    | reflexivity
    | progress cbn [keeps_total finally try_catch bind set await console_error negb]
    | match goal with
      | |- context [match ?x with _ => _ end] => destruct x
      end ].

(** ** Tactics *)

Ltac enter_placeBet :=
  unfold submit, placeBet, draft_amount, invalid_amount in *.

Ltac footprint :=
  repeat first
    [ progress (simpl; intros)
    | split
    | reflexivity
    | match goal with
      | |- context [match ?x with _ => _ end] => destruct x
      end ].

(** * Properties *)

(** ** Running composed programs *)

Lemma run_bind {A B} (gw : Gateway) (p : Prog A) (f : A -> Prog B) (w : World) :
  run gw (bind p f) w =
  match run gw p w with
  | (w1, Returned a) => run gw (f a) w1
  | (w1, Thrown e) => (w1, Thrown e)
  end.
Proof.
  revert w; induction p as [a|e|a k IH|m k IH|q k IH]; intros w; simpl; auto.
Qed.

Section RunLaws.
Context {A : Type} (gw : Gateway).

Lemma run_try_catch (p : Prog A) (h : string -> Prog A) (w : World) :
  run gw (try_catch p h) w =
  match run gw p w with
  | (w1, Returned a) => (w1, Returned a)
  | (w1, Thrown e) => run gw (h e) w1
  end.
Proof.
  revert w; induction p as [a|e|a k IH|m k IH|q k IH]; intros w; simpl; auto.
Qed.

Lemma run_finally (p : Prog A) (f : Prog unit) (w : World) :
  run gw (finally p f) w =
  match run gw p w with
  | (w1, r) =>
      match run gw f w1 with
      | (w2, Returned _) => (w2, r)
      | (w2, Thrown e) => (w2, Thrown e)
      end
  end.
Proof.
  revert w; induction p as [a|e|a k IH|m k IH|q k IH]; intros w.
  - change (finally (Ret a) f) with (bind f (fun _ => Ret a)).
    rewrite run_bind. simpl. destruct (run gw f w) as [w2 [[]|e]]; reflexivity.
  - change (finally (Throw e) f) with (bind f (fun _ => @Throw A e)).
    rewrite run_bind. simpl. destruct (run gw f w) as [w2 [[]|e']]; reflexivity.
  - simpl. apply IH.
  - simpl. apply IH.
  - simpl. apply IH.
Qed.

End RunLaws.

(** Running to completion is running to the next [await], handing the
    request to the store and going on with its answer. *)
Lemma run_advance (gw : Gateway) (p : Prog unit) (w : World) :
  run gw p w =
  match advance p w with
  | (w1, Finished) => (w1, Returned tt)
  | (w1, Uncaught e) => (w1, Thrown e)
  | (w1, Waiting q k) => run gw (k (gw q)) (deliver q (gw q) w1)
  end.
Proof.
  revert w; induction p as [[]|e|a k IH|m k IH|q k IH]; intros w; simpl; auto.
Qed.

Lemma all_setters_impl {A} (P Q : Setter -> Prop) (p : Prog A) :
  (forall a, P a -> Q a) -> all_setters P p -> all_setters Q p.
Proof.
  intros HPQ; induction p as [a|e|a k IH|m k IH|q k IH]; simpl; auto.
  intros [Ha Hk]; auto.
Qed.

Lemma all_setters_bind {A B} (P : Setter -> Prop) (p : Prog A) (f : A -> Prog B) :
  all_setters P p -> (forall a, all_setters P (f a)) -> all_setters P (bind p f).
Proof.
  intros Hp Hf; induction p as [a|e|a k IH|m k IH|q k IH]; simpl in *; auto.
  destruct Hp; auto.
Qed.

Lemma all_setters_try_catch {A} (P : Setter -> Prop) (p : Prog A) (h : string -> Prog A) :
  all_setters P p -> (forall e, all_setters P (h e)) -> all_setters P (try_catch p h).
Proof.
  intros Hp Hh; induction p as [a|e|a k IH|m k IH|q k IH]; simpl in *; auto.
  destruct Hp; auto.
Qed.

(** A field that no setter of the program changes keeps its value. *)
Lemma run_frame {A F} (f : Session -> F) (gw : Gateway) (p : Prog A) (w : World) :
  all_setters (fun a => forall s, f (apply_setter a s) = f s) p ->
  f (session (fst (run gw p w))) = f (session w).
Proof.
  revert w; induction p as [a|e|a k IH|m k IH|q k IH]; intros w Hp; simpl in *; auto.
  - destruct Hp as [Ha Hk]. rewrite IH by assumption. apply Ha.
  - rewrite IH by assumption. reflexivity.
  - rewrite IH by auto. reflexivity.
Qed.

(** A program that sends no insert leaves the store as it was. *)
Lemma run_store {A} (gw : Gateway) (p : Prog A) (w : World) :
  all_requests (fun q => is_insert q = false) p ->
  store (fst (run gw p w)) = store w.
Proof.
  revert w; induction p as [a|e|a k IH|m k IH|q k IH]; intros w Hp; simpl in *; auto.
  - rewrite IH by assumption. reflexivity.
  - rewrite IH by assumption. reflexivity.
  - destruct Hp as [Hq Hk]. rewrite IH by auto. simpl.
    destruct q; simpl in *; try reflexivity; discriminate.
Qed.

(** ** Wager intake: the checks of [placeBet] *)

Section Intake.
Context {B : Builtins}.

(** C10. With no authenticated user or no game loaded, a submit attempt
    does nothing at all: the world after the call is the world before it (no
    store write, no request, no error message, [submitting] and the draft
    untouched), and the handler does not even suspend. *)
Theorem placeBet_without_user_or_game (gw : Gateway) (w : World) :
  user (session w) = None \/ game (session w) = None ->
  submit gw w = w /\
  advance (placeBet (session w)) w = (w, Finished) /\
  forall pg, world pg = w -> step SubmitForm pg = pg.
Proof.
  intros H.
  assert (Hp : placeBet (session w) = Ret tt).
  { unfold placeBet. destruct H as [H|H]; rewrite H; [reflexivity|].
    destruct (user (session w)); reflexivity. }
  repeat split.
  - unfold submit. rewrite Hp. reflexivity.
  - rewrite Hp. reflexivity.
  - intros [w' ts] Hw; simpl in Hw; subst w'. unfold step; simpl.
    destruct (form_shown (session w)); [|reflexivity].
    destruct (submit_disabled (session w)); [reflexivity|].
    unfold start; simpl. rewrite Hp. reflexivity.
Qed.

(** C1. A game that is not live: whatever the draft and the balance, the
    submit writes nothing to the store and sends no request, leaves the
    draft as it is, and (the handler having a user to act for) ends with the
    message 'This game is not live.' and [submitting] back to false. *)
Theorem not_live_rejected (gw : Gateway) (w : World) (g : Game) :
  game (session w) = Some g ->
  game_status g <> "live" ->
  store (submit gw w) = store w /\
  requests (submit gw w) = requests w /\
  betAmount (session (submit gw w)) = betAmount (session w) /\
  prediction (session (submit gw w)) = prediction (session w) /\
  (forall u, user (session w) = Some u ->
     error (session (submit gw w)) = "This game is not live." /\
     submitting (session (submit gw w)) = false).
Proof.
  intros Hg Hs. apply String.eqb_neq in Hs.
  enter_placeBet. rewrite Hg.
  destruct (user (session w)) as [u|].
  - rewrite Hs. simpl. repeat split; intros; reflexivity.
  - simpl. repeat split; intros; discriminate.
Qed.

(** C2. An amount that does not parse ([NaN]) or is not above zero: the
    submit writes nothing to the store and sends no request, whatever the
    balance and the prediction, and keeps the draft; on a live game with a
    user, it ends with the message 'Enter a valid amount'. *)
Theorem invalid_amount_rejected (gw : Gateway) (w : World) :
  invalid_amount (draft_amount (session w)) = true ->
  store (submit gw w) = store w /\
  requests (submit gw w) = requests w /\
  betAmount (session (submit gw w)) = betAmount (session w) /\
  prediction (session (submit gw w)) = prediction (session w) /\
  (forall u g, user (session w) = Some u -> game (session w) = Some g ->
     game_status g = "live" ->
     error (session (submit gw w)) = "Enter a valid amount" /\
     submitting (session (submit gw w)) = false).
Proof.
  intros Ha. enter_placeBet.
  destruct (user (session w)) as [u|], (game (session w)) as [g|];
    try (simpl; repeat split; intros; discriminate).
  destruct (String.eqb (game_status g) "live") eqn:Hs.
  - rewrite Ha. simpl. repeat split; intros; reflexivity.
  - simpl. do 4 (split; [reflexivity|]).
    intros u' g' _ Hg' Hl. injection Hg' as <-.
    rewrite Hl in Hs. discriminate.
Qed.

End Intake.

(** ** Binary64 order facts *)

Lemma SFcompare_Eq_sym (x y : spec_float) :
  SFcompare x y = Some Eq -> SFcompare y x = Some Eq.
Proof.
  destruct x as [sx|sx| |sx mx ex], y as [sy|sy| |sy my ey]; simpl;
    try destruct sx; try destruct sy; simpl; try discriminate; auto.
  - destruct (Z.compare ex ey) eqn:He; try discriminate.
    apply Z.compare_eq in He; subst ey. intros H. injection H as H.
    rewrite Z.compare_refl.
    destruct (Pos.compare_cont Eq mx my) eqn:Hm; try discriminate.
    apply Pos.compare_eq in Hm; subst my.
    rewrite Pos.compare_cont_refl. reflexivity.
  - destruct (Z.compare ex ey) eqn:He; try discriminate.
    apply Z.compare_eq in He; subst ey. intros H. injection H as H.
    rewrite Z.compare_refl.
    destruct (Pos.compare_cont Eq mx my) eqn:Hm; try discriminate.
    apply Pos.compare_eq in Hm; subst my.
    rewrite Pos.compare_cont_refl. reflexivity.
Qed.

(** [x == y] excludes [y < x]. *)
Lemma eqb_not_ltb (x y : float) :
  (x =? y)%float = true -> (y <? x)%float = false.
Proof.
  rewrite eqb_spec, ltb_spec. unfold SFeqb, SFltb.
  destruct (SFcompare (Prim2SF x) (Prim2SF y)) as [[| |]|] eqn:H; try discriminate.
  intros _. rewrite (SFcompare_Eq_sym _ _ H). reflexivity.
Qed.

(** [0 <= y < x] excludes [x <= 0] and makes [x] a number. *)
Lemma above_nonneg_valid (x y : float) :
  (0 <=? y)%float = true -> (y <? x)%float = true ->
  PrimFloat.is_nan x = false /\ (x <=? 0)%float = false.
Proof.
  unfold PrimFloat.is_nan.
  rewrite !leb_spec, ltb_spec, eqb_spec. unfold SFleb, SFltb, SFeqb.
  change (Prim2SF 0) with (S754_zero false).
  destruct (Prim2SF x) as [sx|sx| |sx mx ex], (Prim2SF y) as [sy|sy| |sy my ey]; simpl;
    try destruct sx; try destruct sy; simpl; try discriminate; auto;
    try (rewrite Z.compare_refl, Pos.compare_cont_refl; auto).
Qed.

(** ** The loaders: what they touch and how they end *)

Section Loaders.
Context {B : Builtins}.

Lemma fetchGame_quiet (c : Session) :
  all_setters quiet (fetchGame c) /\ all_requests no_insert (fetchGame c).
Proof. unfold fetchGame, quiet, no_insert. footprint. Qed.

Lemma fetchUserBalance_quiet (c : Session) :
  all_setters quiet (fetchUserBalance c) /\ all_requests no_insert (fetchUserBalance c).
Proof. unfold fetchUserBalance, quiet, no_insert. footprint. Qed.

Lemma fetchMatchBets_quiet (c : Session) :
  all_setters quiet (fetchMatchBets c) /\ all_requests no_insert (fetchMatchBets c).
Proof. unfold fetchMatchBets, quiet, no_insert. footprint. Qed.

(** [fetchMatchBets] catches what it awaits: it never throws. *)
Lemma fetchMatchBets_returns (gw : Gateway) (c : Session) (w : World) :
  snd (run gw (fetchMatchBets c) w) = Returned tt.
Proof.
  unfold fetchMatchBets.
  destruct (route_id c) as [i|]; [|reflexivity].
  destruct (negb (truthy_string i)); [reflexivity|].
  rewrite run_finally, run_try_catch.
  match goal with |- context [run gw ?p w] => destruct (run gw p w) as [w1 [[]|e]] end;
    reflexivity.
Qed.

End Loaders.

Lemma quiet_keeps (a : Setter) (s : Session) :
  quiet a ->
  error (apply_setter a s) = error s /\
  betAmount (apply_setter a s) = betAmount s /\
  prediction (apply_setter a s) = prediction s /\
  submitting (apply_setter a s) = submitting s.
Proof.
  intros (He & Hd & Hs). destruct a; simpl in *; try discriminate; auto.
Qed.

(** A program of quiet setters that sends no insert leaves the message, the
    draft, the flag and the store as they were. *)
Lemma run_quiet {A} (gw : Gateway) (p : Prog A) (w : World) :
  all_setters quiet p -> all_requests no_insert p ->
  error (session (fst (run gw p w))) = error (session w) /\
  betAmount (session (fst (run gw p w))) = betAmount (session w) /\
  prediction (session (fst (run gw p w))) = prediction (session w) /\
  submitting (session (fst (run gw p w))) = submitting (session w) /\
  store (fst (run gw p w)) = store w.
Proof.
  intros Hq Hr. repeat split.
  - apply run_frame. revert Hq. apply all_setters_impl. intros a H s. apply quiet_keeps, H.
  - apply run_frame. revert Hq. apply all_setters_impl. intros a H s. apply quiet_keeps, H.
  - apply run_frame. revert Hq. apply all_setters_impl. intros a H s. apply quiet_keeps, H.
  - apply run_frame. revert Hq. apply all_setters_impl. intros a H s. apply quiet_keeps, H.
  - apply run_store, Hr.
Qed.

Section Refresh.
Context {B : Builtins}.

(** [fetchUserBalance] throws only when the promise it awaits is rejected. *)
Lemma fetchUserBalance_throws (gw : Gateway) (c : Session) (w : World) (e : string) :
  snd (run gw (fetchUserBalance c) w) = Thrown e ->
  exists u, user c = Some u /\ gw (SelectBalance (user_id u)) = Rejected e.
Proof.
  unfold fetchUserBalance. destruct (user c) as [u|]; [|discriminate].
  simpl. intros H. exists u. split; [reflexivity|].
  destruct (gw (SelectBalance (user_id u))) as [r|e'].
  - simpl in H. destruct (reply_error r), (data r) as [[[| |x]]|]; discriminate.
  - simpl in H. injection H as ->. reflexivity.
Qed.

(** Lines 162 to 165: the refresh changes neither the message, the flag nor
    the store; it clears the draft when it returns and keeps it when it
    throws, which it does only on a rejected balance request. *)
Lemma refresh_and_clear_run (gw : Gateway) (c : Session) (w : World) :
  let r := run gw (refresh_and_clear c) w in
  store (fst r) = store w /\
  error (session (fst r)) = error (session w) /\
  submitting (session (fst r)) = submitting (session w) /\
  match snd r with
  | Returned _ =>
      betAmount (session (fst r)) = "" /\ prediction (session (fst r)) = ""
  | Thrown e =>
      betAmount (session (fst r)) = betAmount (session w) /\
      prediction (session (fst r)) = prediction (session w) /\
      exists u, user c = Some u /\ gw (SelectBalance (user_id u)) = Rejected e
  end.
Proof.
  unfold refresh_and_clear. rewrite run_bind.
  pose proof (fetchMatchBets_returns gw c w) as R1.
  destruct (fetchMatchBets_quiet c) as [Q1 N1].
  pose proof (run_quiet gw _ w Q1 N1) as (E1 & A1 & P1 & S1 & D1).
  destruct (run gw (fetchMatchBets c) w) as [w1 r1]. simpl in *. subst r1.
  rewrite run_bind.
  pose proof (fetchUserBalance_throws gw c w1) as R2.
  destruct (fetchUserBalance_quiet c) as [Q2 N2].
  pose proof (run_quiet gw _ w1 Q2 N2) as (E2 & A2 & P2 & S2 & D2).
  destruct (run gw (fetchUserBalance c) w1) as [w2 [[]|e]]; simpl in *.
  - repeat split; congruence.
  - repeat split; try congruence. apply R2. reflexivity.
Qed.

End Refresh.

(** ** [placeBet] once the checks have passed *)

Section Placing.
Context {B : Builtins}.

(** The [try]/[catch]/[finally] of [placeBet] around a body. *)
Lemma run_guarded (gw : Gateway) (body : Prog unit) (w : World) :
  run gw
    (finally
       (try_catch body
          (fun _ => console_error "Error placing bet:" ;; set (setError "Failed to place bet.")))
       (set (setSubmitting false))) w =
  match run gw body w with
  | (w1, Returned _) => (update (setSubmitting false) w1, Returned tt)
  | (w1, Thrown _) =>
      (update (setSubmitting false)
         (update (setError "Failed to place bet.") (log "Error placing bet:" w1)),
       Returned tt)
  end.
Proof.
  rewrite run_finally, run_try_catch.
  destruct (run gw body w) as [w1 [[]|e]]; reflexivity.
Qed.

Lemma run_insert (gw : Gateway) (q : Req) (c : Session) (w : World) :
  fst (run gw
    (finally
       (try_catch (await q ;; refresh_and_clear c)
          (fun _ => console_error "Error placing bet:" ;; set (setError "Failed to place bet.")))
       (set (setSubmitting false)))
    (update (setSubmitting true) (update (setError "") w))) =
  placed gw q c w.
Proof.
  rewrite run_guarded, run_bind. unfold placed, asked. simpl.
  destruct (gw q) as [r|e]; simpl.
  - destruct (run gw (refresh_and_clear c) _) as [w1 [[]|e]]; reflexivity.
  - reflexivity.
Qed.

Lemma submit_win (gw : Gateway) (w : World) (u : User) (g : Game) :
  user (session w) = Some u -> game (session w) = Some g ->
  funded (session w) g ->
  game_type g = "win" ->
  truthy_string (prediction (session w)) = true ->
  submit gw w = placed gw (InsertWin (win_row u g (session w))) (session w) w.
Proof.
  intros Hu Hg (Hl & Ha & Hb) Ht Hp.
  unfold submit, placeBet, invalid_amount, draft_amount in *.
  rewrite Hu, Hg, Hl, Ht, Ha, Hb, Hp. simpl negb. cbv iota.
  rewrite <- run_insert. reflexivity.
Qed.

Lemma submit_score (gw : Gateway) (w : World) (u : User) (g : Game) :
  user (session w) = Some u -> game (session w) = Some g ->
  funded (session w) g ->
  game_type g <> "win" ->
  PrimFloat.is_nan (parseInt (prediction (session w))) = false ->
  submit gw w = placed gw (InsertScore (score_row u g (session w))) (session w) w.
Proof.
  intros Hu Hg (Hl & Ha & Hb) Ht Hp. apply String.eqb_neq in Ht.
  unfold submit, placeBet, invalid_amount, draft_amount in *.
  rewrite Hu, Hg, Hl, Ht, Ha, Hb, Hp. simpl negb. cbv iota.
  rewrite <- run_insert. reflexivity.
Qed.

End Placing.

Section AfterInsert.
Context {B : Builtins}.

(** After the insert is sent the handler ends with [submitting] false, with
    no message or the generic one, and the store holds what the insert's
    answer committed. *)
Lemma placed_world (gw : Gateway) (q : Req) (c : Session) (w : World) :
  let w' := placed gw q c w in
  store w' = commit q (gw q) (store w) /\
  submitting (session w') = false /\
  (error (session w') = "" \/ error (session w') = "Failed to place bet.").
Proof.
  unfold placed. destruct (gw q) as [r|e] eqn:Hq.
  - pose proof (refresh_and_clear_run gw c (asked q (Fulfilled r) w)) as (D & E & S & _).
    destruct (run gw (refresh_and_clear c) _) as [w1 [[]|e]]; simpl in *.
    + repeat split; auto.
    + repeat split; auto.
  - simpl. repeat split; auto.
Qed.

(** A rejected insert: the generic message, the draft kept. *)
Lemma placed_rejected (gw : Gateway) (q : Req) (c : Session) (w : World) (e : string) :
  gw q = Rejected e ->
  let w' := placed gw q c w in
  error (session w') = "Failed to place bet." /\
  betAmount (session w') = betAmount (session w) /\
  prediction (session w') = prediction (session w).
Proof.
  intros Hq. unfold placed. rewrite Hq. simpl. auto.
Qed.

(** A resolved insert, whatever its [error] field says: unless the balance
    request is rejected afterwards, the draft is cleared and no message is
    set. *)
Lemma placed_resolved (gw : Gateway) (q : Req) (c : Session) (w : World) (r : Resp q) :
  gw q = Fulfilled r ->
  (forall u e, user c = Some u -> gw (SelectBalance (user_id u)) <> Rejected e) ->
  let w' := placed gw q c w in
  error (session w') = "" /\
  betAmount (session w') = "" /\
  prediction (session w') = "".
Proof.
  intros Hq Hb. unfold placed. rewrite Hq.
  pose proof (refresh_and_clear_run gw c (asked q (Fulfilled r) w)) as (D & E & S & R).
  destruct (run gw (refresh_and_clear c) _) as [w1 [[]|e]]; simpl in *.
  - destruct R as [R1 R2]. auto.
  - destruct R as (_ & _ & u & Hu & Hr). exfalso. exact (Hb u e Hu Hr).
Qed.

(** C3. On a live game with a user, a draft whose amount is above the
    balance is never written: the store, the requests and the draft stay as
    they are, and the submit ends with 'Insufficient balance' when the
    amount passed the amount check, as every amount above a balance that is
    not negative has.  An amount equal to the balance passes this
    check: the message is never 'Insufficient balance', and a win-type draft
    with a team selected is written to the store when the store accepts the
    insert. *)
Theorem over_balance_rejected (gw : Gateway) (w : World) (u : User) (g : Game) :
  user (session w) = Some u ->
  game (session w) = Some g ->
  game_status g = "live" ->
  ((userBalance (session w) <? draft_amount (session w))%float = true ->
     store (submit gw w) = store w /\
     requests (submit gw w) = requests w /\
     betAmount (session (submit gw w)) = betAmount (session w) /\
     prediction (session (submit gw w)) = prediction (session w) /\
     (invalid_amount (draft_amount (session w)) = false \/
      (0 <=? userBalance (session w))%float = true ->
        error (session (submit gw w)) = "Insufficient balance" /\
        submitting (session (submit gw w)) = false)) /\
  ((draft_amount (session w) =? userBalance (session w))%float = true ->
   invalid_amount (draft_amount (session w)) = false ->
     error (session (submit gw w)) <> "Insufficient balance" /\
     (game_type g = "win" ->
      truthy_string (prediction (session w)) = true ->
      replied_ok (gw (InsertWin (win_row u g (session w)))) = true ->
        win_game_bets (store (submit gw w)) =
        win_game_bets (store w) ++ [win_row u g (session w)])).
Proof.
  intros Hu Hg Hl. split.
  - intros Hb.
    unfold submit, placeBet, invalid_amount, draft_amount in *.
    rewrite Hu, Hg, Hl. simpl negb. cbv iota.
    destruct (_ || _)%bool eqn:Ha.
    + simpl. do 4 (split; [reflexivity|]).
      intros [H|H]; [discriminate|].
      destruct (above_nonneg_valid _ _ H Hb) as [N L].
      rewrite N, L in Ha. discriminate.
    + rewrite Hb. simpl. repeat split; intros; reflexivity.
  - intros He Ha. apply eqb_not_ltb in He.
    assert (Hf : funded (session w) g) by (repeat split; assumption).
    destruct (String.eqb (game_type g) "win") eqn:Ht.
    + apply String.eqb_eq in Ht.
      destruct (truthy_string (prediction (session w))) eqn:Hp.
      * rewrite (submit_win gw w u g Hu Hg Hf Ht Hp).
        pose proof (placed_world gw (InsertWin (win_row u g (session w))) (session w) w)
          as (D & _ & [E|E]).
        split; [rewrite E; discriminate|].
        intros _ _ Hok. rewrite D. simpl. rewrite Hok. reflexivity.
        split; [rewrite E; discriminate|].
        intros _ _ Hok. rewrite D. simpl. rewrite Hok. reflexivity.
      * split; [|intros; discriminate].
        unfold submit, placeBet, invalid_amount, draft_amount in *.
        rewrite Hu, Hg, Hl, Ht, Ha, He, Hp. simpl. discriminate.
    + split; [|intros Hw; rewrite Hw in Ht; discriminate].
      destruct (PrimFloat.is_nan (parseInt (prediction (session w)))) eqn:Hp.
      * unfold submit, placeBet, invalid_amount, draft_amount in *.
        rewrite Hu, Hg, Hl, Ht, Ha, He, Hp. simpl. discriminate.
      * apply String.eqb_neq in Ht.
        rewrite (submit_score gw w u g Hu Hg Hf Ht Hp).
        pose proof (placed_world gw (InsertScore (score_row u g (session w))) (session w) w)
          as (_ & _ & [E|E]); rewrite E; discriminate.
Qed.

End AfterInsert.

Section Selection.
Context {B : Builtins}.

(** C4, as the code has it. On a game that is not win-type, a draft that
    passed the liveness, amount and balance checks is rejected with 'Select
    a valid score range', nothing sent and nothing written, exactly when its
    prediction does not parse ([parseInt] gives [NaN]).  A prediction that
    parses is sent to the store as the predicted score, whatever its value:
    no test against the eleven brackets is made. *)
Theorem score_selection_checked (gw : Gateway) (w : World) (u : User) (g : Game) :
  user (session w) = Some u ->
  game (session w) = Some g ->
  funded (session w) g ->
  game_type g <> "win" ->
  (PrimFloat.is_nan (parseInt (prediction (session w))) = true ->
     error (session (submit gw w)) = "Select a valid score range" /\
     store (submit gw w) = store w /\
     requests (submit gw w) = requests w /\
     betAmount (session (submit gw w)) = betAmount (session w) /\
     prediction (session (submit gw w)) = prediction (session w)) /\
  (PrimFloat.is_nan (parseInt (prediction (session w))) = false ->
     error (session (submit gw w)) <> "Select a valid score range" /\
     store (submit gw w) =
       commit (InsertScore (score_row u g (session w)))
         (gw (InsertScore (score_row u g (session w)))) (store w)).
Proof.
  intros Hu Hg Hf Ht. split; intros Hp.
  - destruct Hf as (Hl & Ha & Hb). apply String.eqb_neq in Ht.
    unfold submit, placeBet, invalid_amount, draft_amount in *.
    rewrite Hu, Hg, Hl, Ht, Ha, Hb, Hp. simpl. repeat split.
  - rewrite (submit_score gw w u g Hu Hg Hf Ht Hp).
    pose proof (placed_world gw (InsertScore (score_row u g (session w))) (session w) w)
      as (D & _ & [E|E]); (split; [rewrite E; discriminate|exact D]).
Qed.

End Selection.

(** C4, as the claim has it, fails: on a live score-type game, bracket 12
    parses, so the wager is written with predicted score 12 and no message
    is shown. *)
Lemma bracket_12_is_written :
  let w := at_form (Some punter) (Some lions_innings) 100%float "30" "12" in
  let w' := submit (B := ascii_builtins) accepting w in
  parseInt_ascii "12" = 12%float /\
  error (session w') = "" /\
  score_prediction_bets (store w') =
    [{| si_user_id := "u1"; si_game_id := "G2"; si_team := val "Lions";
        si_predicted_score := 12%float; si_bet_amount := 30%float |}].
Proof. vm_compute. repeat split. Qed.

Lemma score_selection_checked_witness :
  let w := at_form (Some punter) (Some lions_innings) 100%float "30" "Lions" in
  error (session (submit (B := ascii_builtins) accepting w)) = "Select a valid score range".
Proof.
  intros w.
  refine (proj1 (proj1 (score_selection_checked (B := ascii_builtins) accepting w
    punter lions_innings eq_refl eq_refl _ _) _)).
  - repeat split.
  - discriminate.
  - reflexivity.
Defined.

(** C5 fails on the code: the store answers the insert with an error in its
    reply, and the handler, which never reads the reply, refreshes, clears
    the draft and shows no message, though nothing was written. *)
Theorem insert_error_goes_unnoticed :
  let w := at_form (Some punter) (Some (lions_tigers "live")) 100%float "30" "Lions" in
  let w' := submit (B := ascii_builtins) denying w in
  store w' = store w /\
  betAmount (session w') = "" /\
  prediction (session w') = "" /\
  error (session w') = "".
Proof. vm_compute. repeat split. Qed.

(** The same draft when the insert's promise is rejected: the draft is kept
    and the generic message shown. *)
Lemma insert_rejection_is_reported :
  let w := at_form (Some punter) (Some (lions_tigers "live")) 100%float "30" "Lions" in
  let w' := submit (B := ascii_builtins) unreachable w in
  store w' = store w /\
  betAmount (session w') = "30" /\
  prediction (session w') = "Lions" /\
  error (session w') = "Failed to place bet.".
Proof. vm_compute. repeat split. Qed.

Lemma placeBet_without_user_or_game_witness :
  let w := at_form None (Some (lions_tigers "live")) 100%float "30" "Lions" in
  submit (B := ascii_builtins) accepting w = w.
Proof.
  intros w.
  exact (proj1 (placeBet_without_user_or_game (B := ascii_builtins) accepting w
    (or_introl eq_refl))).
Defined.

Lemma not_live_rejected_witness :
  let w := at_form (Some punter) (Some (lions_tigers "completed")) 100%float "30" "Lions" in
  error (session (submit (B := ascii_builtins) accepting w)) = "This game is not live.".
Proof.
  intros w.
  refine (proj1 (proj2 (proj2 (proj2 (proj2 (not_live_rejected (B := ascii_builtins)
    accepting w (lions_tigers "completed") eq_refl _)))) punter eq_refl)).
  discriminate.
Defined.

Lemma invalid_amount_rejected_witness :
  let w := at_form (Some punter) (Some (lions_tigers "live")) 100%float "-5" "Lions" in
  error (session (submit (B := ascii_builtins) accepting w)) = "Enter a valid amount".
Proof.
  intros w.
  refine (proj1 (proj2 (proj2 (proj2 (proj2 (invalid_amount_rejected (B := ascii_builtins)
    accepting w _)))) punter (lions_tigers "live") eq_refl eq_refl eq_refl)).
  reflexivity.
Defined.

Lemma over_balance_rejected_witness :
  let w := at_form (Some punter) (Some (lions_tigers "live")) 100%float "150" "Lions" in
  let w' := at_form (Some punter) (Some (lions_tigers "live")) 100%float "100" "Lions" in
  error (session (submit (B := ascii_builtins) accepting w)) = "Insufficient balance" /\
  store (submit (B := ascii_builtins) accepting w) = store w /\
  List.length (win_game_bets (store (submit (B := ascii_builtins) accepting w'))) = 1%nat.
Proof.
  intros w w'.
  pose proof (proj1 (over_balance_rejected (B := ascii_builtins) accepting w punter
    (lions_tigers "live") eq_refl eq_refl eq_refl) eq_refl) as (D & _ & _ & _ & E).
  pose proof (proj2 (over_balance_rejected (B := ascii_builtins) accepting w' punter
    (lions_tigers "live") eq_refl eq_refl eq_refl) eq_refl eq_refl) as (_ & W).
  split; [exact (proj1 (E (or_intror eq_refl)))|]. split; [exact D|].
  rewrite (W eq_refl eq_refl eq_refl). reflexivity.
Defined.

(** ** Wager list assembly *)

Section SortLaws.
Context {A : Type} (cmp : A -> A -> option Z).

Lemma insert_permutation (x : A) (l : list A) :
  Permutation (x :: l) (JS.insert cmp x l).
Proof.
  induction l as [|y l IH]; simpl; [reflexivity|].
  destruct (JS.before_or_equal cmp x y); [reflexivity|].
  rewrite perm_swap. apply perm_skip, IH.
Qed.

(** The sort only reorders. *)
Lemma sort_permutation (l : list A) : Permutation l (JS.sort cmp l).
Proof.
  induction l as [|x l IH]; simpl; [reflexivity|].
  rewrite <- insert_permutation. apply perm_skip, IH.
Qed.

End SortLaws.

Section Assembly.
Context {B : Builtins}.

Lemma insert_newer (x : MatchBet) (l : list MatchBet) :
  created_time x <> None -> dated l ->
  ~ In (created_time x) (map created_time l) ->
  StronglySorted newer l ->
  StronglySorted newer (JS.insert by_created_desc x l).
Proof.
  intros Hx Hl Hn Hs. induction Hs as [|y l Hs IH Hy]; simpl.
  - constructor; constructor.
  - inversion Hl as [|? ? Hy' Hl']; subst.
    assert (Hxy : created_time x <> created_time y) by (intros E; apply Hn; left; auto).
    assert (Hn' : ~ In (created_time x) (map created_time l)) by (intros E; apply Hn; right; auto).
    unfold JS.before_or_equal, by_created_desc.
    destruct (created_time x) as [tx|] eqn:Ex; [|contradiction].
    destruct (created_time y) as [ty|] eqn:Ey; [|contradiction].
    destruct (ty - tx <=? 0) eqn:Hc.
    + apply Z.leb_le in Hc.
      assert (Hlt : ty < tx) by (assert (tx <> ty) by congruence; lia).
      constructor; [constructor; assumption|].
      constructor.
      * unfold newer. rewrite Ex, Ey. exact Hlt.
      * rewrite Forall_forall in Hy |- *. intros z Hz. specialize (Hy z Hz).
        unfold newer in *. rewrite Ex. rewrite Ey in Hy.
        destruct (created_time z); [lia|contradiction].
    + apply Z.leb_gt in Hc.
      constructor; [apply IH; assumption|].
      rewrite Forall_forall in Hy |- *. intros z Hz.
      apply (Permutation_in _ (Permutation_sym (insert_permutation by_created_desc x l))) in Hz.
      destruct Hz as [<-|Hz]; [|apply Hy, Hz].
      unfold newer. rewrite Ex, Ey. lia.
Qed.

Lemma sort_newer (l : list MatchBet) :
  dated l -> NoDup (map created_time l) ->
  StronglySorted newer (JS.sort by_created_desc l).
Proof.
  induction l as [|x l IH]; simpl; intros Hd Hn; [constructor|].
  inversion Hd as [|? ? Hx Hl]; subst. inversion Hn as [|? ? Hx' Hn']; subst.
  apply insert_newer; auto.
  - unfold dated. rewrite Forall_forall in Hl |- *. intros z Hz. apply Hl.
    apply (Permutation_in _ (Permutation_sym (sort_permutation by_created_desc l))), Hz.
  - intros Hin. apply Hx'.
    apply (Permutation_in _ (Permutation_map created_time
             (Permutation_sym (sort_permutation by_created_desc l)))), Hin.
Qed.

Lemma not_older_trans (a b c : MatchBet) : not_older a b -> not_older b c -> not_older a c.
Proof.
  unfold not_older.
  destruct (created_time a), (created_time b), (created_time c); try tauto. lia.
Qed.

Lemma insert_not_older (x : MatchBet) (l : list MatchBet) :
  created_time x <> None -> dated l ->
  StronglySorted not_older l ->
  StronglySorted not_older (JS.insert by_created_desc x l).
Proof.
  intros Hx Hl Hs. induction Hs as [|y l Hs IH Hy]; simpl.
  - constructor; constructor.
  - inversion Hl as [|? ? Hy' Hl']; subst.
    assert (Hc : JS.before_or_equal by_created_desc x y = true -> not_older x y).
    { unfold JS.before_or_equal, by_created_desc, not_older.
      destruct (created_time y) as [ty|]; [|contradiction].
      destruct (created_time x) as [tx|]; [|contradiction]. lia. }
    assert (Hc' : JS.before_or_equal by_created_desc x y = false -> not_older y x).
    { unfold JS.before_or_equal, by_created_desc, not_older.
      destruct (created_time y) as [ty|]; [|contradiction].
      destruct (created_time x) as [tx|]; [|contradiction]. lia. }
    destruct (JS.before_or_equal by_created_desc x y).
    + constructor; [constructor; assumption|].
      constructor; [auto|]. revert Hy. apply Forall_impl. intros z.
      apply not_older_trans. auto.
    + constructor; [auto|].
      eapply Permutation_Forall; [apply insert_permutation|]. constructor; auto.
Qed.

Lemma sort_not_older (l : list MatchBet) :
  dated l -> StronglySorted not_older (JS.sort by_created_desc l).
Proof.
  induction l as [|x l IH]; simpl; intros Hd; [constructor|].
  inversion Hd as [|? ? Hx Hl]; subst.
  apply insert_not_older; auto.
  unfold dated. eapply Permutation_Forall; [apply sort_permutation|exact Hl].
Qed.

(** An element moves past another only when it is strictly older: the bets
    of one time value keep their order. *)
Lemma insert_created_at_time (t : Z) (x : MatchBet) (l : list MatchBet) :
  created_at_time t (JS.insert by_created_desc x l) = created_at_time t (x :: l).
Proof.
  induction l as [|y l IH]; [reflexivity|]. simpl JS.insert.
  destruct (JS.before_or_equal by_created_desc x y) eqn:Hc; [reflexivity|].
  unfold created_at_time in *. simpl in *. rewrite IH.
  unfold JS.before_or_equal, by_created_desc in Hc.
  destruct (created_time y) as [ty|]; [|discriminate].
  destruct (created_time x) as [tx|]; [|discriminate].
  destruct (Z.eqb_spec tx t), (Z.eqb_spec ty t); try reflexivity. lia.
Qed.

Lemma sort_created_at_time (t : Z) (l : list MatchBet) :
  created_at_time t (JS.sort by_created_desc l) = created_at_time t l.
Proof.
  induction l as [|x l IH]; [reflexivity|]. simpl JS.sort.
  rewrite insert_created_at_time. unfold created_at_time in *. simpl. rewrite IH.
  reflexivity.
Qed.

End Assembly.

Lemma Permutation_filter {A} (f : A -> bool) (l l' : list A) :
  Permutation l l' -> Permutation (filter f l) (filter f l').
Proof.
  induction 1 as [|x l l' H IH|x y l|l l' l'' H1 IH1 H2 IH2]; simpl.
  - constructor.
  - destruct (f x); [apply perm_skip|]; exact IH.
  - destruct (f x), (f y); try reflexivity. apply perm_swap.
  - etransitivity; eassumption.
Qed.

(** Reading back the rows of one collection from the tagged rows of both. *)
Lemma untag_win_tagged (ws : list WinBetRow) (ss : list ScoreBetRow) :
  map untag_win (filter is_win (map tag_win ws ++ map tag_score ss)) = ws.
Proof.
  rewrite filter_app, map_app.
  assert (Hs : filter is_win (map tag_score ss) = []).
  { induction ss as [|r ss IH]; [reflexivity|exact IH]. }
  rewrite Hs, app_nil_r.
  induction ws as [|r ws IH]; [reflexivity|].
  simpl. rewrite IH. destruct r; reflexivity.
Qed.

Lemma untag_score_tagged (ws : list WinBetRow) (ss : list ScoreBetRow) :
  map untag_score (filter is_score (map tag_win ws ++ map tag_score ss)) = ss.
Proof.
  rewrite filter_app, map_app.
  assert (Hw : filter is_score (map tag_win ws) = []).
  { induction ws as [|r ws IH]; [reflexivity|exact IH]. }
  rewrite Hw. simpl.
  induction ss as [|r ss IH]; [reflexivity|].
  simpl. rewrite IH. destruct r; reflexivity.
Qed.

Section Assembled.
Context {B : Builtins}.

(** C6. The assembled list holds every row of both collections exactly once
    (none for a collection the store returned no data for), with all its
    columns, tagged with the collection it came from: the bets tagged
    ['win'] read back as the win rows and those tagged ['score'] as the
    score rows, up to order.  When every row has a time value the list runs
    from newest to oldest by time value, rows of one time value standing in
    the order of the input (win rows, then score rows); it is in strictly
    descending order when no two rows have the same time value.  The time
    value is what [new Date(created_at).getTime()] gives, a number of
    milliseconds: timestamps that differ below the millisecond have the same
    one. *)
Theorem assemble_sorted (winBets : option (list WinBetRow))
    (scoreBets : option (list ScoreBetRow)) :
  let tagged := map tag_win (or_empty winBets) ++ map tag_score (or_empty scoreBets) in
  let allBets := assemble winBets scoreBets in
  Permutation (or_empty winBets) (map untag_win (filter is_win allBets)) /\
  Permutation (or_empty scoreBets) (map untag_score (filter is_score allBets)) /\
  (dated tagged ->
     StronglySorted not_older allBets /\
     (forall t, created_at_time t allBets = created_at_time t tagged) /\
     (NoDup (map created_time tagged) -> StronglySorted newer allBets)).
Proof.
  intros tagged allBets.
  assert (Hp : Permutation tagged allBets) by apply sort_permutation.
  split; [|split].
  - rewrite <- (untag_win_tagged (or_empty winBets) (or_empty scoreBets)) at 1.
    apply Permutation_map, Permutation_filter, Hp.
  - rewrite <- (untag_score_tagged (or_empty winBets) (or_empty scoreBets)) at 1.
    apply Permutation_map, Permutation_filter, Hp.
  - intros Hd. split; [apply sort_not_older, Hd|]. split.
    + intros t. apply sort_created_at_time.
    + intros Hn. apply sort_newer; assumption.
Qed.

End Assembled.

Lemma assemble_sorted_witness :
  let w1 := win_row_at "w1" "2024-05-01T12:00:00Z" in
  let w2 := win_row_at "w2" "2024-05-01T12:05:00.250+00:00" in
  let s1 := score_row_at "s1" "2024-05-01T17:33:00+05:30" in
  let allBets := assemble (B := ascii_builtins) (Some [w1; w2]) (Some [s1]) in
  allBets = [tag_win w2; tag_score s1; tag_win w1] /\
  Permutation [w1; w2] (map untag_win (filter is_win allBets)) /\
  Permutation [s1] (map untag_score (filter is_score allBets)) /\
  StronglySorted (newer (B := ascii_builtins)) allBets.
Proof.
  intros w1 w2 s1 allBets.
  assert (Hd : dated (B := ascii_builtins) (map tag_win [w1; w2] ++ map tag_score [s1])).
  { repeat constructor; vm_compute; discriminate. }
  assert (Hn : NoDup (map (created_time (B := ascii_builtins))
                        (map tag_win [w1; w2] ++ map tag_score [s1]))).
  { vm_compute. repeat constructor; simpl; intuition discriminate. }
  destruct (assemble_sorted (B := ascii_builtins) (Some [w1; w2]) (Some [s1]))
    as (Pw & Ps & S).
  destruct (S Hd) as (_ & _ & S').
  split; [vm_compute; reflexivity|]. split; [exact Pw|]. split; [exact Ps|exact (S' Hn)].
Defined.

(** C6, as the claim has it, fails for timestamps that are distinct but
    fall in the same millisecond.  The store keeps microseconds; the
    comparator sees the time value, which has none.  A win row and a score
    row created 333 microseconds apart compare equal, so they stay in the
    order of the input and the earlier bet stands first. *)
Lemma same_millisecond_keeps_input_order :
  let w := win_row_at "w_early" "2024-05-01T12:00:00.123456+00:00" in
  let s := score_row_at "s_late" "2024-05-01T12:00:00.123789+00:00" in
  let allBets := assemble (B := ascii_builtins) (Some [w]) (Some [s]) in
  String.ltb (wb_created_at w) (sb_created_at s) = true /\
  created_time (B := ascii_builtins) (tag_win w) = Some 1714564800123 /\
  created_time (B := ascii_builtins) (tag_score s) = Some 1714564800123 /\
  allBets = [tag_win w; tag_score s].
Proof. vm_compute. repeat split. Qed.

(** ** Volume aggregation *)

Lemma read_alloc {A} (l : list A) (h : @Heap A) (r : nat) :
  (r < List.length h)%nat -> read (snd (alloc l h)) r = read h r.
Proof. intros Hr. unfold read, alloc. simpl. apply app_nth1, Hr. Qed.

Lemma read_fresh {A} (l : list A) (h : @Heap A) :
  read (snd (alloc l h)) (fst (alloc l h)) = l.
Proof.
  unfold read, alloc. simpl. rewrite app_nth2 by lia.
  rewrite Nat.sub_diag. reflexivity.
Qed.

(** The volume cards on the heap compute [aggregate] of the array's content
    and leave every array that existed as it was. *)
Lemma volume_cards_reads (allBets : nat) (a b : Nullable string) (h : @Heap MatchBet) :
  (allBets < List.length h)%nat ->
  fst (volume_cards allBets a b h) = aggregate (read h allBets) a b /\
  forall r, (r < List.length h)%nat -> read (snd (volume_cards allBets a b h)) r = read h r.
Proof.
  intros Hr. unfold volume_cards, array_filter, array_reduce, aggregate, reduce_amounts.
  set (la := filter (on_side a) (read h allBets)).
  pose proof (read_fresh la h) as Fa.
  pose proof (read_alloc la h) as Ka.
  destruct (alloc la h) as [ra h1] eqn:Ea. simpl in Fa, Ka.
  assert (L1 : (List.length h <= List.length h1)%nat).
  { unfold alloc in Ea. injection Ea as _ <-. rewrite length_app. lia. }
  set (lb := filter (on_side b) (read h1 allBets)).
  pose proof (read_fresh lb h1) as Fb.
  pose proof (read_alloc lb h1) as Kb.
  destruct (alloc lb h1) as [rb h2] eqn:Eb. simpl in Fb, Kb.
  simpl. split.
  - rewrite Fa, Fb. subst la lb. rewrite (Ka allBets Hr). reflexivity.
  - intros r Hlt. rewrite Kb by lia. apply Ka, Hlt.
Qed.

(** C8. The volume cards are a function of the wager list alone: run on the
    array [allBets] they give [aggregate] of its content, leave [allBets]
    (and every other array) unchanged, and give the same result when run
    again; the empty list gives zero three times; a wager whose amount is
    [undefined] or [null] adds zero. *)
Theorem aggregate_is_pure (allBets : nat) (a b : Nullable string) (h : @Heap MatchBet) :
  (allBets < List.length h)%nat ->
  let (v, h') := volume_cards allBets a b h in
  v = aggregate (read h allBets) a b /\
  read h' allBets = read h allBets /\
  fst (volume_cards allBets a b h') = v /\
  aggregate [] a b = {| total := 0%float; side_a_volume := 0%float; side_b_volume := 0%float |} /\
  (forall x, bet_amount x = undefined \/ bet_amount x = null -> amount_of x = 0%float).
Proof.
  intros Hr.
  pose proof (volume_cards_reads allBets a b h Hr) as [V K].
  destruct (volume_cards allBets a b h) as [v h'] eqn:E. simpl in V, K.
  assert (Hr' : (allBets < List.length h')%nat).
  { unfold volume_cards, array_filter, alloc in E. simpl in E. injection E as _ <-.
    rewrite !length_app. lia. }
  repeat split.
  - exact V.
  - apply K, Hr.
  - rewrite (proj1 (volume_cards_reads allBets a b h' Hr')), (K allBets Hr). auto.
  - intros x [H|H]; unfold amount_of; rewrite H; reflexivity.
Qed.

Lemma aggregate_is_pure_witness :
  let x := tag_win {| wb_id := "b1"; wb_user_id := "u1"; wb_bet_amount := null;
                      wb_status := "pending"; wb_created_at := "2024-05-01T12:00:00Z";
                      wb_team := val "Lions"; wb_predicted_percentage := val 50%float;
                      wb_user_name := "Asha" |} in
  fst (volume_cards 0 (val "Lions") (val "Tigers") [[x]]) =
    aggregate [x] (val "Lions") (val "Tigers") /\
  read (snd (volume_cards 0 (val "Lions") (val "Tigers") [[x]])) 0 = [x].
Proof.
  intros x.
  pose proof (aggregate_is_pure 0 (val "Lions") (val "Tigers") [[x]] (Nat.lt_0_succ 0)) as H.
  destruct (volume_cards 0 (val "Lions") (val "Tigers") [[x]]) as [v h'].
  destruct H as (V & R & _). split; [exact V|exact R].
Defined.

Lemma write_length {A} (r : nat) (l : list A) (h : @Heap A) :
  List.length (write r l h) = List.length h.
Proof.
  revert r; induction h as [|x h IH]; intros [|r]; simpl; auto.
Qed.

Lemma read_write {A} (r : nat) (l : list A) (h : @Heap A) :
  (r < List.length h)%nat -> read (write r l h) r = l.
Proof.
  unfold read. revert r; induction h as [|x h IH]; intros [|r]; simpl; intros H;
    try lia; auto. apply IH. lia.
Qed.

(** The list that [matchBets] shows is the sorted one, also after the
    volume cards have run over the same array. *)
Lemma matchBets_stay_sorted {B : Builtins} (tagged : list MatchBet)
    (a b : Nullable string) (h : @Heap MatchBet) :
  let '(allBets, v, h') := assemble_and_aggregate tagged a b h in
  read h' allBets = JS.sort by_created_desc tagged /\
  v = aggregate (JS.sort by_created_desc tagged) a b.
Proof.
  unfold assemble_and_aggregate, array_sort.
  pose proof (read_fresh tagged h) as F.
  destruct (alloc tagged h) as [r h1] eqn:E. simpl in F.
  assert (Hr : (r < List.length h1)%nat).
  { unfold alloc in E. injection E as <- <-. rewrite length_app. simpl. lia. }
  set (h2 := write r (JS.sort by_created_desc (read h1 r)) h1).
  assert (Hr2 : (r < List.length h2)%nat) by (unfold h2; rewrite write_length; exact Hr).
  pose proof (volume_cards_reads r a b h2 Hr2) as [V K].
  destruct (volume_cards r a b h2) as [v h3]. simpl in V, K.
  rewrite (K r Hr2), V. unfold h2. rewrite read_write by exact Hr. rewrite F. auto.
Qed.

(** ** One submit at a time *)

Lemma synchronous_bind {A C} (p : Prog A) (f : A -> Prog C) :
  synchronous p -> (forall a, synchronous (f a)) -> synchronous (bind p f).
Proof. induction p; simpl; auto. Qed.

Lemma synchronous_flag_up {A} (b : bool) (p : Prog A) : synchronous p -> flag_up b p.
Proof.
  revert b; induction p as [a|e|a k IH|m k IH|q k IH]; intros b; simpl; auto.
  - destruct a; auto.
  - contradiction.
Qed.

(** A body that never sets the flag, under a [finally] that does not wait. *)
Lemma flag_up_finally {A} (p : Prog A) (f : Prog unit) :
  all_setters no_flag p -> synchronous f -> flag_up true (finally p f).
Proof.
  intros Hp Hf. induction p as [a|e|a k IH|m k IH|q k IH]; simpl in *.
  - apply synchronous_flag_up, synchronous_bind; simpl; auto.
  - apply synchronous_flag_up, synchronous_bind; simpl; auto.
  - destruct Hp as [Ha Hk]. destruct a; auto. discriminate.
  - auto.
  - auto.
Qed.

Lemma quiet_no_flag {A} (p : Prog A) : all_setters quiet p -> all_setters no_flag p.
Proof. apply all_setters_impl. intros a (_ & _ & H). exact H. Qed.

Section Flag.
Context {B : Builtins}.

Lemma refresh_and_clear_no_flag (c : Session) : all_setters no_flag (refresh_and_clear c).
Proof.
  unfold refresh_and_clear.
  apply all_setters_bind; [apply quiet_no_flag, fetchMatchBets_quiet|intros _].
  apply all_setters_bind; [apply quiet_no_flag, fetchUserBalance_quiet|intros _].
  simpl. repeat split.
Qed.

Lemma insert_then_refresh_no_flag (q : Req) (c : Session) :
  all_setters no_flag (await q ;; refresh_and_clear c).
Proof.
  simpl. intros [r|e]; simpl; [apply refresh_and_clear_no_flag|exact I].
Qed.

(** [placeBet] raises the flag before it first waits and lowers it only
    when it is done. *)
Lemma placeBet_flag_up (c : Session) (b : bool) : flag_up b (placeBet c).
Proof.
  unfold placeBet. destruct (user c) as [u|], (game c) as [g|]; try exact I.
  simpl. apply flag_up_finally; [|exact I].
  apply all_setters_try_catch; [|intros; simpl; repeat split].
  repeat match goal with
         | |- all_setters _ (if ?x then _ else _) => destruct x
         | |- all_setters _ (set _) => simpl; repeat split
         | |- all_setters _ (let _ := _ in _) => cbv zeta
         | |- all_setters _ (Await ?q _) => exact (insert_then_refresh_no_flag q c)
         end.
Qed.

End Flag.

Lemma advance_no_flag (p : Prog unit) (w : World) :
  all_setters no_flag p ->
  submitting (session (fst (advance p w))) = submitting (session w) /\
  match snd (advance p w) with
  | Waiting q k => forall o, all_setters no_flag (k o)
  | _ => True
  end.
Proof.
  revert w; induction p as [a|e|a k IH|m k IH|q k IH]; intros w Hp; simpl in *; auto.
  - destruct Hp as [Ha Hk]. destruct (IH (update a w) Hk) as [E K].
    split; [|exact K]. rewrite E. destruct a; simpl; auto. discriminate.
  - apply (IH (log m w) Hp).
Qed.

Lemma advance_flag_up (p : Prog unit) (w : World) :
  flag_up (submitting (session w)) p ->
  match snd (advance p w) with
  | Waiting q k =>
      submitting (session (fst (advance p w))) = true /\ forall o, flag_up true (k o)
  | _ => True
  end.
Proof.
  revert w; induction p as [a|e|a k IH|m k IH|q k IH]; intros w Hp; simpl in *; auto.
  - apply IH. destruct a; simpl; exact Hp.
  - apply (IH (log m w)). exact Hp.
Qed.

Lemma count_placeBet_app (ts : list Task) (t : Task) :
  count_placeBet (ts ++ [t]) =
  (count_placeBet ts + if is_placeBet (handler t) then 1 else 0)%nat.
Proof.
  unfold count_placeBet. rewrite filter_app, length_app. simpl.
  destruct (is_placeBet (handler t)); reflexivity.
Qed.

Lemma count_placeBet_zero (ts : list Task) :
  count_placeBet ts = O -> Forall (fun t => is_placeBet (handler t) = false) ts.
Proof.
  unfold count_placeBet. induction ts as [|t ts IH]; simpl; [constructor|].
  destruct (is_placeBet (handler t)) eqn:E; simpl; [discriminate|].
  intros H. constructor; auto.
Qed.

Lemma count_placeBet_positive (ts : list Task) :
  (0 < count_placeBet ts)%nat -> exists t, In t ts /\ is_placeBet (handler t) = true.
Proof.
  unfold count_placeBet. induction ts as [|t ts IH]; simpl; [lia|].
  destruct (is_placeBet (handler t)) eqn:E; simpl.
  - intros _. exists t. auto.
  - intros H. destruct (IH H) as (t' & Hin & Ht). exists t'. auto.
Qed.

Lemma remove_nth_Forall {A} (P : A -> Prop) (i : nat) (l : list A) :
  Forall P l -> Forall P (remove_nth i l).
Proof.
  intros H. revert i. induction H as [|x l Hx Hl IH]; intros [|i]; simpl; auto.
Qed.

Lemma remove_nth_count (i : nat) (ts : list Task) (t : Task) :
  nth_error ts i = Some t ->
  count_placeBet ts =
  (count_placeBet (remove_nth i ts) + if is_placeBet (handler t) then 1 else 0)%nat.
Proof.
  unfold count_placeBet. revert i. induction ts as [|x ts IH]; intros [|i]; simpl; try discriminate.
  - intros H. injection H as ->. destruct (is_placeBet (handler t)); simpl; lia.
  - intros H. specialize (IH i H).
    destruct (is_placeBet (handler x)); simpl; rewrite IH; lia.
Qed.

Lemma task_ok_same_flag (s s' : Session) (t : Task) :
  submitting s' = submitting s -> task_ok s t -> task_ok s' t.
Proof. unfold task_ok. intros E. rewrite E. auto. Qed.

Lemma task_ok_loader (s s' : Session) (t : Task) :
  is_placeBet (handler t) = false -> task_ok s t -> task_ok s' t.
Proof. unfold task_ok. intros E. rewrite E. auto. Qed.

Lemma page_ok_same_flag (pg pg' : Page) :
  tasks pg' = tasks pg ->
  submitting (session (world pg')) = submitting (session (world pg)) ->
  page_ok pg -> page_ok pg'.
Proof.
  unfold page_ok, in_flight. intros Et Es [Hf Hc]. rewrite Et. split; [|exact Hc].
  revert Hf. apply Forall_impl. intros t. apply task_ok_same_flag, Es.
Qed.

(** Calling a loader keeps the page in order. *)
Lemma start_loader_ok (h : Handler) (p : Prog unit) (pg : Page) :
  is_placeBet h = false -> all_setters no_flag p -> page_ok pg -> page_ok (start h p pg).
Proof.
  intros Hh Hp [Hf Hc]. unfold start.
  destruct (advance_no_flag p (world pg) Hp) as [E K].
  destruct (advance p (world pg)) as [w [| |q k]]; simpl in *.
  - apply (page_ok_same_flag pg); auto. split; assumption.
  - apply (page_ok_same_flag pg); auto. split; assumption.
  - split; simpl.
    + apply Forall_app. split.
      * revert Hf. apply Forall_impl. intros t. apply task_ok_same_flag, E.
      * constructor; [|constructor]. unfold task_ok. simpl. rewrite Hh. exact K.
    + unfold in_flight in *. simpl. fold (count_placeBet (tasks pg ++ [Build_Task h q k])).
      rewrite count_placeBet_app. simpl. rewrite Hh. unfold count_placeBet. lia.
Qed.

(** Calling [placeBet] when none is in flight keeps the page in order. *)
Lemma start_placeBet_ok (p : Prog unit) (pg : Page) :
  in_flight pg = O ->
  flag_up (submitting (session (world pg))) p ->
  page_ok pg -> page_ok (start H_placeBet p pg).
Proof.
  intros H0 Hp [Hf Hc]. unfold start.
  pose proof (advance_flag_up p (world pg) Hp) as K.
  pose proof (count_placeBet_zero _ H0) as Hl.
  assert (Hrest : forall s, Forall (task_ok s) (tasks pg)).
  { intros s. rewrite Forall_forall in *. intros t Ht.
    apply (task_ok_loader (session (world pg))); auto. }
  destruct (advance p (world pg)) as [w [| |q k]]; simpl in *.
  - split; simpl; [apply Hrest|exact Hc].
  - split; simpl; [apply Hrest|exact Hc].
  - destruct K as [Ks Kk]. split; simpl.
    + apply Forall_app. split; [apply Hrest|].
      constructor; [|constructor]. unfold task_ok. simpl. auto.
    + unfold in_flight in *. simpl. fold (count_placeBet (tasks pg ++ [Build_Task H_placeBet q k])).
      rewrite count_placeBet_app. simpl. fold (count_placeBet (tasks pg)) in H0. lia.
Qed.

Section Reachable.
Context {B : Builtins}.

Lemma run_effect_ok (pg : Page) : page_ok pg -> page_ok (run_effect pg).
Proof.
  intros H. unfold run_effect.
  set (c := session (world pg)).
  assert (H1 : page_ok (if truthy_id (route_id c)
                        then start H_fetchGame (fetchGame c) pg else pg)).
  { destruct (truthy_id (route_id c)); [|exact H].
    apply start_loader_ok; auto. apply quiet_no_flag, fetchGame_quiet. }
  set (pg1 := if truthy_id (route_id c) then _ else pg) in *.
  assert (H2 : page_ok (match user c with
                        | Some _ => start H_fetchUserBalance (fetchUserBalance c) pg1
                        | None => pg1 end)).
  { destruct (user c); [|exact H1].
    apply start_loader_ok; auto. apply quiet_no_flag, fetchUserBalance_quiet. }
  set (pg2 := match user c with Some _ => _ | None => pg1 end) in *.
  destruct (truthy_id (route_id c)); [|exact H2].
  apply start_loader_ok; auto. apply quiet_no_flag, fetchMatchBets_quiet.
Qed.

(** Every event keeps the page in order. *)
Lemma step_ok (ev : Event) (pg : Page) : page_ok pg -> page_ok (step ev pg).
Proof.
  intros H. destruct ev as [rid u|v|v|idx| |i gw]; unfold step.
  - apply run_effect_ok. apply (page_ok_same_flag pg); auto.
  - destruct (form_shown _); [|exact H]. apply (page_ok_same_flag pg); auto.
  - destruct (form_shown _) as [g|]; [|exact H].
    destruct (String.eqb _ _); [|exact H]. apply (page_ok_same_flag pg); auto.
  - destruct (form_shown _) as [g|]; [|exact H].
    destruct (String.eqb _ _); [exact H|].
    destruct (Nat.ltb _ _); [|exact H]. apply (page_ok_same_flag pg); auto.
  - destruct (form_shown _) as [g|]; [|exact H].
    unfold submit_disabled. destruct (submitting (session (world pg))) eqn:Es; [exact H|].
    apply start_placeBet_ok; auto.
    + destruct H as [Hf Hc].
      destruct (Nat.eq_dec (in_flight pg) 0) as [E0|E0]; [exact E0|]. exfalso.
      destruct (count_placeBet_positive (tasks pg)) as (t & Hin & Ht).
      { unfold in_flight in E0. unfold count_placeBet. lia. }
      rewrite Forall_forall in Hf. specialize (Hf t Hin). unfold task_ok in Hf.
      rewrite Ht in Hf. destruct Hf as [Hf _]. congruence.
    + apply placeBet_flag_up.
  - destruct (nth_error (tasks pg) i) as [t|] eqn:Et; [|exact H].
    destruct H as [Hf Hc].
    pose proof (remove_nth_count i (tasks pg) t Et) as Hn.
    assert (Ht : task_ok (session (world pg)) t).
    { rewrite Forall_forall in Hf. apply Hf. eapply nth_error_In, Et. }
    set (pg' := {| world := deliver (pending t) (gw (pending t)) (world pg);
                   tasks := remove_nth i (tasks pg) |}).
    assert (Hpg' : page_ok pg').
    { split; simpl.
      - apply remove_nth_Forall, Hf.
      - unfold in_flight in *. simpl. fold (count_placeBet (remove_nth i (tasks pg))).
        fold (count_placeBet (tasks pg)) in Hc. lia. }
    unfold task_ok in Ht. destruct (handler t) eqn:Hh; simpl in Ht.
    + apply start_loader_ok; auto.
    + apply start_loader_ok; auto.
    + apply start_loader_ok; auto.
    + destruct Ht as [Hs Hk]. apply start_placeBet_ok; auto.
      * unfold in_flight in *. simpl. fold (count_placeBet (remove_nth i (tasks pg))).
        fold (count_placeBet (tasks pg)) in Hc. simpl in Hn. lia.
      * simpl. rewrite Hs. apply Hk.
Qed.

End Reachable.

Section Guard.
Context {B : Builtins}.

Lemma exec_ok (evs : list Event) (pg : Page) : page_ok pg -> page_ok (exec evs pg).
Proof.
  unfold exec. revert pg. induction evs as [|ev evs IH]; simpl; intros pg H; [exact H|].
  apply IH, step_ok, H.
Qed.

Lemma fresh_ok (rid : option string) (u : option User) (db : Store) :
  page_ok (fresh rid u db).
Proof. split; [constructor|unfold in_flight; simpl; lia]. Qed.

(** The button of line 296: while [submitting] is true a submit event
    changes nothing. *)
Lemma submit_while_disabled (pg : Page) :
  submitting (session (world pg)) = true -> step SubmitForm pg = pg.
Proof.
  intros H. unfold step, submit_disabled. rewrite H.
  destruct (form_shown _); reflexivity.
Qed.

Lemma repeated_submit_ignored (pg : Page) (n : nat) :
  submitting (session (world pg)) = true -> exec (repeat SubmitForm n) pg = pg.
Proof.
  intros Hs. induction n as [|n IH]; [reflexivity|].
  change (exec (repeat SubmitForm (S n)) pg)
    with (exec (repeat SubmitForm n) (step SubmitForm pg)).
  rewrite (submit_while_disabled pg Hs). exact IH.
Qed.

(** C9. Whatever events reach the page from its mount (effects, edits of
    the draft, submit events, answers of the store in any order), at most
    one [placeBet] is suspended at a time; while one is, [submitting] is
    true, and while [submitting] is true a submit event is ignored: the
    session, the store, the requests sent and the handlers in flight stay
    as they are, however often the event is repeated. *)
Theorem one_submit_in_flight (rid : option string) (u : option User) (db : Store)
    (evs : list Event) :
  let pg := exec evs (fresh rid u db) in
  (in_flight pg <= 1)%nat /\
  ((0 < in_flight pg)%nat -> submitting (session (world pg)) = true) /\
  (submitting (session (world pg)) = true ->
     forall n, exec (repeat SubmitForm n) pg = pg).
Proof.
  intros pg.
  assert (H : page_ok pg) by apply exec_ok, fresh_ok.
  destruct H as [Hf Hc]. split; [exact Hc|]. split.
  - intros Hpos.
    destruct (count_placeBet_positive (tasks pg) Hpos) as (t & Hin & Ht).
    rewrite Forall_forall in Hf. specialize (Hf t Hin). unfold task_ok in Hf.
    rewrite Ht in Hf. exact (proj1 Hf).
  - intros Hs n. apply repeated_submit_ignored, Hs.
Qed.

(** [placeBet] itself does not look at the flag: called directly with
    [submitting] already true it validates and writes as usual. *)
Lemma placeBet_has_no_guard_of_its_own :
  let w := update (setSubmitting true)
             (at_form (Some punter) (Some (lions_tigers "live")) 100%float "30" "Lions") in
  submitting (session w) = true /\
  List.length (win_game_bets (store (submit (B := ascii_builtins) accepting w))) = 1%nat.
Proof. vm_compute. split; reflexivity. Qed.

End Guard.

Lemma one_submit_in_flight_witness :
  let evs := [Effect (Some "G1") (Some punter); Answer 0 accepting; Answer 0 accepting;
              Answer 0 accepting; Answer 0 accepting;
              ChangeAmount "30"; SelectTeam "Lions"; SubmitForm] in
  let pg := exec (B := ascii_builtins) evs (fresh None None empty_store) in
  in_flight pg = 1%nat /\
  submitting (session (world pg)) = true /\
  exec (B := ascii_builtins) (repeat SubmitForm 3) pg = pg.
Proof.
  intros evs pg.
  destruct (one_submit_in_flight (B := ascii_builtins) None None empty_store evs)
    as (_ & S & R).
  assert (H : in_flight pg = 1%nat) by (vm_compute; reflexivity).
  assert (Hs : submitting (session (world pg)) = true).
  { apply S. fold pg. rewrite H. constructor. }
  split; [exact H|]. split; [exact Hs|]. exact (R Hs 3%nat).
Defined.

(** Two submit events in a row, then the store's answers: one row. *)
Lemma double_submit_writes_once :
  let loaded := exec (B := ascii_builtins)
                  [Effect (Some "G1") (Some punter); Answer 0 accepting; Answer 0 accepting;
                   Answer 0 accepting; Answer 0 accepting;
                   ChangeAmount "30"; SelectTeam "Lions"]
                  (fresh None None empty_store) in
  let clicked := exec (B := ascii_builtins) [SubmitForm; SubmitForm; SubmitForm] loaded in
  let settled := exec (B := ascii_builtins)
                   [Answer 0 accepting; Answer 0 accepting; Answer 0 accepting;
                    Answer 0 accepting] clicked in
  in_flight clicked = 1%nat /\
  submitting (session (world clicked)) = true /\
  in_flight settled = 0%nat /\
  submitting (session (world settled)) = false /\
  List.length (win_game_bets (store (world settled))) = 1%nat.
Proof. vm_compute. repeat split. Qed.

(** The eleven bracket buttons set the prediction to an index of the
    table, and a click beyond them sets nothing. *)
Lemma range_buttons_in_table :
  map (fun idx => parseInt_ascii (range_value idx)) (seq 0 (List.length scoreRanges)) =
  map (fun n => of_Z (Z.of_nat n)) (seq 1 11).
Proof. vm_compute. reflexivity. Qed.

(** ** Whole numbers in binary64

    Sums of whole amounts are exact while they stay below [2^53]. *)

Lemma digits2_log2 (p : positive) : Z.pos (digits2_pos p) = Z.log2 (Z.pos p) + 1.
Proof.
  induction p as [p IH|p IH|]; simpl digits2_pos.
  - rewrite Pos2Z.inj_succ, IH.
    change (Z.pos p~1) with (2 * Z.pos p + 1).
    rewrite Z.log2_succ_double by lia. lia.
  - rewrite Pos2Z.inj_succ, IH.
    change (Z.pos p~0) with (2 * Z.pos p).
    rewrite Z.log2_double by lia. lia.
  - reflexivity.
Qed.

Lemma iter_pos_iter {A} (f : A -> A) (n : positive) (x : A) :
  SpecFloat.iter_pos f n x = Pos.iter f x n.
Proof.
  revert x. induction n as [n IH|n IH|]; intros x; simpl.
  - rewrite !IH. rewrite <- !Pos.iter_swap. reflexivity.
  - rewrite !IH. reflexivity.
  - reflexivity.
Qed.

Lemma shift_pos_value (s q : positive) : Z.pos (shift_pos s q) = Z.pos q * 2 ^ Z.pos s.
Proof. rewrite shift_pos_correct. rewrite Z.mul_comm. reflexivity. Qed.

(** Shifting out zeros is exact. *)
Lemma shr_zeros (s q : positive) :
  SpecFloat.iter_pos shr_1 s (Build_shr_record (Z.pos (shift_pos s q)) false false) =
  Build_shr_record (Z.pos q) false false.
Proof.
  rewrite iter_pos_iter. unfold shift_pos.
  revert q. induction s as [|s IH] using Pos.peano_ind; intros q.
  - reflexivity.
  - rewrite Pos.iter_succ_r. rewrite Pos.iter_succ. simpl shr_1. apply IH.
Qed.

Lemma log2_small (n : Z) : 0 < n < 2 ^ 53 -> 0 <= Z.log2 n <= 52.
Proof.
  intros [H0 H1]. split; [apply Z.log2_nonneg|].
  apply Z.log2_lt_pow2 in H1; lia.
Qed.

Lemma fexp_small (x : Z) : -1021 <= x -> fexp prec emax x = x - 53.
Proof. intros H. unfold fexp, emin, prec, emax. lia. Qed.

(** A mantissa of exactly 53 bits is left alone. *)
Lemma shr_fexp_full (q : positive) (e : Z) :
  Z.log2 (Z.pos q) = 52 -> -1074 <= e ->
  shr_fexp prec emax (Z.pos q) e loc_Exact = (Build_shr_record (Z.pos q) false false, e).
Proof.
  intros Hq He. unfold shr_fexp. simpl Zdigits2. rewrite digits2_log2, Hq.
  rewrite fexp_small by lia.
  replace (52 + 1 + e - 53 - e) with 0 by lia. reflexivity.
Qed.

Lemma round_full (m : Z) (q : positive) (e e' : Z) :
  shr_fexp prec emax m e loc_Exact = (Build_shr_record (Z.pos q) false false, e') ->
  Z.log2 (Z.pos q) = 52 -> -1074 <= e' <= 971 ->
  binary_round_aux prec emax false m e loc_Exact = S754_finite false q e'.
Proof.
  intros H1 Hq He. unfold binary_round_aux. rewrite H1. simpl.
  rewrite (shr_fexp_full q e' Hq) by lia. simpl.
  replace (e' <=? 971) with true; [reflexivity|].
  symmetry. apply Z.leb_le. lia.
Qed.

Lemma pow2_pos (k : Z) : 0 <= k -> 0 < 2 ^ k.
Proof. intros. apply Z.pow_pos_nonneg; lia. Qed.

Lemma normalize_whole (P : positive) (k n : Z) :
  0 < n < 2 ^ 53 -> 0 <= k -> Z.pos P = n * 2 ^ k ->
  binary_normalize prec emax (Z.pos P) (- k) false = canon n.
Proof.
  intros Hn Hk HP.
  pose proof (log2_small n Hn) as Hl.
  assert (HlP : Z.log2 (Z.pos P) = k + Z.log2 n).
  { rewrite HP. apply Z.log2_mul_pow2; lia. }
  set (c := 52 - Z.log2 n) in *.
  assert (Hc : 0 <= c <= 52) by (unfold c; lia).
  pose proof (pow2_pos c (proj1 Hc)) as Hpc.
  set (Q := Z.to_pos (n * 2 ^ c)).
  assert (HQ : Z.pos Q = n * 2 ^ c) by (unfold Q; rewrite Z2Pos.id; nia).
  assert (HlQ : Z.log2 (Z.pos Q) = 52).
  { rewrite HQ, Z.log2_mul_pow2 by lia. unfold c. lia. }
  assert (Hcanon : canon n = S754_finite false Q (Z.log2 n - 52)).
  { unfold canon. destruct n; try lia. reflexivity. }
  rewrite Hcanon. unfold binary_normalize, binary_round.
  rewrite digits2_log2, HlP. rewrite fexp_small by lia.
  unfold shl_align.
  replace (k + Z.log2 n + 1 + - k - 53 - - k) with (k - c) by (unfold c; lia).
  destruct (k - c) as [|s|s] eqn:Hs.
  - (* no shift either way *)
    apply round_full; [|exact HlQ|lia].
    assert (P = Q) by (apply Pos2Z.inj; rewrite HP, HQ; f_equal; f_equal; lia).
    subst P. replace (- k) with (Z.log2 n - 52) by (unfold c in *; lia).
    apply shr_fexp_full; [exact HlQ|lia].
  - (* more than 53 bits: the low ones are zeros *)
    apply round_full; [|exact HlQ|lia].
    unfold shr_fexp. simpl Zdigits2. rewrite digits2_log2, HlP.
    rewrite fexp_small by lia.
    replace (k + Z.log2 n + 1 + - k - 53 - - k) with (Z.pos s) by (unfold c in *; lia).
    unfold shr. simpl shr_record_of_loc.
    assert (P = shift_pos s Q).
    { apply Pos2Z.inj. rewrite shift_pos_value, HP, HQ.
      replace k with (c + Z.pos s) by lia. rewrite Z.pow_add_r by lia. ring. }
    subst P. rewrite shr_zeros. f_equal. unfold c in *. lia.
  - (* fewer than 53 bits: shift left *)
    assert (Pos.iter xO P s = Q).
    { apply Pos2Z.inj. change (Pos.iter xO P s) with (shift_pos s P).
      rewrite shift_pos_value, HP, HQ.
      replace c with (k + Z.pos s) by lia. rewrite Z.pow_add_r by lia. ring. }
    rewrite H.
    replace (k + Z.log2 n + 1 + - k - 53) with (Z.log2 n - 52) by lia.
    apply round_full; [|exact HlQ|lia].
    apply shr_fexp_full; [exact HlQ|lia].
Qed.

Lemma canon_pos (n : Z) :
  0 < n < 2 ^ 53 ->
  exists q, canon n = S754_finite false q (Z.log2 n - 52) /\
            Z.pos q = n * 2 ^ (52 - Z.log2 n) /\ Z.log2 (Z.pos q) = 52.
Proof.
  intros Hn. pose proof (log2_small n Hn) as Hl.
  pose proof (pow2_pos (52 - Z.log2 n)) as Hp.
  exists (Z.to_pos (n * 2 ^ (52 - Z.log2 n))).
  assert (HQ : Z.pos (Z.to_pos (n * 2 ^ (52 - Z.log2 n))) = n * 2 ^ (52 - Z.log2 n))
    by (rewrite Z2Pos.id; nia).
  repeat split.
  - unfold canon. destruct n; try lia. reflexivity.
  - exact HQ.
  - rewrite HQ, Z.log2_mul_pow2 by lia. lia.
Qed.

Lemma canon_valid (n : Z) : 0 <= n < 2 ^ 53 -> valid_binary (canon n) = true.
Proof.
  intros Hn. destruct (Z.eq_dec n 0) as [->|H0]; [reflexivity|].
  destruct (canon_pos n) as (q & -> & Hq & Hl); [lia|].
  pose proof (log2_small n ltac:(lia)).
  unfold SpecFloat.valid_binary, bounded, canonical_mantissa.
  rewrite digits2_log2, Hl, fexp_small by lia.
  apply andb_true_intro. split; [apply Z.eqb_eq; lia|apply Z.leb_le; unfold emax, prec; lia].
Qed.

Lemma shl_align_value (m : positive) (e e' : Z) :
  e' <= e -> Z.pos (fst (shl_align m e e')) = Z.pos m * 2 ^ (e - e').
Proof.
  intros H. unfold shl_align. destruct (e' - e) as [|s|s] eqn:Hs; simpl fst; try lia.
  - replace (e - e') with 0 by lia. lia.
  - change (Pos.iter xO m s) with (shift_pos s m). rewrite shift_pos_value.
    f_equal. f_equal. lia.
Qed.

(** Whole numbers add without rounding while the sum stays below [2^53]. *)
Lemma SFadd_whole (a b : Z) :
  0 <= a -> 0 <= b -> a + b < 2 ^ 53 ->
  SFadd prec emax (canon a) (canon b) = canon (a + b).
Proof.
  intros Ha Hb Hab.
  destruct (Z.eq_dec a 0) as [->|Ha0].
  { destruct (Z.eq_dec b 0) as [->|Hb0]; [reflexivity|].
    destruct (canon_pos b) as (qb & E & _); [lia|].
    change (0 + b) with b. rewrite E. reflexivity. }
  destruct (canon_pos a) as (qa & Ea & Hqa & _); [lia|].
  destruct (Z.eq_dec b 0) as [->|Hb0].
  { rewrite Z.add_0_r, Ea. reflexivity. }
  destruct (canon_pos b) as (qb & Eb & Hqb & _); [lia|].
  rewrite Ea, Eb.
  pose proof (log2_small a ltac:(lia)) as Hla.
  pose proof (log2_small b ltac:(lia)) as Hlb.
  unfold SFadd. simpl cond_Zopp.
  set (ez := Z.min (Z.log2 a - 52) (Z.log2 b - 52)).
  assert (Hez : -52 <= ez <= 0) by (unfold ez; lia).
  pose proof (shl_align_value qa (Z.log2 a - 52) ez ltac:(unfold ez; lia)) as Va.
  pose proof (shl_align_value qb (Z.log2 b - 52) ez ltac:(unfold ez; lia)) as Vb.
  rewrite <- Pos2Z.inj_add.
  replace ez with (- (- ez)) at 3 by lia.
  apply normalize_whole; [lia|lia|].
  rewrite Pos2Z.inj_add, Va, Vb, Hqa, Hqb.
  rewrite <- !Z.mul_assoc, <- !Z.pow_add_r by lia.
  replace (52 - Z.log2 a + (Z.log2 a - 52 - ez)) with (- ez) by lia.
  replace (52 - Z.log2 b + (Z.log2 b - 52 - ez)) with (- ez) by lia.
  ring.
Qed.

(** Whole numbers below [2^53] compare as the integers they are. *)
Lemma SFleb_whole (a b : Z) :
  0 <= a -> a <= b -> b < 2 ^ 53 -> SFleb (canon a) (canon b) = true.
Proof.
  intros Ha Hab Hb. unfold SFleb.
  destruct (Z.eq_dec b 0) as [->|Hb0].
  { replace a with 0 by lia. reflexivity. }
  destruct (canon_pos b) as (qb & -> & Hqb & _); [lia|].
  destruct (Z.eq_dec a 0) as [->|Ha0]; [reflexivity|].
  destruct (canon_pos a) as (qa & -> & Hqa & _); [lia|].
  pose proof (log2_small a ltac:(lia)) as Hla.
  pose proof (log2_small b ltac:(lia)) as Hlb.
  pose proof (Z.log2_le_mono a b Hab) as Hm.
  simpl SFcompare.
  destruct (Z.compare_spec (Z.log2 a - 52) (Z.log2 b - 52)) as [He|He|He]; try lia; try reflexivity.
  replace (Pos.compare_cont Eq qa qb) with (Z.pos qa ?= Z.pos qb) by reflexivity.
  rewrite Hqa, Hqb. replace (Z.log2 b) with (Z.log2 a) by lia.
  pose proof (pow2_pos (52 - Z.log2 a) ltac:(lia)) as Hp.
  destruct (Z.compare_spec (a * 2 ^ (52 - Z.log2 a)) (b * 2 ^ (52 - Z.log2 a))); try reflexivity.
  nia.
Qed.

Lemma of_Z_canon (n : Z) : 0 <= n < 2 ^ 53 -> Prim2SF (of_Z n) = canon n.
Proof.
  intros Hn. unfold of_Z.
  assert (E : binary_normalize prec emax n 0 false = canon n).
  { destruct n as [|p|p]; try lia; [reflexivity|].
    change 0 with (- 0). apply normalize_whole; lia. }
  rewrite E. apply Prim2SF_SF2Prim, canon_valid, Hn.
Qed.

Lemma add_whole (a b : Z) :
  0 <= a -> 0 <= b -> a + b < 2 ^ 53 -> (of_Z a + of_Z b)%float = of_Z (a + b).
Proof.
  intros Ha Hb Hab. apply Prim2SF_inj.
  rewrite add_spec, !of_Z_canon by lia. apply SFadd_whole; assumption.
Qed.

Lemma leb_whole (a b : Z) :
  0 <= a -> a <= b -> b < 2 ^ 53 -> (of_Z a <=? of_Z b)%float = true.
Proof.
  intros Ha Hab Hb. rewrite leb_spec, !of_Z_canon by lia. apply SFleb_whole; assumption.
Qed.

(** ** Volumes add up *)

Lemma strict_eq_eq (x y : Nullable string) : strict_eq x y = true -> x = y.
Proof.
  destruct x as [| |a], y as [| |b]; simpl; try discriminate; auto.
  intros H. apply String.eqb_eq in H. congruence.
Qed.

Lemma strict_eq_refl (x : Nullable string) : strict_eq x x = true.
Proof. destruct x; simpl; auto. apply String.eqb_refl. Qed.

Section Volumes.
Variable units : MatchBet -> Z.

Lemma sum_units_nonneg (l : list MatchBet) :
  whole_amounts units l -> 0 <= sum_units units l.
Proof. induction 1 as [|x l [Hx _] Hl IH]; simpl; lia. Qed.

Lemma whole_amounts_filter (f : MatchBet -> bool) (l : list MatchBet) :
  whole_amounts units l -> whole_amounts units (filter f l).
Proof.
  induction 1 as [|x l Hx Hl IH]; simpl; [constructor|].
  destruct (f x); [constructor|]; assumption.
Qed.

Lemma fold_whole (l : list MatchBet) (acc : Z) :
  whole_amounts units l -> 0 <= acc -> acc + sum_units units l < 2 ^ 53 ->
  fold_left (fun sum x => (sum + amount_of x)%float) l (of_Z acc) =
  of_Z (acc + sum_units units l).
Proof.
  intros H. revert acc. induction H as [|x l [Hx Ex] Hl IH]; intros acc Ha Hb; simpl in *.
  - rewrite Z.add_0_r. reflexivity.
  - pose proof (sum_units_nonneg l Hl).
    rewrite Ex, add_whole by lia. rewrite IH by lia. f_equal. lia.
Qed.

(** The reduction of whole amounts is their exact sum. *)
Lemma reduce_whole (l : list MatchBet) :
  whole_amounts units l -> sum_units units l < 2 ^ 53 ->
  reduce_amounts l = of_Z (sum_units units l).
Proof.
  intros H Hb. unfold reduce_amounts.
  change 0%float with (of_Z 0). rewrite (fold_whole l 0 H) by lia. reflexivity.
Qed.

(** With distinct labels every bet is on side A, on side B or on neither. *)
Lemma sum_units_split (a b : Nullable string) (l : list MatchBet) :
  strict_eq a b = false ->
  sum_units units l =
  sum_units units (filter (on_side a) l) + sum_units units (filter (on_side b) l)
  + sum_units units (filter (neither a b) l).
Proof.
  intros Hab. induction l as [|x l IH]; simpl; [reflexivity|].
  unfold neither at 1.
  destruct (on_side a x) eqn:Ea, (on_side b x) eqn:Eb; simpl; try lia.
  exfalso. unfold on_side in *.
  apply strict_eq_eq in Ea, Eb. rewrite <- Ea, <- Eb, strict_eq_refl in Hab. discriminate.
Qed.

(** C7, as the code has it. When the two side labels differ and every
    amount is a whole number that is not negative, with a total below
    [2^53] (so that no addition rounds), the total volume is the side-A
    volume plus the side-B volume plus the volume on neither side, and is
    at least the two side volumes together. *)
Theorem volumes_add_up (l : list MatchBet) (a b : Nullable string) :
  strict_eq a b = false ->
  whole_amounts units l ->
  sum_units units l < 2 ^ 53 ->
  let v := aggregate l a b in
  let rest := reduce_amounts (filter (neither a b) l) in
  total v = (side_a_volume v + side_b_volume v + rest)%float /\
  (side_a_volume v + side_b_volume v <=? total v)%float = true.
Proof.
  intros Hab Hw Hb v rest. subst v rest. simpl.
  pose proof (sum_units_split a b l Hab) as Hs.
  pose proof (whole_amounts_filter (on_side a) l Hw) as Wa.
  pose proof (whole_amounts_filter (on_side b) l Hw) as Wb.
  pose proof (whole_amounts_filter (neither a b) l Hw) as Wn.
  pose proof (sum_units_nonneg _ Wa). pose proof (sum_units_nonneg _ Wb).
  pose proof (sum_units_nonneg _ Wn).
  rewrite (reduce_whole l Hw Hb).
  rewrite (reduce_whole _ Wa), (reduce_whole _ Wb), (reduce_whole _ Wn) by lia.
  rewrite !add_whole by lia. split.
  - f_equal. exact Hs.
  - apply leb_whole; lia.
Qed.

End Volumes.

(** C7, as the claim has it, fails three times.  With the same label on
    both sides a bet counts for side A and for side B.  Amounts with a
    fraction add up differently in a different order: 0.2 and 0.1 on Lions
    with 0.3 on Tigers between them give a total just below the two side
    volumes together.  And a negative amount on neither side brings the
    total below the side volumes. *)
Lemma volumes_do_not_add_up :
  let once := [bet_on (val "Lions") (val 10%float)] in
  let v := aggregate once (val "Lions") (val "Lions") in
  let rest := reduce_amounts (filter (neither (val "Lions") (val "Lions")) once) in
  let cents := [bet_on (val "Lions") (val 0.2%float); bet_on (val "Tigers") (val 0.3%float);
                bet_on (val "Lions") (val 0.1%float)] in
  let v' := aggregate cents (val "Lions") (val "Tigers") in
  let rest' := reduce_amounts (filter (neither (val "Lions") (val "Tigers")) cents) in
  let owed := [bet_on (val "Lions") (val 10%float); bet_on (val "Bears") (val (-5)%float)] in
  let v'' := aggregate owed (val "Lions") (val "Tigers") in
  (total v =? side_a_volume v + side_b_volume v + rest)%float = false /\
  (side_a_volume v + side_b_volume v <=? total v)%float = false /\
  (total v' =? side_a_volume v' + side_b_volume v' + rest')%float = false /\
  (side_a_volume v' + side_b_volume v' <=? total v')%float = false /\
  (side_a_volume v'' + side_b_volume v'' <=? total v'')%float = false.
Proof. vm_compute. repeat split. Qed.

Lemma volumes_add_up_witness :
  let l := [bet_on (val "Lions") (val 30%float); bet_on (val "Tigers") (val 20%float);
            bet_on null undefined; bet_on (val "Bears") (val 5%float)] in
  let v := aggregate l (val "Lions") (val "Tigers") in
  total v = 55%float /\
  (side_a_volume v + side_b_volume v <=? total v)%float = true.
Proof.
  intros l v.
  pose (units := fun x : MatchBet =>
                   match bet_amount x with
                   | val a => if (a =? 30)%float then 30
                              else if (a =? 20)%float then 20
                              else if (a =? 5)%float then 5 else 0
                   | _ => 0
                   end).
  assert (Hw : whole_amounts units l).
  { repeat constructor; vm_compute; discriminate. }
  destruct (volumes_add_up units l (val "Lions") (val "Tigers") eq_refl Hw eq_refl)
    as [E L].
  split; [|exact L]. vm_compute. reflexivity.
Defined.

(** * Further properties *)

(** ** The loaders *)

Section LoaderOutcomes.
Context {B : Builtins}.

(** X1. [fetchGame] never throws and always ends with [loading] false.  It
    sends one request and writes nothing.  The game is set, to the reply's
    data, only when the reply carries no error; on an error in the reply or
    a rejected promise the game stays as it was and one line is logged. *)
Theorem fetchGame_outcome (gw : Gateway) (c : Session) (w : World) :
  let w' := fst (run gw (fetchGame c) w) in
  snd (run gw (fetchGame c) w) = Returned tt /\
  loading (session w') = false /\
  requests w' = requests w ++ [SelectGame (route_id c)] /\
  store w' = store w /\
  error (session w') = error (session w) /\
  match gw (SelectGame (route_id c)) with
  | Fulfilled r =>
      match reply_error r with
      | None => game (session w') = data r /\ console w' = console w
      | Some _ =>
          game (session w') = game (session w) /\
          console w' = console w ++ ["Error fetching game:"]
      end
  | Rejected _ =>
      game (session w') = game (session w) /\
      console w' = console w ++ ["Error fetching game:"]
  end.
Proof.
  unfold fetchGame. simpl.
  destruct (gw (SelectGame (route_id c))) as [r|e]; simpl.
  - destruct (reply_error r); simpl; repeat split.
  - repeat split.
Qed.

(** X2. What the page shows once the game request is answered, on a page
    that had no game: the game's page when the reply carries a game and no
    error, the 'Game Not Found' notice in every other case (an error in the
    reply, a reply without data, a rejected promise), never the spinner. *)
Theorem fetchGame_then_render (gw : Gateway) (c : Session) (w : World) :
  game (session w) = None ->
  render (session (fst (run gw (fetchGame c) w))) =
  match gw (SelectGame (route_id c)) with
  | Fulfilled r =>
      match reply_error r, data r with
      | None, Some g => GamePage g
      | _, _ => GameNotFound
      end
  | Rejected _ => GameNotFound
  end.
Proof.
  intros Hg. unfold fetchGame, render. simpl.
  destruct (gw (SelectGame (route_id c))) as [r|e]; simpl.
  - destruct (reply_error r); simpl; [rewrite Hg; reflexivity|].
    destruct (data r); reflexivity.
  - rewrite Hg. reflexivity.
Qed.

(** X3. [fetchUserBalance] asks nothing when there is no user.  With a
    user it sends one request; the balance changes only when the reply
    carries no error and a row whose balance is not [undefined] (a [null]
    balance becomes 0), and nothing else of the state changes.  A rejected
    promise is not caught: the call throws. *)
Theorem fetchUserBalance_outcome (gw : Gateway) (c : Session) (w : World) :
  match user c with
  | None => run gw (fetchUserBalance c) w = (w, Returned tt)
  | Some u =>
      let w' := fst (run gw (fetchUserBalance c) w) in
      requests w' = requests w ++ [SelectBalance (user_id u)] /\
      store w' = store w /\
      console w' = console w /\
      match gw (SelectBalance (user_id u)) with
      | Rejected e =>
          snd (run gw (fetchUserBalance c) w) = Thrown e /\ session w' = session w
      | Fulfilled r =>
          snd (run gw (fetchUserBalance c) w) = Returned tt /\
          session w' =
          match reply_error r, data r with
          | None, Some {| balance := null |} =>
              apply_setter (setUserBalance 0%float) (session w)
          | None, Some {| balance := val x |} =>
              apply_setter (setUserBalance x) (session w)
          | _, _ => session w
          end
      end
  end.
Proof.
  unfold fetchUserBalance. destruct (user c) as [u|]; [|reflexivity].
  simpl. destruct (gw (SelectBalance (user_id u))) as [r|e]; simpl.
  - destruct (reply_error r), (data r) as [[[| |x]]|]; simpl; repeat split.
  - repeat split.
Qed.

End LoaderOutcomes.

Section BetsOutcome.
Context {B : Builtins}.

(** X4. [fetchMatchBets] with a route parameter never throws, writes nothing
    and always ends with [betsLoading] false, whatever it had set before.
    When both requests are fulfilled the list becomes the assembly of the
    two replies (a reply without data counts as no rows, and the error
    field of a reply is not read) and the three
    volumes are the aggregate of that list under the side labels of the
    closure's game.  When a promise is rejected the list and the volumes
    stay as they were and one line is logged; after a rejected first
    request the second is never sent. *)
Theorem fetchMatchBets_outcome (gw : Gateway) (c : Session) (w : World) (i : string) :
  route_id c = Some i ->
  truthy_string i = true ->
  let w' := fst (run gw (fetchMatchBets c) w) in
  let s' := session w' in
  snd (run gw (fetchMatchBets c) w) = Returned tt /\
  betsLoading s' = false /\
  store w' = store w /\
  match gw (SelectWinBets i), gw (SelectScoreBets i) with
  | Fulfilled rw, Fulfilled rs =>
      matchBets s' = assemble (data rw) (data rs) /\
      {| total := totalVolume s'; side_a_volume := teamAVolume s';
         side_b_volume := teamBVolume s' |} =
        aggregate (matchBets s') (side_a (game c)) (side_b (game c)) /\
      console w' = console w /\
      requests w' = requests w ++ [SelectWinBets i; SelectScoreBets i]
  | Fulfilled _, Rejected _ =>
      matchBets s' = matchBets (session w) /\
      totalVolume s' = totalVolume (session w) /\
      teamAVolume s' = teamAVolume (session w) /\
      teamBVolume s' = teamBVolume (session w) /\
      console w' = console w ++ ["Error fetching bets:"] /\
      requests w' = requests w ++ [SelectWinBets i; SelectScoreBets i]
  | Rejected _, _ =>
      matchBets s' = matchBets (session w) /\
      totalVolume s' = totalVolume (session w) /\
      teamAVolume s' = teamAVolume (session w) /\
      teamBVolume s' = teamBVolume (session w) /\
      console w' = console w ++ ["Error fetching bets:"] /\
      requests w' = requests w ++ [SelectWinBets i]
  end.
Proof.
  intros Hi Ht. unfold fetchMatchBets. rewrite Hi, Ht. simpl.
  destruct (gw (SelectWinBets i)) as [rw|e]; simpl.
  - destruct (gw (SelectScoreBets i)) as [rs|e]; simpl.
    + rewrite <- !app_assoc. simpl. repeat split.
    + rewrite <- !app_assoc. simpl. repeat split.
  - destruct (gw (SelectScoreBets i)); repeat split.
Qed.

(** X5. Without a route parameter [fetchMatchBets] does nothing at all: no
    request, no change of state, and [betsLoading] keeps its value. *)
Theorem fetchMatchBets_without_id (gw : Gateway) (c : Session) (w : World) :
  truthy_id (route_id c) = false ->
  run gw (fetchMatchBets c) w = (w, Returned tt).
Proof.
  unfold truthy_id, fetchMatchBets. destruct (route_id c) as [i|]; [|reflexivity].
  intros H. rewrite H. reflexivity.
Qed.


Lemma filter_none {A} (f : A -> bool) (l : list A) :
  Forall (fun x => f x = false) l -> filter f l = [].
Proof. induction 1 as [|x l Hx Hl IH]; simpl; [|rewrite Hx]; auto. Qed.

Lemma assemble_teams (P : Nullable string -> Prop)
    (winBets : option (list WinBetRow)) (scoreBets : option (list ScoreBetRow)) :
  Forall (fun r => P (wb_team r)) (or_empty winBets) ->
  Forall (fun r => P (sb_team r)) (or_empty scoreBets) ->
  Forall (fun b => P (team b)) (assemble winBets scoreBets).
Proof.
  intros Hw Hs. unfold assemble.
  eapply Permutation_Forall; [apply sort_permutation|].
  apply Forall_app. split; apply Forall_map; assumption.
Qed.

(** X7. A [fetchMatchBets] whose closure has no game (as the one the mount
    effect calls: the game is not loaded yet, and the effect does not run
    again when it is) compares every bet's team with [undefined].  For rows
    whose team is a string or [null], both side volumes come out as zero
    whatever the bets, next to a total that counts them all. *)
Theorem side_volumes_without_game (gw : Gateway) (c : Session) (w : World) (i : string)
    (rw : Reply (list WinBetRow)) (rs : Reply (list ScoreBetRow)) :
  route_id c = Some i ->
  truthy_string i = true ->
  game c = None ->
  gw (SelectWinBets i) = Fulfilled rw ->
  gw (SelectScoreBets i) = Fulfilled rs ->
  Forall (fun r => wb_team r <> undefined) (or_empty (data rw)) ->
  Forall (fun r => sb_team r <> undefined) (or_empty (data rs)) ->
  let s' := session (fst (run gw (fetchMatchBets c) w)) in
  teamAVolume s' = 0%float /\
  teamBVolume s' = 0%float /\
  totalVolume s' = reduce_amounts (assemble (data rw) (data rs)).
Proof.
  intros Hi Ht Hg Hw Hs Fw Fs s'.
  pose proof (assemble_teams (fun t => t <> undefined) _ _ Fw Fs) as Ft.
  assert (Hn : filter (on_side undefined) (assemble (data rw) (data rs)) = []).
  { apply filter_none. revert Ft. apply Forall_impl. intros b Hb.
    unfold on_side. destruct (team b); simpl; auto. contradiction. }
  subst s'. unfold fetchMatchBets. rewrite Hi, Ht, Hg. simpl.
  rewrite Hw. simpl.
  rewrite Hs. simpl. rewrite Hn. repeat split.
Qed.

(** X8. No loader ever sets the error message, touches the draft or the
    [submitting] flag, or writes to the store, whatever the store answers:
    a failed load is silent. *)
Theorem loaders_are_silent (gw : Gateway) (c : Session) (w : World) :
  Forall (fun p : Prog unit =>
            let w' := fst (run gw p w) in
            error (session w') = error (session w) /\
            betAmount (session w') = betAmount (session w) /\
            prediction (session w') = prediction (session w) /\
            submitting (session w') = submitting (session w) /\
            store w' = store w)
         [fetchGame c; fetchUserBalance c; fetchMatchBets c].
Proof.
  destruct (fetchGame_quiet c), (fetchUserBalance_quiet c), (fetchMatchBets_quiet c).
  repeat constructor; apply run_quiet; assumption.
Qed.

End BetsOutcome.

(** ** More of [placeBet] *)

Section MoreOfPlaceBet.
Context {B : Builtins}.

(** The messages of the five checks. *)
Lemma submit_decides (gw : Gateway) (w : World) (u : User) (g : Game) :
  user (session w) = Some u ->
  game (session w) = Some g ->
  (store (submit gw w) = store w /\
   requests (submit gw w) = requests w /\
   betAmount (session (submit gw w)) = betAmount (session w) /\
   prediction (session (submit gw w)) = prediction (session w) /\
   submitting (session (submit gw w)) = false /\
   In (error (session (submit gw w)))
      ["This game is not live."; "Enter a valid amount"; "Insufficient balance";
       "Select a team"; "Select a valid score range"]) \/
  (funded (session w) g /\ game_type g = "win" /\
   truthy_string (prediction (session w)) = true /\
   submit gw w = placed gw (InsertWin (win_row u g (session w))) (session w) w) \/
  (funded (session w) g /\ game_type g <> "win" /\
   PrimFloat.is_nan (parseInt (prediction (session w))) = false /\
   submit gw w = placed gw (InsertScore (score_row u g (session w))) (session w) w).
Proof.
  intros Hu Hg.
  destruct (String.eqb (game_status g) "live") eqn:Hl.
  2:{ left. unfold submit, placeBet. rewrite Hu, Hg, Hl. simpl. repeat split. auto. }
  destruct (invalid_amount (draft_amount (session w))) eqn:Ha.
  { left. unfold submit, placeBet, invalid_amount, draft_amount in *.
    rewrite Hu, Hg, Hl, Ha. simpl. repeat split. auto. }
  destruct (userBalance (session w) <? draft_amount (session w))%float eqn:Hb.
  { left. unfold submit, placeBet, invalid_amount, draft_amount in *.
    rewrite Hu, Hg, Hl, Ha, Hb. simpl. repeat split. auto. }
  assert (Hf : funded (session w) g).
  { apply String.eqb_eq in Hl. repeat split; assumption. }
  destruct (String.eqb (game_type g) "win") eqn:Ht.
  - destruct (truthy_string (prediction (session w))) eqn:Hp.
    + right. left. apply String.eqb_eq in Ht. repeat split; try apply Hf; auto.
      apply submit_win; assumption.
    + left. unfold submit, placeBet, invalid_amount, draft_amount in *.
      rewrite Hu, Hg, Hl, Ha, Hb, Ht, Hp. simpl. repeat split. auto 6.
  - destruct (PrimFloat.is_nan (parseInt (prediction (session w)))) eqn:Hp.
    + left. unfold submit, placeBet, invalid_amount, draft_amount in *.
      rewrite Hu, Hg, Hl, Ha, Hb, Ht, Hp. simpl. repeat split. auto 7.
    + right. right. apply String.eqb_neq in Ht. repeat split; try apply Hf; auto.
      apply submit_score; assumption.
Qed.

(** X9. The team check of a win-type game.  A draft that passed the
    liveness, amount and balance checks is rejected with 'Select a team',
    nothing sent and nothing written, exactly when no team is selected.
    Any other prediction is sent as the team of the wager, whether or not
    it names a side of the game, with predicted percentage 50. *)
Theorem win_selection_checked (gw : Gateway) (w : World) (u : User) (g : Game) :
  user (session w) = Some u ->
  game (session w) = Some g ->
  funded (session w) g ->
  game_type g = "win" ->
  (prediction (session w) = "" ->
     error (session (submit gw w)) = "Select a team" /\
     store (submit gw w) = store w /\
     requests (submit gw w) = requests w /\
     betAmount (session (submit gw w)) = betAmount (session w)) /\
  (prediction (session w) <> "" ->
     error (session (submit gw w)) <> "Select a team" /\
     exists row,
       wi_team row = prediction (session w) /\
       wi_predicted_percentage row = 50%float /\
       wi_bet_amount row = draft_amount (session w) /\
       wi_user_id row = user_id u /\ wi_game_id row = game_id g /\
       store (submit gw w) = commit (InsertWin row) (gw (InsertWin row)) (store w)).
Proof.
  intros Hu Hg Hf Ht. split; intros Hp.
  - destruct Hf as (Hl & Ha & Hb).
    unfold submit, placeBet, invalid_amount, draft_amount in *.
    rewrite Hu, Hg, Hl, Ht, Ha, Hb, Hp. simpl. repeat split.
  - assert (Hp' : truthy_string (prediction (session w)) = true).
    { destruct (prediction (session w)); [contradiction|reflexivity]. }
    rewrite (submit_win gw w u g Hu Hg Hf Ht Hp').
    pose proof (placed_world gw (InsertWin (win_row u g (session w))) (session w) w)
      as (D & _ & [E|E]); (split; [rewrite E; discriminate|]);
      exists (win_row u g (session w)); repeat split; exact D.
Qed.


Lemma submit_placed (gw : Gateway) (w : World) (u : User) (g : Game) :
  user (session w) = Some u -> game (session w) = Some g ->
  funded (session w) g ->
  selected (session w) g ->
  submit gw w = placed gw (draft_row u g (session w)) (session w) w.
Proof.
  intros Hu Hg Hf Hs. unfold selected, draft_row in *.
  destruct (String.eqb (game_type g) "win") eqn:Ht.
  - apply String.eqb_eq in Ht. apply submit_win; assumption.
  - apply String.eqb_neq in Ht. apply submit_score; assumption.
Qed.

Lemma update_with_error (e : string) (w : World) :
  update (setError "") (with_error e w) = update (setError "") w.
Proof. reflexivity. Qed.

(** X11. With a user and a game, what a submit leaves does not depend on
    the message the page showed before: the handler clears it first.  The
    message afterwards is empty, one of the five of the checks, or the
    generic one, and [submitting] is false. *)
Theorem submit_replaces_the_message (gw : Gateway) (w : World) (u : User) (g : Game)
    (e : string) :
  user (session w) = Some u ->
  game (session w) = Some g ->
  submit gw (with_error e w) = submit gw w /\
  submitting (session (submit gw w)) = false /\
  In (error (session (submit gw w)))
     [""; "This game is not live."; "Enter a valid amount"; "Insufficient balance";
      "Select a team"; "Select a valid score range"; "Failed to place bet."].
Proof.
  intros Hu Hg. split.
  - unfold submit.
    change (placeBet (session (with_error e w))) with (placeBet (session w)).
    unfold placeBet. rewrite Hu, Hg.
    cbn [finally try_catch bind set run]. rewrite update_with_error. reflexivity.
  - destruct (submit_decides gw w u g Hu Hg) as [H|[(_ & _ & _ & E)|(_ & _ & _ & E)]].
    + destruct H as (_ & _ & _ & _ & S & I). split; [exact S|]. simpl in *. tauto.
    + rewrite E.
      pose proof (placed_world gw (InsertWin (win_row u g (session w))) (session w) w)
        as (_ & S & [I|I]); (split; [exact S|]); rewrite I; simpl; auto 8.
    + rewrite E.
      pose proof (placed_world gw (InsertScore (score_row u g (session w))) (session w) w)
        as (_ & S & [I|I]); (split; [exact S|]); rewrite I; simpl; auto 8.
Qed.

(** The refresh throws when the balance request is rejected. *)
Lemma refresh_and_clear_throws (gw : Gateway) (c : Session) (w : World) (u : User)
    (e : string) :
  user c = Some u ->
  gw (SelectBalance (user_id u)) = Rejected e ->
  snd (run gw (refresh_and_clear c) w) = Thrown e.
Proof.
  intros Hu Hr. unfold refresh_and_clear. rewrite run_bind.
  pose proof (fetchMatchBets_returns gw c w) as R1.
  destruct (run gw (fetchMatchBets c) w) as [w1 r1]. simpl in R1. subst r1.
  rewrite run_bind. unfold fetchUserBalance at 1. rewrite Hu.
  simpl. rewrite Hr. reflexivity.
Qed.

(** X12. A wager that was written is reported as failed when the balance
    request that follows it is rejected: the store holds what the insert's
    answer committed (the row of the draft, when the reply carries no
    error), the message is 'Failed to place bet.', and the draft is still
    in the form, ready to be submitted a second time. *)
Theorem written_but_reported_failed (gw : Gateway) (w : World) (u : User) (g : Game)
    (r : Resp (draft_row u g (session w))) (e : string) :
  user (session w) = Some u ->
  game (session w) = Some g ->
  funded (session w) g ->
  selected (session w) g ->
  gw (draft_row u g (session w)) = Fulfilled r ->
  gw (SelectBalance (user_id u)) = Rejected e ->
  let w' := submit gw w in
  store w' = commit (draft_row u g (session w)) (Fulfilled r) (store w) /\
  error (session w') = "Failed to place bet." /\
  betAmount (session w') = betAmount (session w) /\
  prediction (session w') = prediction (session w) /\
  submitting (session w') = false /\
  submit_disabled (session w') = false.
Proof.
  intros Hu Hg Hf Hs Hq Hb w'. subst w'.
  rewrite (submit_placed gw w u g Hu Hg Hf Hs).
  set (q := draft_row u g (session w)) in *.
  pose proof (placed_world gw q (session w) w) as (D & S & _). rewrite Hq in D.
  unfold placed in *. rewrite Hq in *.
  pose proof (refresh_and_clear_throws gw (session w) (asked q (Fulfilled r) w) u e Hu Hb)
    as T.
  pose proof (refresh_and_clear_run gw (session w) (asked q (Fulfilled r) w))
    as (_ & _ & _ & R).
  destruct (run gw (refresh_and_clear (session w)) _) as [w1 res].
  simpl in T. subst res. simpl in R. destruct R as (A & P & _).
  simpl in *. repeat split; auto.
Qed.

Lemma fetchMatchBets_fulfilled (gw : Gateway) (c : Session) (w : World) (i : string)
    (rw : Reply (list WinBetRow)) (rs : Reply (list ScoreBetRow)) :
  route_id c = Some i ->
  truthy_string i = true ->
  gw (SelectWinBets i) = Fulfilled rw ->
  gw (SelectScoreBets i) = Fulfilled rs ->
  run gw (fetchMatchBets c) w = (bets_loaded c i rw rs w, Returned tt).
Proof.
  intros Hi Ht Hw Hs. unfold fetchMatchBets. rewrite Hi, Ht.
  cbn [negb finally try_catch bind set await run].
  rewrite Hw. cbn [finally try_catch bind set await run].
  rewrite Hs. reflexivity.
Qed.

Lemma fetchUserBalance_fulfilled (gw : Gateway) (c : Session) (w : World) (u : User)
    (rb : Reply BalanceRow) (x : number) :
  user c = Some u ->
  gw (SelectBalance (user_id u)) = Fulfilled rb ->
  reply_error rb = None ->
  data rb = Some {| balance := val x |} ->
  run gw (fetchUserBalance c) w = (balance_loaded u rb x w, Returned tt).
Proof.
  intros Hu Hb He Hd. unfold fetchUserBalance. rewrite Hu.
  cbn [bind await run]. rewrite Hb. cbn [bind run]. rewrite He, Hd. reflexivity.
Qed.

(** X13. A submit that the store answers throughout.  Four requests leave
    the page, in this order: the insert, the two lists of the game's bets,
    the balance.  Afterwards the list is the assembly of the two replies,
    the volumes are its aggregate under the labels of the game the form was
    rendered with, the balance is the one of the reply, the draft and the
    message are empty and the button is enabled again. *)
Theorem accepted_submit_refreshes (gw : Gateway) (w : World) (u : User) (g : Game)
    (i : string) (r : Resp (draft_row u g (session w)))
    (rw : Reply (list WinBetRow)) (rs : Reply (list ScoreBetRow))
    (rb : Reply BalanceRow) (x : number) :
  user (session w) = Some u ->
  game (session w) = Some g ->
  route_id (session w) = Some i ->
  truthy_string i = true ->
  funded (session w) g ->
  selected (session w) g ->
  gw (draft_row u g (session w)) = Fulfilled r ->
  gw (SelectWinBets i) = Fulfilled rw ->
  gw (SelectScoreBets i) = Fulfilled rs ->
  gw (SelectBalance (user_id u)) = Fulfilled rb ->
  reply_error rb = None ->
  data rb = Some {| balance := val x |} ->
  let w' := submit gw w in
  let s' := session w' in
  requests w' =
    requests w ++ [draft_row u g (session w); SelectWinBets i; SelectScoreBets i;
                   SelectBalance (user_id u)] /\
  matchBets s' = assemble (data rw) (data rs) /\
  {| total := totalVolume s'; side_a_volume := teamAVolume s';
     side_b_volume := teamBVolume s' |} =
    aggregate (matchBets s') (game_teama g) (game_teamb g) /\
  userBalance s' = x /\
  betAmount s' = "" /\ prediction s' = "" /\ error s' = "" /\
  submitting s' = false /\ betsLoading s' = false.
Proof.
  intros Hu Hg Hi Ht Hf Hs Hq Hw Hsc Hb He Hd w' s'. subst s' w'.
  rewrite (submit_placed gw w u g Hu Hg Hf Hs).
  generalize dependent (draft_row u g (session w)). intros q r Hq.
  unfold placed. rewrite Hq.
  unfold refresh_and_clear.
  rewrite run_bind, (fetchMatchBets_fulfilled gw _ _ i rw rs Hi Ht Hw Hsc).
  rewrite run_bind, (fetchUserBalance_fulfilled gw _ _ u rb x Hu Hb He Hd).
  unfold bets_loaded, balance_loaded, asked. rewrite Hg.
  cbn. rewrite <- !app_assoc. repeat split.
Qed.

End MoreOfPlaceBet.

(** ** The submit button comes back *)

(** A [finally] that lowers the flag lowers it on every exit. *)
Lemma flag_down_finally {A} (b : bool) (p : Prog A) :
  flag_down b (finally p (set (setSubmitting false))).
Proof.
  revert b. induction p as [a|e|a k IH|m k IH|q k IH]; intros b; simpl in *; auto.
  destruct a; auto.
Qed.

Lemma advance_flag_down (p : Prog unit) (w : World) :
  flag_down (submitting (session w)) p ->
  match snd (advance p w) with
  | Waiting q k => forall o, flag_down (submitting (session (fst (advance p w)))) (k o)
  | _ => submitting (session (fst (advance p w))) = false
  end.
Proof.
  revert w; induction p as [a|e|a k IH|m k IH|q k IH]; intros w Hp; simpl in *; auto.
  - apply IH. destruct a; simpl; exact Hp.
  - apply (IH (log m w)). exact Hp.
Qed.

Lemma task_settles_same_flag (s s' : Session) (t : Task) :
  submitting s' = submitting s -> task_settles s t -> task_settles s' t.
Proof. unfold task_settles. intros E. rewrite E. auto. Qed.

Lemma page_settles_same_flag (pg pg' : Page) :
  tasks pg' = tasks pg ->
  submitting (session (world pg')) = submitting (session (world pg)) ->
  page_settles pg -> page_settles pg'.
Proof.
  unfold page_settles, in_flight. intros Et Es [Hf Hc]. rewrite Et, Es. split; [|exact Hc].
  revert Hf. apply Forall_impl. intros t. apply task_settles_same_flag, Es.
Qed.

Lemma start_loader_settles (h : Handler) (p : Prog unit) (pg : Page) :
  is_placeBet h = false -> all_setters no_flag p ->
  page_settles pg -> page_settles (start h p pg).
Proof.
  intros Hh Hp [Hf Hc]. unfold start.
  destruct (advance_no_flag p (world pg) Hp) as [E K].
  destruct (advance p (world pg)) as [w [| |q k]]; simpl in *.
  - apply (page_settles_same_flag pg); auto. split; assumption.
  - apply (page_settles_same_flag pg); auto. split; assumption.
  - split; simpl.
    + apply Forall_app. split.
      * revert Hf. apply Forall_impl. intros t. apply task_settles_same_flag, E.
      * constructor; [|constructor]. unfold task_settles. simpl. rewrite Hh. exact I.
    + unfold in_flight in *. simpl. fold (count_placeBet (tasks pg ++ [Build_Task h q k])).
      rewrite count_placeBet_app. simpl. rewrite Hh, E. unfold count_placeBet. 
      rewrite Nat.add_0_r. exact Hc.
Qed.

Lemma start_placeBet_settles (p : Prog unit) (pg : Page) :
  in_flight pg = O ->
  flag_down (submitting (session (world pg))) p ->
  page_settles (start H_placeBet p pg).
Proof.
  intros H0 Hp. unfold start.
  pose proof (advance_flag_down p (world pg) Hp) as K.
  pose proof (count_placeBet_zero _ H0) as Hl.
  assert (Hrest : forall s, Forall (task_settles s) (tasks pg)).
  { intros s. revert Hl. apply Forall_impl. intros t Ht.
    unfold task_settles. rewrite Ht. exact I. }
  destruct (advance p (world pg)) as [w [| |q k]]; simpl in *.
  - split; simpl; [apply Hrest|auto].
  - split; simpl; [apply Hrest|auto].
  - split; simpl.
    + apply Forall_app. split; [apply Hrest|].
      constructor; [|constructor]. unfold task_settles. simpl. exact K.
    + unfold in_flight. simpl. fold (count_placeBet (tasks pg ++ [Build_Task H_placeBet q k])).
      rewrite count_placeBet_app. simpl. lia.
Qed.

Section Settling.
Context {B : Builtins}.

(** [placeBet], called with the flag down, leaves it down on every exit. *)
Lemma placeBet_flag_down (c : Session) : flag_down false (placeBet c).
Proof.
  unfold placeBet. destruct (user c) as [u|], (game c) as [g|]; try reflexivity.
  apply flag_down_finally.
Qed.

Lemma run_effect_settles (pg : Page) : page_settles pg -> page_settles (run_effect pg).
Proof.
  intros H. unfold run_effect.
  set (c := session (world pg)).
  assert (H1 : page_settles (if truthy_id (route_id c)
                             then start H_fetchGame (fetchGame c) pg else pg)).
  { destruct (truthy_id (route_id c)); [|exact H].
    apply start_loader_settles; auto. apply quiet_no_flag, fetchGame_quiet. }
  set (pg1 := if truthy_id (route_id c) then _ else pg) in *.
  assert (H2 : page_settles (match user c with
                             | Some _ => start H_fetchUserBalance (fetchUserBalance c) pg1
                             | None => pg1 end)).
  { destruct (user c); [|exact H1].
    apply start_loader_settles; auto. apply quiet_no_flag, fetchUserBalance_quiet. }
  set (pg2 := match user c with Some _ => _ | None => pg1 end) in *.
  destruct (truthy_id (route_id c)); [|exact H2].
  apply start_loader_settles; auto. apply quiet_no_flag, fetchMatchBets_quiet.
Qed.

Lemma step_settles (ev : Event) (pg : Page) :
  page_ok pg -> page_settles pg -> page_settles (step ev pg).
Proof.
  intros Hok H. destruct ev as [rid u|v|v|idx| |i gw]; unfold step.
  - apply run_effect_settles. apply (page_settles_same_flag pg); auto.
  - destruct (form_shown _); [|exact H]. apply (page_settles_same_flag pg); auto.
  - destruct (form_shown _) as [g|]; [|exact H].
    destruct (String.eqb _ _); [|exact H]. apply (page_settles_same_flag pg); auto.
  - destruct (form_shown _) as [g|]; [|exact H].
    destruct (String.eqb _ _); [exact H|].
    destruct (Nat.ltb _ _); [|exact H]. apply (page_settles_same_flag pg); auto.
  - destruct (form_shown _) as [g|]; [|exact H].
    unfold submit_disabled. destruct (submitting (session (world pg))) eqn:Es; [exact H|].
    apply start_placeBet_settles.
    + destruct Hok as [Hf Hc].
      destruct (Nat.eq_dec (in_flight pg) 0) as [E0|E0]; [exact E0|]. exfalso.
      destruct (count_placeBet_positive (tasks pg)) as (t & Hin & Ht).
      { unfold in_flight in E0. unfold count_placeBet. lia. }
      rewrite Forall_forall in Hf. specialize (Hf t Hin). unfold task_ok in Hf.
      rewrite Ht in Hf. destruct Hf as [Hf _]. congruence.
    + rewrite Es. apply placeBet_flag_down.
  - destruct (nth_error (tasks pg) i) as [t|] eqn:Et; [|exact H].
    destruct Hok as [Hf Hc]. destruct H as [Sf Sc].
    pose proof (remove_nth_count i (tasks pg) t Et) as Hn.
    assert (Ht : task_ok (session (world pg)) t).
    { rewrite Forall_forall in Hf. apply Hf. eapply nth_error_In, Et. }
    assert (St : task_settles (session (world pg)) t).
    { rewrite Forall_forall in Sf. apply Sf. eapply nth_error_In, Et. }
    set (pg' := {| world := deliver (pending t) (gw (pending t)) (world pg);
                   tasks := remove_nth i (tasks pg) |}).
    unfold task_ok in Ht. unfold task_settles in St.
    destruct (is_placeBet (handler t)) eqn:Hh.
    + destruct (handler t); try discriminate.
      apply start_placeBet_settles.
      * unfold in_flight in *. simpl. fold (count_placeBet (remove_nth i (tasks pg))).
        fold (count_placeBet (tasks pg)) in Hc. lia.
      * simpl. apply St.
    + apply start_loader_settles; auto.
      split; simpl.
      * apply remove_nth_Forall, Sf.
      * unfold in_flight in *. simpl. fold (count_placeBet (remove_nth i (tasks pg))).
        fold (count_placeBet (tasks pg)) in Sc. intros E. apply Sc. lia.
Qed.

Lemma exec_settles (evs : list Event) (pg : Page) :
  page_ok pg -> page_settles pg -> page_settles (exec evs pg).
Proof.
  unfold exec. revert pg. induction evs as [|ev evs IH]; simpl; intros pg Hok H; [exact H|].
  apply IH; [apply step_ok, Hok|apply step_settles; assumption].
Qed.

(** X14. The submit button comes back.  Whatever events reach the page
    from its mount, and however the store answers, [submitting] is false
    whenever no [placeBet] is suspended: every exit of the handler, the
    early returns of the checks and the catch included, lowers the flag,
    and no loader raises it. *)
Theorem button_enabled_when_idle (rid : option string) (u : option User) (db : Store)
    (evs : list Event) :
  let pg := exec evs (fresh rid u db) in
  in_flight pg = O -> submit_disabled (session (world pg)) = false.
Proof.
  intros pg.
  assert (H : page_settles pg).
  { apply exec_settles; [apply fresh_ok|]. split; [constructor|reflexivity]. }
  apply H.
Qed.

End Settling.

(** ** The bracket a score bet is shown with *)

(** Whole numbers below [2^53] compare as the integers they are. *)
Lemma SFcompare_whole (a b : Z) :
  0 <= a < 2 ^ 53 -> 0 <= b < 2 ^ 53 -> SFcompare (canon a) (canon b) = Some (a ?= b).
Proof.
  intros Ha Hb.
  destruct (Z.eq_dec a 0) as [->|Ha0].
  { destruct b as [|p|p]; try lia; reflexivity. }
  destruct (Z.eq_dec b 0) as [->|Hb0].
  { destruct a as [|p|p]; try lia; reflexivity. }
  destruct (canon_pos a) as (qa & -> & Hqa & _); [lia|].
  destruct (canon_pos b) as (qb & -> & Hqb & _); [lia|].
  pose proof (log2_small a ltac:(lia)) as Hla.
  pose proof (log2_small b ltac:(lia)) as Hlb.
  simpl SFcompare. f_equal.
  destruct (Z.compare_spec (Z.log2 a - 52) (Z.log2 b - 52)) as [He|He|He].
  - replace (Pos.compare_cont Eq qa qb) with (Z.pos qa ?= Z.pos qb) by reflexivity.
    rewrite Hqa, Hqb. replace (Z.log2 b) with (Z.log2 a) by lia.
    pose proof (pow2_pos (52 - Z.log2 a) ltac:(lia)) as Hp.
    destruct (Z.compare_spec (a * 2 ^ (52 - Z.log2 a)) (b * 2 ^ (52 - Z.log2 a))),
             (Z.compare_spec a b); try reflexivity; nia.
  - symmetry. apply Z.compare_lt_iff. apply Z.log2_lt_cancel. lia.
  - symmetry. apply Z.compare_gt_iff. apply Z.log2_lt_cancel. lia.
Qed.

Lemma eqb_whole (a b : Z) :
  0 <= a < 2 ^ 53 -> 0 <= b < 2 ^ 53 -> (of_Z a =? of_Z b)%float = (a =? b).
Proof.
  intros Ha Hb. rewrite eqb_spec, !of_Z_canon by assumption.
  unfold SFeqb. rewrite SFcompare_whole by assumption.
  destruct (Z.compare_spec a b), (Z.eqb_spec a b); try reflexivity; lia.
Qed.

(** Whole numbers subtract without rounding. *)
Lemma SFsub_whole (a b : Z) :
  0 <= b -> b <= a -> a < 2 ^ 53 ->
  SFsub prec emax (canon a) (canon b) = canon (a - b).
Proof.
  intros Hb Hab Ha.
  destruct (Z.eq_dec b 0) as [->|Hb0].
  { rewrite Z.sub_0_r. destruct (Z.eq_dec a 0) as [->|Ha0]; [reflexivity|].
    destruct (canon_pos a) as (qa & -> & _); [lia|]. reflexivity. }
  destruct (canon_pos a) as (qa & Ea & Hqa & _); [lia|].
  destruct (canon_pos b) as (qb & Eb & Hqb & _); [lia|].
  rewrite Ea, Eb.
  pose proof (log2_small a ltac:(lia)) as Hla.
  pose proof (log2_small b ltac:(lia)) as Hlb.
  unfold SFsub. simpl cond_Zopp.
  set (ez := Z.min (Z.log2 a - 52) (Z.log2 b - 52)).
  assert (Hez : -52 <= ez <= 0) by (unfold ez; lia).
  pose proof (shl_align_value qa (Z.log2 a - 52) ez ltac:(unfold ez; lia)) as Va.
  pose proof (shl_align_value qb (Z.log2 b - 52) ez ltac:(unfold ez; lia)) as Vb.
  assert (E : Z.pos (fst (shl_align qa (Z.log2 a - 52) ez)) -
              Z.pos (fst (shl_align qb (Z.log2 b - 52) ez)) = (a - b) * 2 ^ (- ez)).
  { rewrite Va, Vb, Hqa, Hqb.
    rewrite <- !Z.mul_assoc, <- !Z.pow_add_r by lia.
    replace (52 - Z.log2 a + (Z.log2 a - 52 - ez)) with (- ez) by lia.
    replace (52 - Z.log2 b + (Z.log2 b - 52 - ez)) with (- ez) by lia.
    ring. }
  rewrite E.
  destruct (Z.eq_dec a b) as [->|Hne].
  { rewrite Z.sub_diag. reflexivity. }
  pose proof (pow2_pos (- ez) ltac:(lia)) as Hp.
  destruct ((a - b) * 2 ^ (- ez)) as [|P|P] eqn:EP; try nia.
  replace ez with (- (- ez)) by lia.
  apply normalize_whole; lia.
Qed.

Lemma sub_whole (a b : Z) :
  0 <= b -> b <= a -> a < 2 ^ 53 -> (of_Z a - of_Z b)%float = of_Z (a - b).
Proof.
  intros Hb Hab Ha. apply Prim2SF_inj.
  rewrite sub_spec, !of_Z_canon by lia. apply SFsub_whole; assumption.
Qed.

(** A positive whole number is truthy. *)
Lemma truthy_whole (n : Z) : 0 < n < 2 ^ 53 -> truthy_number (of_Z n) = true.
Proof.
  intros Hn. unfold truthy_number, PrimFloat.is_nan, PrimFloat.is_zero.
  change zero with (of_Z 0).
  rewrite !eqb_whole by lia. rewrite Z.eqb_refl.
  destruct (Z.eqb_spec n 0); [lia|reflexivity].
Qed.

Lemma find_whole (m : Z) (s len : nat) :
  0 <= m < 2 ^ 53 -> (Z.of_nat (s + len) < 2 ^ 53) -> (s <= Z.to_nat m)%nat ->
  find (fun k => (of_Z m =? of_Z (Z.of_nat k))%float) (seq s len) =
  if (Z.to_nat m <? s + len)%nat then Some (Z.to_nat m) else None.
Proof.
  intros Hm. revert s. induction len as [|len IH]; intros s Hl Hs; simpl.
  - destruct (Nat.ltb_spec (Z.to_nat m) (s + 0)); [lia|reflexivity].
  - rewrite eqb_whole by lia.
    destruct (Z.eqb_spec m (Z.of_nat s)) as [E|E].
    + subst m. rewrite Nat2Z.id.
      destruct (Nat.ltb_spec s (s + S len)); [reflexivity|lia].
    + rewrite IH by lia. replace (S s + len)%nat with (s + S len)%nat by lia. reflexivity.
Qed.

(** Indexing with a whole number. *)
Lemma array_get_whole {A} (arr : list A) (m : Z) :
  0 <= m < 2 ^ 53 -> Z.of_nat (List.length arr) < 2 ^ 53 ->
  array_get arr (of_Z m) =
  match nth_error arr (Z.to_nat m) with Some a => val a | None => undefined end.
Proof.
  intros Hm Hl. unfold array_get. rewrite find_whole by (simpl; lia). simpl.
  destruct (Nat.ltb_spec (Z.to_nat m) (List.length arr)) as [H|H]; [reflexivity|].
  apply nth_error_None in H. rewrite H. reflexivity.
Qed.

(** X15. The bracket a bet is shown with (line 337).  A predicted score
    that is missing, [null], zero or [NaN] is shown as the first bracket,
    '0 - 50'.  A whole number [n] from 1 to 11 is shown as the [n]-th
    bracket of the table.  Any larger whole number, 12 included, indexes
    past the table: the label is [undefined] and the line reads 'Predicted
    Score: undefined' on a score bet. *)
Theorem bracket_label_shown (b : MatchBet) :
  (predicted_score b = undefined \/ predicted_score b = null \/
   predicted_score b = val 0%float \/ predicted_score b = val nan ->
     bracket_label b = val "0 - 50") /\
  (forall n, 0 < n < 2 ^ 53 -> predicted_score b = val (of_Z n) ->
     bracket_label b =
       match nth_error scoreRanges (Z.to_nat n - 1) with
       | Some r => val r
       | None => undefined
       end /\
     (11 < n -> type b = score -> prediction_text b = "Predicted Score: undefined")).
Proof.
  split.
  - unfold bracket_label. intros [H|[H|[H|H]]]; rewrite H; reflexivity.
  - intros n Hn H.
    assert (E : bracket_label b =
                match nth_error scoreRanges (Z.to_nat n - 1) with
                | Some r => val r
                | None => undefined
                end).
    { unfold bracket_label. rewrite H. unfold or_number. rewrite truthy_whole by assumption.
      change 1%float with (of_Z 1). rewrite sub_whole by lia.
      rewrite array_get_whole by (simpl; lia).
      replace (Z.to_nat (n - 1)) with (Z.to_nat n - 1)%nat by lia. reflexivity. }
    split; [exact E|]. intros Hbig Ht. unfold prediction_text. rewrite Ht, E.
    assert (Hnone : nth_error scoreRanges (Z.to_nat n - 1) = None).
    { apply nth_error_None. simpl. lia. }
    rewrite Hnone. reflexivity.
Qed.

(** X16. From the button to the list.  The value a bracket button puts in
    the draft parses, with the parser on ASCII input, as a number that
    passes the score check, and a bet stored with that number is shown with
    the label of the button that was clicked. *)
Theorem bracket_round_trip (idx : nat) (r : string) (b : MatchBet) :
  nth_error scoreRanges idx = Some r ->
  predicted_score b = val (parseInt_ascii (range_value idx)) ->
  PrimFloat.is_nan (parseInt_ascii (range_value idx)) = false /\
  bracket_label b = val r.
Proof.
  intros Hr Hb. unfold bracket_label. rewrite Hb. clear Hb.
  do 11 (destruct idx as [|idx];
         [injection Hr as <-; split; vm_compute; reflexivity|]).
  destruct idx; discriminate.
Qed.

(** ** The side volumes after the mount *)

Lemma side_zero_keeps (a : Setter) (s : Session) :
  side_zero a -> sides_zero s -> sides_zero (apply_setter a s).
Proof. unfold sides_zero. destruct a; simpl; intros H [Ha Hb]; auto. Qed.

Lemma advance_sides_zero (p : Prog unit) (w : World) :
  setters_when side_zero p -> sides_zero (session w) ->
  sides_zero (session (fst (advance p w))) /\
  match snd (advance p w) with
  | Waiting q k => forall o, teams_given q o -> setters_when side_zero (k o)
  | _ => True
  end.
Proof.
  revert w; induction p as [a|e|a k IH|m k IH|q k IH]; intros w Hp Hs; simpl in *; auto.
  destruct Hp as [Ha Hk]. apply IH; [exact Hk|]. simpl. apply side_zero_keeps; assumption.
Qed.

Lemma start_sides_zero (h : Handler) (p : Prog unit) (pg : Page) :
  setters_when side_zero p -> page_sides_zero pg -> page_sides_zero (start h p pg).
Proof.
  intros Hp [Hs Hf]. unfold start.
  destruct (advance_sides_zero p (world pg) Hp Hs) as [E K].
  destruct (advance p (world pg)) as [w [| |q k]]; simpl in *.
  - split; assumption.
  - split; assumption.
  - split; [exact E|]. simpl. apply Forall_app. split; [exact Hf|].
    constructor; [exact K|constructor].
Qed.

Section AfterMount.
Context {B : Builtins}.

Lemma fetchGame_sides (c : Session) : setters_when side_zero (fetchGame c).
Proof.
  unfold fetchGame. simpl. intros [r|e] _; simpl; [|repeat split].
  destruct (reply_error r); simpl; repeat split.
Qed.

Lemma fetchUserBalance_sides (c : Session) : setters_when side_zero (fetchUserBalance c).
Proof.
  unfold fetchUserBalance. destruct (user c) as [u|]; [|exact I].
  simpl. intros [r|e] _; simpl; [|exact I].
  destruct (reply_error r), (data r) as [[[| |x]]|]; simpl; repeat split.
Qed.

(** A [fetchMatchBets] whose closure has no game. *)
Lemma fetchMatchBets_sides (c : Session) :
  game c = None -> setters_when side_zero (fetchMatchBets c).
Proof.
  intros Hg. unfold fetchMatchBets.
  destruct (route_id c) as [i|]; [|exact I].
  destruct (negb (truthy_string i)); [exact I|].
  rewrite Hg. simpl. split; [exact I|].
  intros [rw|e] Fw; simpl; [|repeat split].
  intros [rs|e] Fs; simpl; [|repeat split].
  pose proof (assemble_teams (fun t => t <> undefined) _ _ Fw Fs) as Ft.
  assert (Hn : filter (on_side undefined) (assemble (data rw) (data rs)) = []).
  { apply filter_none. revert Ft. apply Forall_impl. intros b Hb.
    unfold on_side. destruct (team b); simpl; auto. contradiction. }
  rewrite Hn. repeat split.
Qed.

Lemma run_effect_sides (pg : Page) :
  game (session (world pg)) = None ->
  page_sides_zero pg -> page_sides_zero (run_effect pg).
Proof.
  intros Hg H. unfold run_effect.
  set (c := session (world pg)) in *.
  assert (H1 : page_sides_zero (if truthy_id (route_id c)
                                then start H_fetchGame (fetchGame c) pg else pg)).
  { destruct (truthy_id (route_id c)); [|exact H].
    apply start_sides_zero; auto. apply fetchGame_sides. }
  set (pg1 := if truthy_id (route_id c) then _ else pg) in *.
  assert (H2 : page_sides_zero (match user c with
                                | Some _ => start H_fetchUserBalance (fetchUserBalance c) pg1
                                | None => pg1 end)).
  { destruct (user c); [|exact H1].
    apply start_sides_zero; auto. apply fetchUserBalance_sides. }
  set (pg2 := match user c with Some _ => _ | None => pg1 end) in *.
  destruct (truthy_id (route_id c)); [|exact H2].
  apply start_sides_zero; auto. apply fetchMatchBets_sides, Hg.
Qed.

Lemma step_sides (ev : Event) (pg : Page) :
  calm ev -> page_sides_zero pg -> page_sides_zero (step ev pg).
Proof.
  intros Hc H. destruct ev as [rid u|v|v|idx| |i gw]; unfold step; simpl in Hc.
  - contradiction.
  - destruct (form_shown _); [|exact H]. destruct H as [[Ha Hb] Hf]. repeat split; assumption.
  - destruct (form_shown _) as [g|]; [|exact H].
    destruct (String.eqb _ _); [|exact H].
    destruct H as [[Ha Hb] Hf]. repeat split; assumption.
  - destruct (form_shown _) as [g|]; [|exact H].
    destruct (String.eqb _ _); [exact H|].
    destruct (Nat.ltb _ _); [|exact H].
    destruct H as [[Ha Hb] Hf]. repeat split; assumption.
  - contradiction.
  - destruct (nth_error (tasks pg) i) as [t|] eqn:Et; [|exact H].
    destruct H as [Hs Hf].
    apply start_sides_zero.
    + rewrite Forall_forall in Hf. apply (Hf t); [eapply nth_error_In, Et|apply Hc].
    + split; [exact Hs|]. simpl. apply remove_nth_Forall, Hf.
Qed.

Lemma exec_sides (evs : list Event) (pg : Page) :
  Forall calm evs -> page_sides_zero pg -> page_sides_zero (exec evs pg).
Proof.
  unfold exec. intros Hc. revert pg.
  induction Hc as [|ev evs Hev Hevs IH]; simpl; intros pg H; [exact H|].
  apply IH, step_sides; assumption.
Qed.

(** X17. The side volume cards after the mount.  The effect calls
    [fetchMatchBets] from the first render, where the game is not loaded,
    and does not run again when the game arrives.  So from the mount until
    the next submit or the next run of the effect, in whatever order the
    store answers and whatever bets it returns (each with a team, a string
    or [null]), both side volumes on the page are zero; a game that has
    loaded in the meantime with its two sides does not change that. *)
Theorem side_volumes_zero_after_mount (rid : option string) (u : option User)
    (db : Store) (evs : list Event) :
  Forall calm evs ->
  let pg := exec evs (step (Effect rid u) (fresh rid u db)) in
  teamAVolume (session (world pg)) = 0%float /\
  teamBVolume (session (world pg)) = 0%float.
Proof.
  intros Hc pg.
  assert (H : page_sides_zero pg).
  { apply exec_sides; [exact Hc|]. unfold step. apply run_effect_sides; [reflexivity|].
    split; [split; reflexivity|constructor]. }
  apply H.
Qed.

End AfterMount.

(** ** The effect and late answers *)

Section Effects.
Context {B : Builtins}.

(** X18. The effect starts the three loaders without waiting for any of
    them.  With a route parameter and a user, three requests leave the page
    before any answer arrives, in this order: the game, the balance, the
    win bets; three calls are then suspended on them.  The score bets are
    not asked for yet: that request waits for the answer on the win
    bets. *)
Theorem effect_starts_loaders (pg : Page) (i : string) (u : User) :
  route_id (session (world pg)) = Some i ->
  truthy_string i = true ->
  user (session (world pg)) = Some u ->
  let pg' := run_effect pg in
  requests (world pg') =
    requests (world pg) ++ [SelectGame (Some i); SelectBalance (user_id u); SelectWinBets i] /\
  map handler (tasks pg') =
    map handler (tasks pg) ++ [H_fetchGame; H_fetchUserBalance; H_fetchMatchBets] /\
  map pending (tasks pg') =
    map pending (tasks pg) ++ [SelectGame (Some i); SelectBalance (user_id u); SelectWinBets i] /\
  betsLoading (session (world pg')) = true /\
  loading (session (world pg')) = loading (session (world pg)) /\
  store (world pg') = store (world pg).
Proof.
  intros Hi Ht Hu pg'. subst pg'. unfold run_effect, truthy_id.
  rewrite Hi, Ht, Hu. unfold start, fetchGame, fetchUserBalance, fetchMatchBets.
  rewrite Hi, Ht, Hu. simpl.
  rewrite !map_app, <- !app_assoc. simpl. repeat split.
Qed.

(** X19. A late answer is applied.  Nothing ties a suspended [fetchGame]
    to the route it was called for: when the effect has run for one route
    and then for another, the answer to the first game request still sets
    the game, so the page of the second route shows the first game. *)
Theorem late_answer_is_applied (a b : string) (u : option User) (db : Store)
    (gw : Gateway) (g : Game) :
  truthy_string a = true ->
  gw (SelectGame (Some a)) = Fulfilled (ok g) ->
  let pg := exec [Effect (Some a) u; Effect (Some b) u; Answer 0 gw] (fresh (Some a) u db) in
  route_id (session (world pg)) = Some b /\
  render (session (world pg)) = GamePage g.
Proof.
  intros Ha Hg pg. subst pg.
  destruct a as [|ch a]; [discriminate|].
  destruct u as [u|], b as [|ch' b]; vm_compute; rewrite Hg; vm_compute;
    split; reflexivity.
Qed.


End Effects.

(** ** The total card and the list *)

Lemma fresh_total {B : Builtins} (rid : option string) (u : option User) (db : Store) :
  page_total (fresh rid u db).
Proof. split; [reflexivity|constructor]. Qed.

Section TotalCard.
Context {B : Builtins}.

Lemma fetchGame_total (c : Session) (l : list MatchBet) (x : number) :
  x = reduce_amounts l -> keeps_total l x (fetchGame c).
Proof. intros H. unfold fetchGame. walk_total. Qed.

Lemma fetchUserBalance_total (c : Session) (l : list MatchBet) (x : number) :
  x = reduce_amounts l -> keeps_total l x (fetchUserBalance c).
Proof. intros H. unfold fetchUserBalance. walk_total. Qed.

Lemma fetchMatchBets_total (c : Session) (l : list MatchBet) (x : number) :
  x = reduce_amounts l -> keeps_total l x (fetchMatchBets c).
Proof. intros H. unfold fetchMatchBets. walk_total. Qed.

Lemma placeBet_total (c : Session) (l : list MatchBet) (x : number) :
  x = reduce_amounts l -> keeps_total l x (placeBet c).
Proof.
  intros H. unfold placeBet, refresh_and_clear, fetchMatchBets, fetchUserBalance.
  walk_total.
Qed.

Lemma advance_total (p : Prog unit) (w : World) :
  keeps_total (matchBets (session w)) (totalVolume (session w)) p ->
  let w' := fst (advance p w) in
  totalVolume (session w') = reduce_amounts (matchBets (session w')) /\
  match snd (advance p w) with
  | Waiting q k => forall o l x, x = reduce_amounts l -> keeps_total l x (k o)
  | _ => True
  end.
Proof.
  revert w; induction p as [a|e|a k IH|m k IH|q k IH]; intros w Hp; simpl in *; auto.
  apply IH. destruct a; exact Hp.
Qed.

Lemma start_total (h : Handler) (p : Prog unit) (pg : Page) :
  (forall l x, x = reduce_amounts l -> keeps_total l x p) ->
  page_total pg -> page_total (start h p pg).
Proof.
  intros Hp [Hs Hf]. unfold start.
  destruct (advance_total p (world pg) (Hp _ _ Hs)) as [E K].
  destruct (advance p (world pg)) as [w [| |q k]]; simpl in *.
  - split; assumption.
  - split; assumption.
  - split; [exact E|]. simpl. apply Forall_app. split; [exact Hf|].
    constructor; [exact K|constructor].
Qed.

Lemma run_effect_total (pg : Page) : page_total pg -> page_total (run_effect pg).
Proof.
  intros H. unfold run_effect.
  set (c := session (world pg)) in *.
  assert (H1 : page_total (if truthy_id (route_id c)
                           then start H_fetchGame (fetchGame c) pg else pg)).
  { destruct (truthy_id (route_id c)); [|exact H].
    apply start_total; auto. apply fetchGame_total. }
  set (pg1 := if truthy_id (route_id c) then _ else pg) in *.
  assert (H2 : page_total (match user c with
                           | Some _ => start H_fetchUserBalance (fetchUserBalance c) pg1
                           | None => pg1 end)).
  { destruct (user c); [|exact H1].
    apply start_total; auto. apply fetchUserBalance_total. }
  set (pg2 := match user c with Some _ => _ | None => pg1 end) in *.
  destruct (truthy_id (route_id c)); [|exact H2].
  apply start_total; auto. apply fetchMatchBets_total.
Qed.

Lemma step_total (ev : Event) (pg : Page) : page_total pg -> page_total (step ev pg).
Proof.
  intros H. destruct ev as [rid u|v|v|idx| |i gw]; unfold step.
  - apply run_effect_total. exact H.
  - destruct (form_shown _); exact H.
  - destruct (form_shown _) as [g|]; [|exact H]. destruct (String.eqb _ _); exact H.
  - destruct (form_shown _) as [g|]; [|exact H].
    destruct (String.eqb _ _); [exact H|]. destruct (Nat.ltb _ _); exact H.
  - destruct (form_shown _) as [g|]; [|exact H].
    destruct (submit_disabled _); [exact H|].
    apply start_total; [apply placeBet_total|exact H].
  - destruct (nth_error (tasks pg) i) as [t|] eqn:Et; [|exact H].
    destruct H as [Hs Hf]. apply start_total.
    + rewrite Forall_forall in Hf. apply (Hf t). eapply nth_error_In, Et.
    + split; [exact Hs|]. simpl. apply remove_nth_Forall, Hf.
Qed.

(** X21. The total card agrees with the list.  In every state the page
    can reach from its mount, whatever the events and the answers of the
    store, the total volume on display is the sum of the amounts of the
    bets on display: the two are only ever set together, from one
    array. *)
Theorem total_matches_list (rid : option string) (u : option User) (db : Store)
    (evs : list Event) :
  let s := session (world (exec evs (fresh rid u db))) in
  totalVolume s = reduce_amounts (matchBets s).
Proof.
  intros s. subst s.
  assert (H : page_total (exec evs (fresh rid u db))).
  { unfold exec. generalize (fresh_total rid u db). generalize (fresh rid u db).
    induction evs as [|ev evs IH]; simpl; intros pg Hpg; [exact Hpg|].
    apply IH, step_total, Hpg. }
  apply H.
Qed.

End TotalCard.

(** ** Examples of the further properties *)

Lemma fetchGame_then_render_witness :
  let w := at_form (Some punter) None 100%float "" "" in
  render (session (fst (run accepting (fetchGame (session w)) w))) =
  GamePage (lions_tigers "live").
Proof.
  intros w. exact (fetchGame_then_render accepting (session w) w eq_refl).
Defined.

Lemma fetchMatchBets_outcome_witness :
  let w := at_form (Some punter) (Some (lions_tigers "live")) 100%float "" "" in
  let s' := session (fst (run busy (fetchMatchBets (B := ascii_builtins) (session w)) w)) in
  betsLoading s' = false /\
  map id (matchBets s') = ["s1"; "w1"] /\
  totalVolume s' = 50%float.
Proof.
  intros w s'.
  pose proof (fetchMatchBets_outcome (B := ascii_builtins) busy (session w) w "G1"
                eq_refl eq_refl) as H.
  change (busy (SelectWinBets "G1"))
    with (@Fulfilled (Reply (list WinBetRow)) (ok [win_row_at "w1" "2024-05-01T12:00:00Z"]))
    in H.
  change (busy (SelectScoreBets "G1"))
    with (@Fulfilled (Reply (list ScoreBetRow)) (ok [score_row_at "s1" "2024-05-01T12:05:00Z"]))
    in H.
  cbv beta iota zeta in H. destruct H as (_ & L & _ & M & _).
  split; [exact L|]. split; [unfold s'; rewrite M; reflexivity|].
  vm_compute. reflexivity.
Defined.

Lemma fetchMatchBets_without_id_witness :
  let w := world (fresh None (Some punter) empty_store) in
  run accepting (fetchMatchBets (B := ascii_builtins) (session w)) w = (w, Returned tt).
Proof.
  intros w.
  exact (fetchMatchBets_without_id (B := ascii_builtins) accepting (session w) w eq_refl).
Defined.


Lemma side_volumes_without_game_witness :
  let w := at_form (Some punter) None 100%float "" "" in
  let s' := session (fst (run busy (fetchMatchBets (B := ascii_builtins) (session w)) w)) in
  map team (matchBets s') = [val "Lions"; val "Lions"] /\
  teamAVolume s' = 0%float /\
  teamBVolume s' = 0%float /\
  totalVolume s' = 50%float.
Proof.
  intros w s'.
  destruct (side_volumes_without_game (B := ascii_builtins) busy (session w) w "G1"
              (ok [win_row_at "w1" "2024-05-01T12:00:00Z"])
              (ok [score_row_at "s1" "2024-05-01T12:05:00Z"])
              eq_refl eq_refl eq_refl eq_refl eq_refl)
    as (Ha & Hb & Ht).
  - repeat constructor. discriminate.
  - repeat constructor. discriminate.
  - split; [vm_compute; reflexivity|]. split; [exact Ha|]. split; [exact Hb|].
    fold s' in Ht. rewrite Ht. vm_compute. reflexivity.
Defined.

Lemma win_selection_checked_witness :
  let g := lions_tigers "live" in
  let w := at_form (Some punter) (Some g) 100%float "30" "" in
  let w' := at_form (Some punter) (Some g) 100%float "30" "Bears" in
  error (session (submit (B := ascii_builtins) accepting w)) = "Select a team" /\
  store (submit (B := ascii_builtins) accepting w) = store w /\
  map wi_team (win_game_bets (store (submit (B := ascii_builtins) accepting w'))) = ["Bears"].
Proof.
  intros g w w'.
  destruct (win_selection_checked (B := ascii_builtins) accepting w punter g
              eq_refl eq_refl (conj eq_refl (conj eq_refl eq_refl)) eq_refl) as [H _].
  destruct (H eq_refl) as (E & S & _).
  destruct (win_selection_checked (B := ascii_builtins) accepting w' punter g
              eq_refl eq_refl (conj eq_refl (conj eq_refl eq_refl)) eq_refl) as [_ H'].
  destruct H' as (_ & row & T & _ & _ & _ & _ & St); [discriminate|].
  split; [exact E|]. split; [exact S|].
  rewrite St. simpl. rewrite T. reflexivity.
Defined.

Lemma submit_replaces_the_message_witness :
  let g := lions_tigers "live" in
  let w := at_form (Some punter) (Some g) 100%float "150" "Lions" in
  submit (B := ascii_builtins) accepting (with_error "Failed to place bet." w) =
    submit (B := ascii_builtins) accepting w /\
  submitting (session (submit (B := ascii_builtins) accepting w)) = false.
Proof.
  intros g w.
  destruct (submit_replaces_the_message (B := ascii_builtins) accepting w punter g
              "Failed to place bet." eq_refl eq_refl) as (E & S & _).
  split; assumption.
Defined.

Lemma written_but_reported_failed_witness :
  let g := lions_tigers "live" in
  let w := at_form (Some punter) (Some g) 100%float "30" "Lions" in
  let w' := submit (B := ascii_builtins) balance_down w in
  map wi_team (win_game_bets (store w')) = ["Lions"] /\
  error (session w') = "Failed to place bet." /\
  betAmount (session w') = "30" /\
  prediction (session w') = "Lions".
Proof.
  intros g w w'.
  destruct (written_but_reported_failed (B := ascii_builtins) balance_down w punter g
              (ok tt) "Failed to fetch" eq_refl eq_refl
              (conj eq_refl (conj eq_refl eq_refl)) eq_refl eq_refl eq_refl)
    as (St & E & A & P & _).
  fold w' in St, E, A, P.
  split; [rewrite St; reflexivity|]. split; [exact E|]. split; [exact A|exact P].
Defined.

Lemma accepted_submit_refreshes_witness :
  let g := lions_tigers "live" in
  let w := at_form (Some punter) (Some g) 100%float "30" "Lions" in
  let s' := session (submit (B := ascii_builtins) busy w) in
  map id (matchBets s') = ["s1"; "w1"] /\
  teamAVolume s' = 50%float /\
  userBalance s' = 70%float /\
  betAmount s' = "" /\
  submitting s' = false.
Proof.
  intros g w s'.
  destruct (accepted_submit_refreshes (B := ascii_builtins) busy w punter g "G1" (ok tt)
              (ok [win_row_at "w1" "2024-05-01T12:00:00Z"])
              (ok [score_row_at "s1" "2024-05-01T12:05:00Z"])
              (ok {| balance := val 70%float |}) 70%float
              eq_refl eq_refl eq_refl eq_refl (conj eq_refl (conj eq_refl eq_refl)) eq_refl
              eq_refl eq_refl eq_refl eq_refl eq_refl eq_refl)
    as (_ & M & V & Bal & A & _ & _ & S & _).
  fold s' in M, V, Bal, A, S.
  split; [rewrite M; reflexivity|]. split; [|split; [exact Bal|split; [exact A|exact S]]].
  apply (f_equal side_a_volume) in V. cbn [side_a_volume] in V.
  rewrite V, M. vm_compute. reflexivity.
Defined.

Lemma button_enabled_when_idle_witness :
  let pg := exec (B := ascii_builtins) (a_visit accepting)
              (fresh (Some "G1") (Some punter) empty_store) in
  in_flight pg = O /\
  submit_disabled (session (world pg)) = false /\
  map wi_team (win_game_bets (store (world pg))) = ["Lions"].
Proof.
  intros pg.
  assert (H : in_flight pg = O) by (vm_compute; reflexivity).
  split; [exact H|]. split; [|vm_compute; reflexivity].
  exact (button_enabled_when_idle (B := ascii_builtins) (Some "G1") (Some punter)
           empty_store (a_visit accepting) H).
Defined.

Lemma bracket_round_trip_witness :
  let b := tag_score (score_row_at "s1" "2024-05-01T12:05:00Z") in
  PrimFloat.is_nan (parseInt_ascii (range_value 3)) = false /\
  bracket_label b = val "101 - 120".
Proof.
  intros b. exact (bracket_round_trip 3 "101 - 120" b eq_refl eq_refl).
Defined.

Lemma side_volumes_zero_after_mount_witness :
  let evs := [Answer 0 busy; Answer 0 busy; Answer 0 busy; Answer 0 busy] in
  let pg := exec (B := ascii_builtins) evs
              (step (B := ascii_builtins) (Effect (Some "G1") (Some punter))
                 (fresh (Some "G1") (Some punter) empty_store)) in
  let s := session (world pg) in
  side_a (game s) = val "Lions" /\
  map team (matchBets s) = [val "Lions"; val "Lions"] /\
  teamAVolume s = 0%float /\
  teamBVolume s = 0%float.
Proof.
  intros evs pg s.
  split; [vm_compute; reflexivity|]. split; [vm_compute; reflexivity|].
  apply (side_volumes_zero_after_mount (B := ascii_builtins)).
  repeat constructor; intros q; destruct q; simpl; repeat constructor; discriminate.
Defined.

Lemma effect_starts_loaders_witness :
  let pg := fresh (Some "G1") (Some punter) empty_store in
  requests (world (run_effect (B := ascii_builtins) pg)) =
    [SelectGame (Some "G1"); SelectBalance "u1"; SelectWinBets "G1"] /\
  map handler (tasks (run_effect (B := ascii_builtins) pg)) =
    [H_fetchGame; H_fetchUserBalance; H_fetchMatchBets].
Proof.
  intros pg.
  destruct (effect_starts_loaders (B := ascii_builtins) pg "G1" punter
              eq_refl eq_refl eq_refl) as (R & H & _).
  split; [exact R|exact H].
Defined.

Lemma late_answer_is_applied_witness :
  let pg := exec (B := ascii_builtins)
              [Effect (Some "G1") (Some punter); Effect (Some "G2") (Some punter);
               Answer 0 accepting]
              (fresh (Some "G1") (Some punter) empty_store) in
  route_id (session (world pg)) = Some "G2" /\
  render (session (world pg)) = GamePage (lions_tigers "live").
Proof.
  intros pg.
  exact (late_answer_is_applied (B := ascii_builtins) "G1" "G2" (Some punter) empty_store
           accepting (lions_tigers "live") eq_refl eq_refl).
Defined.

End GameDetails.
